(** * Resume tailorer: the measure-and-correct loop of [backend/app.py]

    A shallow embedding of the Flask backend's core
    ([extract_latex_from_response], [calculate_fill_ratio],
    [compile_latex_to_pdf], [shorten_resume], [expand_resume] and the
    optimization loop of [tailor_resume]) together with the properties the
    specification states about them.

    Modelling conventions.
    - A Python [str] is a list of Unicode code points ([list N]).
    - A Python [float] is an exact rational ([Q]); the code only compares,
      subtracts and divides the numbers it measures, a literal such as
      [0.88] stands for its decimal value.
    - A raised exception is the [Raise] case of [result]. The generative
      service and [pdflatex] are parameters of the model and thread an
      abstract world state; a PDF file is what the two PDF readers find in
      it. The state of the server (the stored resume, the files on disk)
      and the trace of what a run does to the outside are explicit. *)

From Stdlib Require Import ZArith NArith QArith Qround Qabs List String Ascii Bool Lia Lqa.
From Stdlib Require Import DecimalString.
From stdpp Require Import base option list gmap.
Import ListNotations.

(* ===================================================================== *)
(** ** Python strings *)
(* ===================================================================== *)

Module Str.

Abbreviation char := N (only parsing).
Abbreviation str := (list N) (only parsing).

(** The code points of an ASCII literal. *)
Definition lit (s : string) : str :=
  List.map N_of_ascii (list_ascii_of_string s).
Arguments lit : simpl never.

(** [str.isspace] on one code point (CPython's [_PyUnicode_IsWhitespace]);
    the regular expression class [\s] of a [str] pattern is the same set. *)
Definition isspace (c : char) : bool :=
  ((9 <=? c) && (c <=? 13) || (28 <=? c) && (c <=? 32)
   || (c =? 133) || (c =? 160) || (c =? 5760)
   || (8192 <=? c) && (c <=? 8202)
   || (c =? 8232) || (c =? 8233) || (c =? 8239) || (c =? 8287)
   || (c =? 12288))%N.

Fixpoint lstrip (s : str) : str :=
  match s with
  | c :: s' => if isspace c then lstrip s' else s
  | [] => []
  end.

Definition rstrip (s : str) : str := rev (lstrip (rev s)).

(** [s.strip()] *)
Definition strip (s : str) : str := rstrip (lstrip s).

Fixpoint startswith (p s : str) : bool :=
  match p, s with
  | [], _ => true
  | a :: p', b :: s' => (a =? b)%N && startswith p' s'
  | _ :: _, [] => false
  end.

Fixpoint find_from (sub s : str) (i : nat) : option nat :=
  if startswith sub s then Some i
  else match s with
       | [] => None
       | _ :: s' => find_from sub s' (S i)
       end.

(** [s.find(sub)]: the lowest index of [sub] in [s], or [-1]. *)
Definition find (sub s : str) : Z :=
  match find_from sub s 0 with
  | Some i => Z.of_nat i
  | None => (-1)%Z
  end.

(** [sub in s] *)
Definition contains (sub s : str) : bool :=
  match find_from sub s 0 with
  | Some _ => true
  | None => false
  end.

(** [s[start:]], with Python's reading of a negative start. *)
Definition slice_from (start : Z) (s : str) : str :=
  if (start <? 0)%Z
  then drop (Z.to_nat (Z.max 0 (Z.of_nat (length s) + start))) s
  else drop (Z.to_nat start) s.

(** [s[:stop]] for a non-negative stop. *)
Definition slice_to (stop : nat) (s : str) : str := take stop s.

End Str.

(* ===================================================================== *)
(** ** The fragment of [re] the extractor uses *)
(* ===================================================================== *)

Module Re.
Import Str.

(** The five patterns of the source are sequences of literal characters,
    one greedy [\s*] and one lazy [(.*?)]; all are searched with
    [re.IGNORECASE], the fence patterns also with [re.DOTALL]. *)
Inductive atom : Set :=
| Lit (c : N)    (** a literal character *)
| SpaceStar      (** [\s*], greedy *)
| LazyAny.       (** [(.*?)] under DOTALL, the pattern's group 1 *)

Abbreviation regex := (list atom) (only parsing).

Definition lits (s : string) : regex := List.map Lit (lit s).

(** Lower case of an ASCII letter. The letters of the source's patterns
    ([l a t e x n d o c u m]) have no case variant outside ASCII, so a
    literal [c] matches [x] under IGNORECASE iff their lower cases agree. *)
Definition lower (c : N) : N :=
  if ((65 <=? c) && (c <=? 90))%N then (c + 32)%N else c.

Definition ci_eqb (c x : N) : bool := (lower c =? lower x)%N.

(** Backtracking match of [re] at the head of the subject: the text of
    group 1 and the number of characters the match consumed. The greedy
    star tries the longest run first, the lazy one the shortest. *)
Fixpoint match_here (re : regex) : str -> option (str * nat) :=
  match re with
  | [] => fun _ => Some ([], 0%nat)
  | Lit c :: re' => fun s =>
      match s with
      | x :: s' =>
          if ci_eqb c x
          then match match_here re' s' with
               | Some (g, n) => Some (g, S n)
               | None => None
               end
          else None
      | [] => None
      end
  | SpaceStar :: re' =>
      fix greedy (s : str) : option (str * nat) :=
        match s with
        | x :: s' =>
            if isspace x
            then match greedy s' with
                 | Some (g, n) => Some (g, S n)
                 | None => match_here re' s
                 end
            else match_here re' s
        | [] => match_here re' []
        end
  | LazyAny :: re' =>
      fix lazy (s : str) : option (str * nat) :=
        match match_here re' s with
        | Some (_, n) => Some ([], n)
        | None =>
            match s with
            | x :: s' =>
                match lazy s' with
                | Some (g, n) => Some (x :: g, S n)
                | None => None
                end
            | [] => None
            end
        end
  end.

(** A match object: [m.start()], [m.end()] and [m.group(1)]. *)
Record re_match : Set := MkMatch {
  m_start : nat;
  m_end : nat;
  m_group1 : str
}.

Fixpoint search_from (re : regex) (s : str) (i : nat) : option re_match :=
  match match_here re s with
  | Some (g, n) => Some (MkMatch i (i + n) g)
  | None =>
      match s with
      | [] => None
      | _ :: s' => search_from re s' (S i)
      end
  end.

(** [re.search(pattern, s, flags)]: the leftmost match. *)
Definition search (re : regex) (s : str) : option re_match :=
  search_from re s 0.

End Re.

(* ===================================================================== *)
(** ** Results and exceptions *)
(* ===================================================================== *)

(** The exceptions of the backend; the source raises plain [Exception]s
    that differ by their message. *)
Inductive exn : Set :=
| ExtractionError        (** "Could not extract valid LaTeX from API response..." *)
| LatexCompilationFailed (** "LaTeX compilation failed: ..." *)
| NoPdfProduced          (** "LaTeX compilation did not produce a PDF file." *)
| PdflatexNotFound       (** "pdflatex binary not found. ..." *)
| ServiceError           (** raised by [query_perplexity] *)
| LibraryError.          (** any other exception of a library call *)

Inductive result (A : Type) : Type :=
| Ok (a : A)
| Raise (e : exn).
Arguments Ok {A} a.
Arguments Raise {A} e.

(* ===================================================================== *)
(** ** Content extractor *)
(* ===================================================================== *)

Module Extractor.
Import Str Re.

Definition DOCUMENTCLASS : str := lit "\documentclass".
Definition BEGIN_DOCUMENT : str := lit "\begin{document}".
Definition END_DOCUMENT : str := lit "\end{document}".
Definition FENCE : str := lit "```".

(** [extract_preamble_from_original] *)
Definition extract_preamble_from_original (original_tex : str) : str :=
  if contains BEGIN_DOCUMENT original_tex
  then
    let idx := find BEGIN_DOCUMENT original_tex in
    slice_to (Z.to_nat idx) original_tex
  else [].

Definition fence_patterns : list regex :=
  [ lits "```latex" ++ [SpaceStar; Lit 10; LazyAny] ++ lits "```";
    lits "```tex" ++ [SpaceStar; Lit 10; LazyAny] ++ lits "```";
    lits "```" ++ [SpaceStar; Lit 10; LazyAny] ++ lits "```";
    lits "```" ++ [LazyAny] ++ lits "```" ].

(** [(\\end\{document\})]; only [match.end()] is used. *)
Definition end_doc_pattern : regex := lits "\end{document}".

Definition has_marker (s : str) : bool :=
  contains DOCUMENTCLASS s || contains BEGIN_DOCUMENT s.

(** The [for pattern in fence_patterns] loop: the first pattern whose
    stripped group holds a marker replaces the text and ends the loop. *)
Fixpoint strip_fences (patterns : list regex) (text : str) : str :=
  match patterns with
  | [] => text
  | pattern :: rest =>
      match search pattern text with
      | Some m =>
          let extracted := strip (m_group1 m) in
          if has_marker extracted then extracted
          else strip_fences rest text
      | None => strip_fences rest text
      end
  end.

(** The [if '\\documentclass' in text ... elif ...] step. *)
Definition locate_start (text original_tex : str) : str :=
  if contains DOCUMENTCLASS text then
    let start := find DOCUMENTCLASS text in
    slice_from start text
  else if contains BEGIN_DOCUMENT text then
    let start := find BEGIN_DOCUMENT text in
    let body := slice_from start text in
    let preamble := extract_preamble_from_original original_tex in
    match preamble with
    | _ :: _ => preamble ++ body
    | [] => body
    end
  else text.

(** Removal of the text after [\end{document}]. *)
Definition cut_after_end (text : str) : str :=
  match search end_doc_pattern text with
  | Some m => slice_to (m_end m) text
  | None => text
  end.

(** [extract_latex_from_response]; its two diagnostic prints are left out. *)
Definition extract_latex_from_response
    (response_text original_tex : str) : result str :=
  let text := strip response_text in
  let text := strip_fences fence_patterns text in
  let text := locate_start text original_tex in
  let text := cut_after_end text in
  if negb (contains DOCUMENTCLASS text) && negb (contains BEGIN_DOCUMENT text)
  then Raise ExtractionError
  else Ok text.

End Extractor.

(* ===================================================================== *)
(** ** Python numbers *)
(* ===================================================================== *)

Module Num.
Import Str.
Local Open Scope Q_scope.

(** [x < y] on floats. *)
Definition Qltb (x y : Q) : bool := negb (Qle_bool y x).

(** [min(a, b)] and [max(a, b)] of two arguments: the first argument is
    kept unless the second is strictly smaller (larger). *)
Definition py_min (a b : Q) : Q := if Qltb b a then b else a.
Definition py_max (a b : Q) : Q := if Qltb a b then b else a.

(** Rounding of a non-negative rational to the nearest integer, ties to
    the even one. *)
Definition round_half_even (x : Q) : Z :=
  let fl := Qfloor x in
  match Qcompare (x - inject_Z fl) (1 # 2) with
  | Lt => fl
  | Gt => (fl + 1)%Z
  | Eq => if Z.even fl then fl else (fl + 1)%Z
  end.

Definition decimal (n : Z) : str :=
  lit (NilZero.string_of_uint (N.to_uint (Z.to_N n))).

(** [f"{x:.2f}"] *)
Definition format_2f (x : Q) : str :=
  let n := round_half_even (Qabs x * 100) in
  let frac := (n mod 100)%Z in
  (if Qltb x 0 then lit "-" else [])
  ++ decimal (n / 100) ++ lit "."
  ++ (if (frac <? 10)%Z then lit "0" else []) ++ decimal frac.

(** [round(x, 2)] *)
Definition round2 (x : Q) : Q :=
  let n := round_half_even (Qabs x * 100) in
  if Qltb x 0 then (- n # 100) else (n # 100).

End Num.

(* ===================================================================== *)
(** ** Layout analyzer *)
(* ===================================================================== *)

Module Layout.
Import Str Num.
Local Open Scope Q_scope.

(** A text block of PyMuPDF: [(x0, y0, x1, y1, text, block_no, block_type)]. *)
Record block : Set := MkBlock {
  x0 : Q; y0 : Q; x1 : Q; y1 : Q;
  block_text : list N; block_no : nat; block_type : nat
}.

(** A page as [fitz] shows it: [page.rect.height] and
    [page.get_text("blocks")], which may raise. *)
Record page : Set := MkPage {
  rect_height : Q;
  get_text_blocks : result (list block)
}.

(** What [import fitz; fitz.open(pdf_path)] yields for a path: the pages of
    the document, or an exception. *)
Abbreviation fitz_doc := (result (list page)) (only parsing).

(** The [for block in blocks] loop, from [(content_top, content_bottom)]. *)
Fixpoint scan_blocks (blocks : list block) (content_top content_bottom : Q) : Q * Q :=
  match blocks with
  | [] => (content_top, content_bottom)
  | b :: rest =>
      scan_blocks rest (py_min content_top (y0 b)) (py_max content_bottom (y1 b))
  end.

(** The body of the [try] block of [calculate_fill_ratio]. *)
Definition measure (doc : fitz_doc) : result Q :=
  match doc with
  | Raise e => Raise e
  | Ok [] => Raise LibraryError                   (* doc[0]: IndexError *)
  | Ok (page :: _) =>
      let page_height := rect_height page in
      match get_text_blocks page with
      | Raise e => Raise e
      | Ok [] => Ok 0.5
      | Ok blocks =>
          let '(content_top, content_bottom) := scan_blocks blocks page_height 0 in
          let top_margin := content_top in
          let bottom_margin := 36 in
          let usable_bottom := page_height - bottom_margin in
          let usable_height := usable_bottom - top_margin in
          let content_used := content_bottom - top_margin in
          let fill_ratio :=
            if Qltb 0 usable_height then content_used / usable_height else 0.9 in
          Ok (py_min (py_max fill_ratio 0.0) 1.0)
      end
  end.

(** [calculate_fill_ratio]: [except Exception] turns every failure of the
    measurement into 0.9. *)
Definition calculate_fill_ratio (doc : fitz_doc) : Q :=
  match measure doc with
  | Ok r => r
  | Raise _ => 0.9
  end.

End Layout.

(* ===================================================================== *)
(** ** Correction prompts *)
(* ===================================================================== *)

Module Prompts.
Import Str Num.

Definition nl : list N := [10%N].

(** The lines of a triple-quoted literal, joined by newlines. *)
Fixpoint unlines (ls : list (list N)) : list N :=
  match ls with
  | [] => []
  | [l] => l
  | l :: rest => l ++ nl ++ unlines rest
  end.

Definition shorten_system_prompt : list N := unlines
  [ lit "You are a resume editor. The resume is too dense/long and needs to be shortened slightly.";
    [];
    lit "Make SMALL targeted cuts - don't dramatically change the resume.";
    [];
    lit "CUTTING PRIORITY:";
    lit "1. Tighten verbose phrases - remove filler words";
    lit "2. Shorten the longest bullet points";
    lit "3. Remove redundant details";
    lit "4. Cut least relevant skills";
    [];
    lit "PRESERVE:";
    lit "- All job-relevant qualifications and keywords";
    lit "- Key achievements and metrics";
    lit "- Overall structure (3 experiences, 2 projects)";
    [];
    lit "Return ONLY the LaTeX code. No explanations." ].

Definition shorten_prompt
    (latex_content job_description : list N) (current_fill_ratio : Q) : list N :=
  unlines
  [ lit "This resume needs to be SLIGHTLY shorter. Current fill ratio: "
      ++ format_2f current_fill_ratio ++ lit " (target: 0.88-0.96)";
    [];
    lit "Make small cuts to reduce length by about 5-10%.";
    [];
    lit "Job Description (keep these qualifications):";
    slice_to 1500 job_description;
    [];
    lit "Current LaTeX:";
    latex_content;
    [];
    lit "Return slightly shortened LaTeX. Keep all sections, just tighten the content." ].

Definition expand_system_prompt : list N := unlines
  [ lit "You are a resume editor. The resume has too much whitespace and needs more content.";
    [];
    lit "EXPAND by:";
    lit "1. Add more detail to existing bullet points - elaborate on impact, context, technologies";
    lit "2. Add an additional bullet to experiences that only have 2";
    lit "3. Expand project descriptions with more technical detail";
    lit "4. Add relevant skills that match the job description";
    [];
    lit "RULES:";
    lit "- Keep 3 experiences, 2 projects structure";
    lit "- Each experience should have 2-3 bullets";
    lit "- Each project should have 1-2 bullets";
    lit "- Stay grounded in the candidate's background - embellish but don't fabricate";
    [];
    lit "Return ONLY the LaTeX code. No explanations." ].

Definition expand_prompt
    (latex_content job_description : list N) (current_fill_ratio : Q) : list N :=
  unlines
  [ lit "This resume has too much whitespace. Current fill ratio: "
      ++ format_2f current_fill_ratio ++ lit " (target: 0.88-0.96)";
    [];
    lit "Add more content to fill the page better - about 10-15% more content.";
    [];
    lit "Job Description (emphasize these qualifications):";
    slice_to 1500 job_description;
    [];
    lit "Current LaTeX (too sparse):";
    latex_content;
    [];
    lit "Return expanded LaTeX with more detail. Fill the page better while keeping it professional." ].

End Prompts.

(* ===================================================================== *)
(** ** The backend: renderer, correction requester, optimization loop *)
(* ===================================================================== *)

Module Backend.
Import Str Re Num Layout Extractor Prompts.
Local Open Scope Q_scope.

(** A PDF file as the two readers see it: [len(PyPDF2.PdfReader(f).pages)]
    and the document [fitz] opens. *)
Record pdf_file : Set := MkPdf {
  reader_pages : result nat;
  fitz_view : result (list page)
}.

(** How [subprocess.run(["pdflatex", ...], timeout=120)] ends. *)
Inductive pdflatex_outcome : Set :=
| BinaryNotFound                                   (** [FileNotFoundError] *)
| TimeoutExpired                                   (** [subprocess.TimeoutExpired], or another failure to write the source and run the process *)
| Exited (returncode : Z) (pdf : option pdf_file). (** and the [.pdf] left in the temporary directory *)

Inductive adjustment : Set := shortened | expanded.

(** The lines the optimization loop prints. *)
Inductive loop_line : Set :=
| CheckLine (attempt page_count : nat) (fill_ratio : Q) (** "Optimization check #..: .. page(s), fill ratio: .." *)
| TooLong (page_count : nat)                            (** "  -> Too long (.. pages), shortening..." *)
| CouldNotFit                                           (** "WARNING: Could not fit on 1 page after 5 attempts" *)
| TooSparse (fill_ratio : Q)                            (** "  -> Too sparse (fill: .. < 0.88), expanding..." *)
| TooDense (fill_ratio : Q)                             (** "  -> Too dense (fill: .. > 0.96), shortening slightly..." *)
| Optimized (fill_ratio : Q).                           (** "Optimized: 1 page, fill ratio .. (target: 0.88-0.96)" *)

(** What a run does to the outside, in order. *)
Inductive event : Set :=
| Query (prompt system_prompt : list N)  (** a request to the generative service *)
| Pdflatex (stem tex : list N)           (** a run of the compiler *)
| SavePdf (name : list N)                (** a copy into [COMPILED_FOLDER] *)
| Print (line : loop_line).

(** The global dict [current_resume]. *)
Record resume : Set := MkResume {
  content : list N;
  filename : list N;
  file_type : list N
}.

Inductive bad_request : Set :=
| NoJobDescription    (** "No job description provided" *)
| NoResumeUploaded.   (** "No resume uploaded. Please upload a resume first." *)

Record payload : Set := MkPayload {
  original_filename : list N;
  p_file_type : list N;
  tailored_resume : list N;
  p_page_count : nat;
  p_fill_ratio : Q;
  was_adjusted : bool;
  p_adjustment_count : nat;
  p_adjustment_type : option adjustment;
  compiled_pdf_url : list N
}.

Inductive response : Set :=
| BadRequest (why : bad_request)   (** status 400 *)
| ServerError (e : exn)            (** status 500, [str(e)] *)
| Success (p : payload).

(** The answers of [upload_file]. *)
Inductive upload_response : Set :=
| UploadRejected              (** status 400: no file, no name, or not a [.tex] name *)
| UploadFailed (e : exn)      (** status 500 *)
| Uploaded (filename : list N).

(** [Path(name).stem] for a name without directory separators; the names
    the backend stores come from [secure_filename] or
    [SAVED_RESUME_FILE.name]. The path [.] has no name. *)
Fixpoint rfind_dot (s : list N) (i : nat) (last : option nat) : option nat :=
  match s with
  | [] => last
  | c :: s' => rfind_dot s' (S i) (if (c =? 46)%N then Some i else last)
  end.

Definition path_stem (name : list N) : list N :=
  match name with
  | [46%N] => []
  | _ =>
      match rfind_dot name 0 None with
      | Some i =>
          if ((0 <? i) && (i <? length name - 1))%nat then slice_to i name else name
      | None => name
      end
  end.

(** [allowed_file]: the text after the last dot, in lower case, is [tex]. *)
Definition allowed_file (filename : list N) : bool :=
  match rfind_dot filename 0 None with
  | Some i => bool_decide (List.map lower (drop (S i) filename) = lit "tex")
  | None => false
  end.

(** [Path(name).stem or "resume"] *)
Definition filename_stem_of (name : list N) : list N :=
  match path_stem name with
  | [] => lit "resume"
  | stem => stem
  end.

Definition MIN_FILL_RATIO : Q := 0.88.
Definition MAX_FILL_RATIO : Q := 0.96.
Definition max_optimization_attempts : nat := 5.

(** The locals the loop assigns. *)
Record locals : Set := MkLocals {
  tailored_content : list N;
  adjustment_count : nat;
  adjustment_type : option adjustment
}.

Inductive control : Set := Continue | Break.

Section Services.

(** The outside world and the two services that act on it. *)
Variable W : Type.
Variable api : list N -> list N -> W -> result (list N) * W.
Variable run_pdflatex : list N -> list N -> W -> pdflatex_outcome * W.

(** The two prompt texts of [tailor_resume]; nothing below reads them. *)
Variable tailor_system_prompt : list N.
Variable tailor_prompt : list N -> list N -> list N -> list N.

(** The mutable state a request runs in. *)
Record state : Type := MkState {
  current_resume : resume;
  saved_resume_file : option (list N);       (** [main.tex] on disk *)
  rag_file : option (list N);                (** [rag_context.txt] *)
  compiled_folder : gmap (list N) pdf_file;  (** [uploads/compiled], by file name *)
  world : W;
  trace : list event
}.

Definition set_world (w : W) (st : state) : state :=
  MkState (current_resume st) (saved_resume_file st) (rag_file st)
          (compiled_folder st) w (trace st).

Definition set_compiled_folder (d : gmap (list N) pdf_file) (st : state) : state :=
  MkState (current_resume st) (saved_resume_file st) (rag_file st)
          d (world st) (trace st).

Definition emit (e : event) (st : state) : state :=
  MkState (current_resume st) (saved_resume_file st) (rag_file st)
          (compiled_folder st) (world st) (trace st ++ [e]).

(** [save_resume_to_disk]: writes [main.tex]. *)
Definition save_resume_to_disk (content : list N) (st : state) : state :=
  MkState (current_resume st) (Some content) (rag_file st)
          (compiled_folder st) (world st) (trace st).

(** [upload_file]: the one handler that assigns [current_resume]. The
    uploaded file is its name and its text, when it can be read as UTF-8;
    [secure_filename] is the library's. *)
Definition upload_file (secure_filename : list N -> list N)
    (file : option (list N * result (list N))) (st : state)
    : upload_response * state :=
  match file with
  | None => (UploadRejected, st)
  | Some (name, text) =>
      match name with
      | [] => (UploadRejected, st)
      | _ :: _ =>
          if negb (allowed_file name) then (UploadRejected, st)
          else
            let filename := secure_filename name in
            match text with
            | Raise e => (UploadFailed e, st)
            | Ok content =>
                let st :=
                  MkState (MkResume content filename (lit "tex"))
                          (saved_resume_file st) (rag_file st)
                          (compiled_folder st) (world st) (trace st) in
                (Uploaded filename, save_resume_to_disk content st)
            end
      end
  end.

(** Computations that read and write the state and may raise. *)
Definition M (A : Type) : Type := state -> result A * state.

Definition ret {A} (a : A) : M A := fun st => (Ok a, st).
Definition raise {A} (e : exn) : M A := fun st => (Raise e, st).
Definition bind {A B} (m : M A) (k : A -> M B) : M B :=
  fun st =>
    match m st with
    | (Ok a, st') => k a st'
    | (Raise e, st') => (Raise e, st')
    end.
Definition lift {A} (r : result A) : M A := fun st => (r, st).
Definition print (l : loop_line) : M unit := fun st => (Ok tt, emit (Print l) st).
Definition get_current_resume : M resume := fun st => (Ok (current_resume st), st).

#[local] Instance M_ret : MRet M := @ret.
#[local] Instance M_bind : MBind M := fun A B k m => bind m k.

(** [query_perplexity] *)
Definition query_perplexity (prompt system_prompt : list N) : M (list N) :=
  fun st =>
    let '(r, w) := api prompt system_prompt (world st) in
    (r, emit (Query prompt system_prompt) (set_world w st)).

(** [compile_latex_to_pdf] *)
Definition compile_latex_to_pdf
    (tex_content filename_stem : list N) (save_final : bool)
    : M (nat * Q * option (list N)) :=
  fun st =>
    let '(outcome, w) := run_pdflatex filename_stem tex_content (world st) in
    let st := emit (Pdflatex filename_stem tex_content) (set_world w st) in
    match outcome with
    | BinaryNotFound => (Raise PdflatexNotFound, st)
    | TimeoutExpired => (Raise LibraryError, st)
    | Exited returncode pdf =>
        if negb (returncode =? 0)%Z then (Raise LatexCompilationFailed, st)
        else
          match pdf with
          | None => (Raise NoPdfProduced, st)
          | Some pdf =>
              match reader_pages pdf with
              | Raise e => (Raise e, st)
              | Ok page_count =>
                  let fill_ratio := calculate_fill_ratio (fitz_view pdf) in
                  if negb save_final then (Ok (page_count, fill_ratio, None), st)
                  else
                    let final_filename := filename_stem ++ lit ".pdf" in
                    let folder := compiled_folder st in
                    let folder :=
                      match folder !! final_filename with
                      | Some _ => delete final_filename folder
                      | None => folder
                      end in
                    let folder := <[final_filename := pdf]> folder in
                    (Ok (page_count, fill_ratio, Some final_filename),
                     emit (SavePdf final_filename) (set_compiled_folder folder st))
              end
          end
    end.

(** [shorten_resume] *)
Definition shorten_resume
    (latex_content original_preamble job_description : list N)
    (current_fill_ratio : Q) : M (list N) :=
  let system_prompt := shorten_system_prompt in
  let prompt := shorten_prompt latex_content job_description current_fill_ratio in
  raw_response ← query_perplexity prompt system_prompt;
  lift (extract_latex_from_response raw_response original_preamble).

(** [expand_resume] *)
Definition expand_resume
    (latex_content original_preamble job_description : list N)
    (current_fill_ratio : Q) : M (list N) :=
  let system_prompt := expand_system_prompt in
  let prompt := expand_prompt latex_content job_description current_fill_ratio in
  raw_response ← query_perplexity prompt system_prompt;
  lift (extract_latex_from_response raw_response original_preamble).

Section Loop.
Variable filename_stem : list N.
Variable job_description : list N.

(** EVALUATE: the body of the loop after its render has reported
    [page_count] and [fill_ratio]. *)
Definition evaluate (attempt : nat) (l : locals) (page_count : nat) (fill_ratio : Q)
    : M (control * locals) :=
  print (CheckLine attempt page_count fill_ratio);;
  if (1 <? page_count)%nat then
    print (TooLong page_count);;
    if (attempt <? max_optimization_attempts)%nat then
      let l := MkLocals (tailored_content l) (adjustment_count l + 1) (Some shortened) in
      cur ← get_current_resume;
      new_content ← shorten_resume (tailored_content l) (content cur)
                                    job_description fill_ratio;
      ret (Continue, MkLocals new_content (adjustment_count l) (adjustment_type l))
    else
      print CouldNotFit;;
      ret (Break, l)
  else
    corrected ←
      (if Qltb fill_ratio MIN_FILL_RATIO then
         print (TooSparse fill_ratio);;
         if (attempt <? max_optimization_attempts)%nat then
           let l := MkLocals (tailored_content l) (adjustment_count l + 1) (Some expanded) in
           cur ← get_current_resume;
           new_content ← expand_resume (tailored_content l) (content cur)
                                        job_description fill_ratio;
           ret (Some (MkLocals new_content (adjustment_count l) (adjustment_type l)))
         else ret None
       else if Qltb MAX_FILL_RATIO fill_ratio then
         print (TooDense fill_ratio);;
         if (attempt <? max_optimization_attempts)%nat then
           let l := MkLocals (tailored_content l) (adjustment_count l + 1) (Some shortened) in
           cur ← get_current_resume;
           new_content ← shorten_resume (tailored_content l) (content cur)
                                         job_description fill_ratio;
           ret (Some (MkLocals new_content (adjustment_count l) (adjustment_type l)))
         else ret None
       else ret None);
    match corrected with
    | Some l' => ret (Continue, l')
    | None =>
        print (Optimized fill_ratio);;
        ret (Break, l)
    end.

(** One pass through the body of [for attempt in range(...)]: RENDER to
    a throwaway location, then EVALUATE. *)
Definition loop_body (attempt : nat) (l : locals) : M (control * locals) :=
  '(page_count, fill_ratio, _) ←
    compile_latex_to_pdf (tailored_content l) filename_stem false;
  evaluate attempt l page_count fill_ratio.

(** [for attempt in attempts: ...] *)
Fixpoint for_attempts (attempts : list nat) (l : locals) : M locals :=
  match attempts with
  | [] => ret l
  | attempt :: rest =>
      '(c, l') ← loop_body attempt l;
      match c with
      | Continue => for_attempts rest l'
      | Break => ret l'
      end
  end.

(** The loop over [range(max_optimization_attempts + 1)]. *)
Definition optimization_loop (l : locals) : M locals :=
  for_attempts (seq 0 (max_optimization_attempts + 1)) l.

End Loop.

(** The [try] block of [tailor_resume]. *)
Definition tailor_try (job_description rag_context : list N) : M payload :=
  cur ← get_current_resume;
  raw_response ←
    query_perplexity (tailor_prompt (content cur) rag_context job_description)
                     tailor_system_prompt;
  tailored ← lift (extract_latex_from_response raw_response (content cur));
  let filename_stem := filename_stem_of (filename cur) in
  l ← optimization_loop filename_stem job_description (MkLocals tailored 0 None);
  '(page_count, fill_ratio, compiled_path) ←
    compile_latex_to_pdf (tailored_content l) filename_stem true;
  match compiled_path with
  | None => raise LibraryError               (* [compiled_path.name] on [None] *)
  | Some name =>
      cur ← get_current_resume;
      ret (MkPayload (filename cur) (file_type cur) (tailored_content l)
                     page_count (round2 fill_ratio)
                     (0 <? adjustment_count l)%nat (adjustment_count l)
                     (adjustment_type l)
                     (lit "/compiled/" ++ name))
  end.

(** [tailor_resume]; [data] is the JSON object of the request. *)
Definition tailor_resume (data : option (gmap (list N) (list N)))
    : state -> response * state :=
  fun st =>
    match data ≫= (fun d => d !! lit "job_description") with
    | None => (BadRequest NoJobDescription, st)
    | Some job_description =>
        match content (current_resume st) with
        | [] => (BadRequest NoResumeUploaded, st)
        | _ :: _ =>
            let rag_context := default [] (rag_file st) in
            match tailor_try job_description rag_context st with
            | (Ok p, st') => (Success p, st')
            | (Raise e, st') => (ServerError e, st')
            end
        end
    end.

End Services.

Arguments current_resume {W} _.
Arguments saved_resume_file {W} _.
Arguments rag_file {W} _.
Arguments compiled_folder {W} _.
Arguments world {W} _.
Arguments trace {W} _.
Arguments MkState {W} _ _ _ _ _ _.
Arguments set_world {W} _ _.
Arguments set_compiled_folder {W} _ _.
Arguments emit {W} _ _.
Arguments save_resume_to_disk {W} _ _.
Arguments upload_file {W} _ _ _.
Arguments ret {W A} _ _.
Arguments raise {W A} _ _.
Arguments bind {W A B} _ _ _.
Arguments lift {W A} _ _.
Arguments print {W} _ _.
Arguments get_current_resume {W} _.
Arguments query_perplexity {W} api _ _ _.
Arguments compile_latex_to_pdf {W} run_pdflatex _ _ _ _.
Arguments shorten_resume {W} api _ _ _ _ _.
Arguments expand_resume {W} api _ _ _ _ _.
Arguments evaluate {W} api _ _ _ _ _ _.
Arguments loop_body {W} api run_pdflatex _ _ _ _ _.
Arguments for_attempts {W} api run_pdflatex _ _ _ _ _.
Arguments optimization_loop {W} api run_pdflatex _ _ _ _.
Arguments tailor_try {W} api run_pdflatex _ _ _ _ _.
Arguments tailor_resume {W} api run_pdflatex _ _ _ _.

End Backend.

(* ===================================================================== *)
(** ** Vocabulary of the statements *)
(* ===================================================================== *)

Module Spec.
Import Str Re Num Layout.

(** [a] occurs in [b]. *)
Definition substring (a b : list N) : Prop := exists p q, b = p ++ a ++ q.

(** Match of a literal word at the head of the subject, ignoring case. *)
Fixpoint ci_startswith (l s : list N) : bool :=
  match l, s with
  | [], _ => true
  | c :: l', x :: s' => ci_eqb c x && ci_startswith l' s'
  | _ :: _, [] => false
  end.

(** The first position at which a literal word occurs, ignoring case. *)
Fixpoint ci_find_from (l s : list N) (i : nat) : option nat :=
  if ci_startswith l s then Some i
  else match s with
       | [] => None
       | _ :: s' => ci_find_from l s' (S i)
       end.

(** The ratio before the clamp, from the scanned extent of the blocks. *)
Definition raw_ratio (page_height : Q) (blocks : list block) : Q :=
  (let '(content_top, content_bottom) := scan_blocks blocks page_height 0 in
   let usable_height := page_height - 36 - content_top in
   if Qltb 0 usable_height
   then (content_bottom - content_top) / usable_height
   else 0.9)%Q.

End Spec.

Module Runs.
Import Str Num Layout Backend Prompts.

(** The direction an iteration announces on standard output. *)
Inductive direction : Set := ACCEPT | SHORTEN | EXPAND.

Definition announced (e : event) : option direction :=
  match e with
  | Print (TooLong _) | Print (TooDense _) => Some SHORTEN
  | Print (TooSparse _) => Some EXPAND
  | Print (Optimized _) => Some ACCEPT
  | _ => None
  end.

Definition directions (tr : list event) : list direction := omap announced tr.

(** The requests sent to the generative service: prompt and system prompt. *)
Definition queries (tr : list event) : list (list N * list N) :=
  omap (fun e => match e with Query p s => Some (p, s) | _ => None end) tr.

(** The compiler runs: file stem and source. *)
Definition renders (tr : list event) : list (list N * list N) :=
  omap (fun e => match e with Pdflatex s t => Some (s, t) | _ => None end) tr.

(** What the renders of the search reported: attempt, page count, fill ratio. *)
Definition checks (tr : list event) : list (nat * nat * Q) :=
  omap (fun e => match e with
                 | Print (CheckLine a pc fr) => Some (a, pc, fr)
                 | _ => None
                 end) tr.

(** One page at most and a fill ratio inside the target band. *)
Definition compliant (page_count : nat) (fill_ratio : Q) : bool :=
  negb (1 <? page_count)%nat
  && negb (Qltb fill_ratio MIN_FILL_RATIO)
  && negb (Qltb MAX_FILL_RATIO fill_ratio).

(** A check line that reports a render outside the constraints. *)
Definition not_compliant (c : nat * nat * Q) : Prop :=
  compliant (snd (fst c)) (snd c) = false.

Definition is_correction (q : list N * list N) : Prop :=
  snd q = shorten_system_prompt \/ snd q = expand_system_prompt.

(** A generative service that always answers, with a reply from which a
    document can be extracted. *)
Definition answers {W} (api : list N -> list N -> W -> result (list N) * W) : Prop :=
  forall prompt system_prompt w,
    exists raw w',
      api prompt system_prompt w = (Ok raw, w')
      /\ forall original, exists tex,
           Extractor.extract_latex_from_response raw original = Ok tex.

(** A compiler that always produces a PDF whose pages can be counted. *)
Definition compiles {W} (run_pdflatex : list N -> list N -> W -> pdflatex_outcome * W)
    : Prop :=
  forall stem tex w,
    exists pdf w' pc,
      run_pdflatex stem tex w = (Exited 0 (Some pdf), w') /\ reader_pages pdf = Ok pc.

(** The events between two states of one run. *)
Definition since {W} (st st' : state W) : list event :=
  drop (length (trace st)) (trace st').

(** The part of the state the services cannot touch. *)
Definition same_store {W} (st st' : state W) : Prop :=
  current_resume st' = current_resume st
  /\ saved_resume_file st' = saved_resume_file st
  /\ rag_file st' = rag_file st.

(** [st'] comes after [st], with the events [d] in between and the folder
    of compiled files untouched. *)
Definition extends {W} (st st' : state W) (d : list event) : Prop :=
  same_store st st'
  /\ compiled_folder st' = compiled_folder st
  /\ trace st' = trace st ++ d.

(** How a correction ends an iteration. *)
Definition corrected_by {W} (ty : adjustment) (l : locals)
    (out : result (list N) * state W) : result (control * locals) * state W :=
  match out with
  | (Ok new_content, st') =>
      (Ok (Continue, MkLocals new_content (adjustment_count l + 1) (Some ty)), st')
  | (Raise e, st') => (Raise e, st')
  end.

(** The state after the check line of an iteration. *)
Definition checked {W} (a pc : nat) (fr : Q) (st : state W) : state W :=
  emit (Print (CheckLine a pc fr)) st.

(** What one EVALUATE step does, read off its result [r] and its events [d]. *)
Definition evaluated (a : nat) (l : locals) (pc : nat) (fr : Q)
    (r : result (control * locals)) (d : list event) : Prop :=
  checks d = [(a, pc, fr)] /\ renders d = []
  /\ match r with
     | Raise _ => True
     | Ok (Continue, l1) =>
         (a < max_optimization_attempts)%nat /\ compliant pc fr = false
         /\ (exists q, queries d = [q] /\ is_correction q)
         /\ adjustment_count l1 = (adjustment_count l + 1)%nat
     | Ok (Break, l1) =>
         l1 = l /\ queries d = []
         /\ (compliant pc fr = true \/ (max_optimization_attempts <= a)%nat)
     end.

End Runs.

(* ===================================================================== *)
(** ** Sample inputs and simulated services *)
(* ===================================================================== *)

Module Samples.
Import Str Prompts.

(** A well-formed document with white space around it. *)
Definition padded_document : list N :=
  lit " \documentclass{article}\begin{document}Hi\end{document}" ++ nl.

Definition plain_document : list N :=
  lit "\documentclass{article}\begin{document}Hi\end{document}".

(** A reply that holds only a body, followed by a remark. *)
Definition body_with_remark : list N :=
  lit "\begin{document}Hi\end{document} Hope this helps!".

Definition reference_document : list N :=
  lit "\documentclass{article}" ++ nl ++ lit "\begin{document}Old\end{document}".

(** A reference source whose preamble is a comment line. *)
Definition headless_reference : list N :=
  lit "% resume" ++ nl ++ lit "\begin{document}Old\end{document}".

Definition plain_body : list N := lit "\begin{document}Hi\end{document}".

(** A reply without any document in it. *)
Definition refusal : list N :=
  lit "I am sorry, I cannot do that. ```python" ++ nl ++ lit "print(1)" ++ nl ++ lit "```".

End Samples.

Module Sim.
Import Str Layout Backend Samples.
Local Open Scope Q_scope.

(** A PDF of [pages] pages whose first page is filled to [percent] per cent. *)
Definition sim_pdf (pages : nat) (percent : Z) : pdf_file :=
  MkPdf (Ok pages) (Ok [MkPage 136 (Ok [MkBlock 0 0 0 (percent # 1) [] 0 0])]).

(** A PDF without pages. *)
Definition empty_pdf : pdf_file := MkPdf (Ok 0%nat) (Ok []).

(** A generative service that always answers [reply]. *)
Definition api_const (reply : list N) (_ _ : list N) (w : unit)
    : result (list N) * unit := (Ok reply, w).

(** A compiler that always produces [pdf]. *)
Definition pdflatex_const (pdf : pdf_file) (_ _ : list N) (w : unit)
    : pdflatex_outcome * unit := (Exited 0 (Some pdf), w).

Definition sim_system_prompt : list N := lit "system".
Definition sim_prompt (resume rag job : list N) : list N := resume ++ rag ++ job.

Definition job : list N := lit "Engineer".

Definition request : option (gmap (list N) (list N)) :=
  Some {[ lit "job_description" := job ]}.

(** The state of a fresh server. *)
Definition fresh : state unit := MkState (MkResume [] [] []) None None ∅ tt [].

(** The state after the upload of [reference_document] as [cv.tex]. *)
Definition uploaded : state unit :=
  snd (upload_file (fun name => name) (Some (lit "cv.tex", Ok reference_document)) fresh).

Definition start : locals := MkLocals plain_document 0 None.

(** A compiler that works through a script of (pages, per cent filled) and
    fails when the script is used up; the generative service beside it. *)
Definition pdflatex_scripted (_ _ : list N) (w : list (nat * Z))
    : pdflatex_outcome * list (nat * Z) :=
  match w with
  | (pages, percent) :: w' => (Exited 0 (Some (sim_pdf pages percent)), w')
  | [] => (TimeoutExpired, [])
  end.

Definition api_scripted (_ _ : list N) (w : list (nat * Z))
    : result (list N) * list (nat * Z) := (Ok plain_document, w).

Definition uploaded_with (script : list (nat * Z)) : state (list (nat * Z)) :=
  MkState (current_resume uploaded) (saved_resume_file uploaded) None ∅ script [].

(** A text block across a letter page, from [top] to [bottom]. *)
Definition blk (top bottom : Q) : block := MkBlock 36 top 576 bottom [] 0 0.

(** A run whose every render shows two pages. *)
Definition two_page_run : response * state unit :=
  tailor_resume (api_const plain_document) (pdflatex_const (sim_pdf 2 99))
                sim_system_prompt sim_prompt request uploaded.


End Sim.

(* ===================================================================== *)
(** ** The other handlers: stored resume, context file, service client *)
(* ===================================================================== *)

Module Routes.
Import Str Backend.

(** The value [current_resume] has when the module is loaded. *)
Definition empty_resume : resume := MkResume [] [] [].

(** A restart of the server process: the global dict is initial again,
    the files stay as they are. *)
Definition restart {W : Type} (st : state W) : state W :=
  MkState empty_resume (saved_resume_file st) (rag_file st)
          (compiled_folder st) (world st) (trace st).

(** [load_saved_resume]; [SAVED_RESUME_FILE.name] is [main.tex]. A file
    that exists is taken to be readable. *)
Definition load_saved_resume {W : Type} (st : state W) : bool * state W :=
  match saved_resume_file st with
  | Some content =>
      (true,
       MkState (MkResume content (lit "main.tex") (lit "tex"))
               (saved_resume_file st) (rag_file st)
               (compiled_folder st) (world st) (trace st))
  | None => (false, st)
  end.

(** The start of the server in [__main__]. *)
Definition startup {W : Type} (st : state W) : state W :=
  snd (load_saved_resume (restart st)).

(** [load_rag_context] *)
Definition load_rag_context {W : Type} (st : state W) : list N :=
  match rag_file st with
  | Some text => text
  | None => []
  end.




(** [content[:500] + "..." if len(content) > 500 else content] *)
Definition preview (content : list N) : list N :=
  if (500 <? length content)%nat
  then slice_to 500 content ++ lit "..."
  else content.

Inductive current_resume_response : Set :=
| NotLoaded                                               (** [{"loaded": false}] *)
| Loaded (filename file_type preview : list N) (persisted : bool).

(** [get_current_resume], the handler of [/current-resume]. *)
Definition get_current_resume {W : Type} (st : state W) : current_resume_response :=
  match content (current_resume st) with
  | [] => NotLoaded
  | _ :: _ =>
      Loaded (filename (current_resume st)) (file_type (current_resume st))
             (preview (content (current_resume st)))
             (bool_decide (is_Some (saved_resume_file st)))
  end.

End Routes.

Module Perplexity.
Import Str.

(** A JSON value as [response.json()] returns it; an object is the list
    of its members. *)
#[warnings="-register-all"] Inductive json : Set :=
| JNull
| JBool (b : bool)
| JNumber (q : Q)
| JString (s : list N)
| JArray (items : list json)
| JObject (members : list (list N * json)).

Fixpoint member (key : list N) (members : list (list N * json)) : option json :=
  match members with
  | [] => None
  | (k, v) :: rest => if bool_decide (k = key) then Some v else member key rest
  end.

(** [value[key]] for a string key: a [KeyError] on an object without the
    key, a [TypeError] on every other value. *)
Definition subscript (key : list N) (value : json) : result json :=
  match value with
  | JObject members =>
      match member key members with
      | Some v => Ok v
      | None => Raise LibraryError
      end
  | _ => Raise LibraryError
  end.

(** [value[0]]: the first item of a list, the first character of a
    string; an object of JSON has no key [0]. *)
Definition subscript_0 (value : json) : result json :=
  match value with
  | JArray (item :: _) => Ok item
  | JString (c :: _) => Ok (JString [c])
  | _ => Raise LibraryError
  end.

(** What [requests.post] returns: [status_code], [text] and [json()]. *)
Record http_response : Set := MkHttpResponse {
  status_code : Z;
  text : list N;
  json_body : result json
}.

(** [response.json()['choices'][0]['message']['content']]. The callers
    slice and strip the value at once, so one that is not a string ends
    the request like an exception raised here. *)
Definition reply_content (response : http_response) : result (list N) :=
  match json_body response with
  | Raise e => Raise e
  | Ok body =>
      match subscript (lit "choices") body with
      | Raise e => Raise e
      | Ok choices =>
          match subscript_0 choices with
          | Raise e => Raise e
          | Ok choice =>
              match subscript (lit "message") choice with
              | Raise e => Raise e
              | Ok message =>
                  match subscript (lit "content") message with
                  | Raise e => Raise e
                  | Ok (JString s) => Ok s
                  | Ok _ => Raise LibraryError
                  end
              end
          end
      end
  end.

Section Client.

Variable W : Type.

(** The POST to [https://api.perplexity.ai/chat/completions]: the bearer
    key, the system and the user message; model [sonar], temperature 0.2,
    4096 tokens and the timeout of 120 s are fixed. It may raise. *)
Variable post : list N -> list N -> list N -> W -> result http_response * W.

(** The body of [query_perplexity], with the value of the environment
    variable [PERPLEXITY_API_KEY]. *)
Definition query_perplexity (api_key : option (list N))
    (prompt system_prompt : list N) (w : W) : result (list N) * W :=
  match api_key with
  | None | Some [] => (Raise ServiceError, w)
  | Some (c :: key) =>
      match post (c :: key) system_prompt prompt w with
      | (Raise e, w') => (Raise e, w')
      | (Ok response, w') =>
          if negb (status_code response =? 200)%Z
          then (Raise ServiceError, w')
          else (reply_content response, w')
      end
  end.

End Client.

Arguments query_perplexity {W} post api_key prompt system_prompt w.

End Perplexity.

Module Policy.
Import Str Num Layout Backend Prompts Runs.
Local Open Scope Q_scope.

(** The correction the loop asks for after a render outside the
    constraints. *)
Definition correction_for (page_count : nat) (fill_ratio : Q) : adjustment :=
  if (1 <? page_count)%nat then shortened
  else if Qltb fill_ratio MIN_FILL_RATIO then expanded
  else shortened.

Definition system_prompt_of (ty : adjustment) : list N :=
  match ty with
  | shortened => shorten_system_prompt
  | expanded => expand_system_prompt
  end.

Definition prompt_of (ty : adjustment)
    (latex_content job_description : list N) (fill_ratio : Q) : list N :=
  match ty with
  | shortened => shorten_prompt latex_content job_description fill_ratio
  | expanded => expand_prompt latex_content job_description fill_ratio
  end.

(** The correction a check line leads to. *)
Definition correction_of (c : nat * nat * Q) : adjustment :=
  correction_for (snd (fst c)) (snd c).

Section Correction.
Context {W : Type}.
Variable api : list N -> list N -> W -> result (list N) * W.

(** The request that carries out a correction. *)
Definition request_correction (ty : adjustment) :
    list N -> list N -> list N -> Q -> M W (list N) :=
  match ty with
  | shortened => shorten_resume api
  | expanded => expand_resume api
  end.

End Correction.

(** What one pass through the loop body does after its render has run:
    the result [r] of the pass and the events [d] that follow the compiler
    run, for the reference source [original]. *)
Definition iteration (original job_description : list N) (a : nat) (l : locals)
    (r : result (control * locals)) (d : list event) : Prop :=
  renders d = []
  /\ match r with
     | Ok (Continue, l1) =>
         exists pc fr raw new,
           checks d = [(a, pc, fr)] /\ compliant pc fr = false
           /\ (a < max_optimization_attempts)%nat
           /\ queries d =
              [(prompt_of (correction_for pc fr) (tailored_content l) job_description fr,
                system_prompt_of (correction_for pc fr))]
           /\ Extractor.extract_latex_from_response raw original = Ok new
           /\ l1 = MkLocals new (adjustment_count l + 1) (Some (correction_for pc fr))
     | Ok (Break, l1) =>
         exists pc fr,
           checks d = [(a, pc, fr)] /\ queries d = [] /\ l1 = l
           /\ (compliant pc fr = true \/ (max_optimization_attempts <= a)%nat)
     | Raise _ =>
         (length (queries d) <= 1)%nat
         /\ ((max_optimization_attempts <= a)%nat -> queries d = [])
     end.

(** A text in the shape the extractor hands out: it holds a marker and
    nothing follows its first end-of-document marker. *)
Definition closed_document (t : list N) : Prop :=
  Extractor.has_marker t = true /\ Extractor.cut_after_end t = t.

(** The correction requests that follow the renders [rs] (file stem and
    source) whose check lines are [cs]: each quotes the source just
    compiled and the fill ratio just measured. *)
Definition corrections_for (job_description : list N)
    (rs : list (list N * list N)) (cs : list (nat * nat * Q))
    : list (list N * list N) :=
  zip_with (fun r c => (prompt_of (correction_of c) (snd r) job_description (snd c),
                        system_prompt_of (correction_of c)))
           rs cs.

(** The correction recorded after the check lines [front], from [ty]. *)
Definition last_correction (front : list (nat * nat * Q)) (ty : option adjustment)
    : option adjustment :=
  List.last (List.map (fun c => Some (correction_of c)) front) ty.

End Policy.

Module MoreSamples.
Import Str Layout Prompts Backend Sim Samples Perplexity.
Local Open Scope Q_scope.

(** A reply in the usual shape: a remark, the document in a fence, a remark. *)
Definition fenced_reply : list N :=
  lit "Here is your resume:" ++ nl ++ lit "```latex" ++ nl ++ plain_document
    ++ nl ++ lit "```" ++ nl ++ lit "Good luck!".

(** The body of a well-formed answer of the service with [reply] in it. *)
Definition chat_completion (reply : list N) : json :=
  JObject [ (lit "id", JString (lit "1"));
            (lit "choices",
             JArray [ JObject [ (lit "index", JNumber 0);
                                (lit "message",
                                 JObject [ (lit "role", JString (lit "assistant"));
                                           (lit "content", JString reply) ]) ] ]) ].

(** An HTTP client that always answers with [status] and [body]. *)
Definition post_const (status : Z) (body : json) (_ _ _ : list N) (w : nat)
    : result http_response * nat :=
  (Ok (MkHttpResponse status [] (Ok body)), S w).


(** A PDF of one page without any text block. *)
Definition blank_pdf : pdf_file := MkPdf (Ok 1%nat) (Ok [MkPage 792 (Ok [])]).

(** Renders of two pages, of one sparse page, then of one page in the band. *)
Definition script : list (nat * Z) :=
  [(2%nat, 99%Z); (1%nat, 50%Z); (1%nat, 92%Z); (1%nat, 92%Z)].


(** A server with the resume uploaded, in a world that counts HTTP requests. *)
Definition online : state nat :=
  MkState (current_resume uploaded) (saved_resume_file uploaded) None ∅ 0%nat [].

Definition pdflatex_online (_ _ : list N) (w : nat) : pdflatex_outcome * nat :=
  (Exited 0 (Some (sim_pdf 1 92)), w).

Definition api_key : list N := lit "pplx-0000".

End MoreSamples.

(* ===================================================================== *)
(** ** Facts about strings *)
(* ===================================================================== *)

Module StrFacts.
Import Str Spec.

Lemma startswith_true p s : startswith p s = true <-> exists q, s = p ++ q.
Proof.
  revert s; induction p as [|a p IH]; intros s; simpl.
  - split; [intros _; now exists s | trivial].
  - destruct s as [|b s].
    + split; [discriminate | intros [q Hq]; discriminate].
    + rewrite andb_true_iff, N.eqb_eq, IH. split.
      * intros [-> [q ->]]. now exists q.
      * intros [q Hq]. injection Hq as -> ->. split; [reflexivity | now exists q].
Qed.

Lemma startswith_app p q : startswith p (p ++ q) = true.
Proof. apply startswith_true. now exists q. Qed.

Lemma find_from_Some sub s i j :
  find_from sub s i = Some j ->
  exists p q, s = p ++ sub ++ q /\ j = (i + length p)%nat.
Proof.
  revert i; induction s as [|x s IH]; intros i; simpl.
  - destruct (startswith sub []) eqn:E; [|discriminate].
    intros [= <-]. apply startswith_true in E as [q ->].
    exists [], q. split; [reflexivity | simpl; lia].
  - destruct (startswith sub (x :: s)) eqn:E.
    + intros [= <-]. apply startswith_true in E as [q ->].
      exists [], q. split; [reflexivity | simpl; lia].
    + intros H. apply IH in H as (p & q & -> & ->).
      exists (x :: p), q. split; [reflexivity | simpl; lia].
Qed.

Lemma find_from_None sub s i :
  find_from sub s i = None -> ~ substring sub s.
Proof.
  revert i; induction s as [|x s IH]; intros i; simpl.
  - destruct (startswith sub []) eqn:E; [discriminate|]. intros _ (p & q & H).
    destruct p; [|discriminate]. simpl in H.
    assert (startswith sub [] = true) by (apply startswith_true; now exists q).
    congruence.
  - destruct (startswith sub (x :: s)) eqn:E; [discriminate|].
    intros H (p & q & Hs). destruct p as [|y p]; simpl in Hs.
    + assert (startswith sub (x :: s) = true) by (apply startswith_true; now exists q).
      congruence.
    + injection Hs as -> ->. apply (IH _ H). now exists p, q.
Qed.

Lemma contains_true sub s : contains sub s = true <-> substring sub s.
Proof.
  unfold contains. destruct (find_from sub s 0) eqn:E.
  - split; [intros _ | trivial].
    apply find_from_Some in E as (p & q & -> & _). now exists p, q.
  - split; [discriminate | intros H]. now apply find_from_None in E.
Qed.

Lemma contains_false sub s : contains sub s = false <-> ~ substring sub s.
Proof. rewrite <- contains_true. now destruct (contains sub s). Qed.

Lemma substring_refl a : substring a a.
Proof. exists [], []. now rewrite app_nil_r. Qed.

Lemma substring_trans a b c : substring a b -> substring b c -> substring a c.
Proof.
  intros (p & q & ->) (p' & q' & ->). exists (p' ++ p), (q ++ q').
  now rewrite <- !app_assoc.
Qed.

Lemma substring_app_r a p b : substring a b -> substring a (p ++ b).
Proof. intros (p' & q & ->). exists (p ++ p'), q. now rewrite <- app_assoc. Qed.

Lemma substring_app_l a b q : substring a b -> substring a (b ++ q).
Proof. intros (p & q' & ->). exists p, (q' ++ q). now rewrite <- !app_assoc. Qed.

Lemma substring_take a n s : substring a (take n s) -> substring a s.
Proof.
  intros H. rewrite <- (take_drop n s). now apply substring_app_l.
Qed.

Lemma substring_drop a n s : substring a (drop n s) -> substring a s.
Proof.
  intros H. rewrite <- (take_drop n s). now apply substring_app_r.
Qed.

Lemma contains_mono sub a b :
  substring a b -> contains sub a = true -> contains sub b = true.
Proof. rewrite !contains_true. intros H1 H2. eapply substring_trans; eauto. Qed.

Lemma contains_absent sub a b :
  substring a b -> contains sub b = false -> contains sub a = false.
Proof.
  intros H Hb. destruct (contains sub a) eqn:E; [|reflexivity].
  rewrite (contains_mono _ _ _ H E) in Hb. discriminate.
Qed.

(** *** [strip] *)

Lemma lstrip_suffix s : exists w, s = w ++ lstrip s.
Proof.
  induction s as [|c s [w IH]]; simpl.
  - now exists [].
  - destruct (isspace c).
    + exists (c :: w). simpl. now f_equal.
    + now exists [].
Qed.

Lemma rstrip_prefix s : exists w, s = rstrip s ++ w.
Proof.
  unfold rstrip. destruct (lstrip_suffix (rev s)) as [w Hw].
  exists (rev w). rewrite <- rev_app_distr, <- Hw. now rewrite rev_involutive.
Qed.

Lemma strip_substring s : substring (strip s) s.
Proof.
  unfold strip. destruct (lstrip_suffix s) as [w Hw].
  destruct (rstrip_prefix (lstrip s)) as [w' Hw'].
  exists w, w'. now rewrite <- Hw'.
Qed.

(** A word that neither begins nor ends with white space survives [strip]. *)
Lemma lstrip_keeps a m p q :
  isspace a = false ->
  exists p', lstrip (p ++ (a :: m) ++ q) = p' ++ (a :: m) ++ q.
Proof.
  intros Ha. induction p as [|c p [p' IH]]; simpl.
  - rewrite Ha. now exists [].
  - destruct (isspace c).
    + now exists p'.
    + now exists (c :: p).
Qed.

Lemma rstrip_keeps m z p q :
  isspace z = false ->
  exists q', rstrip (p ++ (m ++ [z]) ++ q) = p ++ (m ++ [z]) ++ q'.
Proof.
  intros Hz. unfold rstrip.
  rewrite !rev_app_distr. simpl. rewrite <- !app_assoc. simpl.
  destruct (lstrip_keeps z (rev m) (rev q) (rev p) Hz) as [q' Hq'].
  simpl in Hq'. rewrite Hq'. exists (rev q').
  rewrite !rev_app_distr. simpl. rewrite !rev_app_distr, !rev_involutive.
  simpl. now rewrite <- !app_assoc.
Qed.

Lemma strip_keeps a m z s :
  isspace a = false -> isspace z = false ->
  substring ((a :: m) ++ [z]) s -> substring ((a :: m) ++ [z]) (strip s).
Proof.
  intros Ha Hz (p & q & ->). unfold strip.
  destruct (lstrip_keeps a (m ++ [z]) p q Ha) as [p' Hp]. simpl in Hp |- *.
  rewrite Hp.
  destruct (rstrip_keeps (a :: m) z p' q Hz) as [q' Hq]. simpl in Hq.
  rewrite Hq. now exists p', q'.
Qed.

(** *** [find] and slices *)

Lemma slice_from_find sub s :
  contains sub s = true ->
  exists p, s = p ++ slice_from (find sub s) s
            /\ startswith sub (slice_from (find sub s) s) = true.
Proof.
  unfold contains, find. destruct (find_from sub s 0) as [j|] eqn:E; [|discriminate].
  intros _. apply find_from_Some in E as (p & q & -> & ->). simpl.
  exists p. unfold slice_from.
  destruct (Z.ltb_spec (Z.of_nat (length p)) 0) as [H|_]; [lia|].
  rewrite Nat2Z.id, drop_app_length. split; [reflexivity | apply startswith_app].
Qed.

Lemma slice_from_0 s : slice_from 0 s = s.
Proof. reflexivity. Qed.

Lemma find_startswith sub s : startswith sub s = true -> find sub s = 0%Z.
Proof.
  intros H. unfold find. destruct s; simpl; now rewrite H.
Qed.

Lemma contains_startswith sub s : startswith sub s = true -> contains sub s = true.
Proof.
  intros H. unfold contains. destruct s; simpl; now rewrite H.
Qed.

End StrFacts.

(* ===================================================================== *)
(** ** Facts about the matcher *)
(* ===================================================================== *)

Module ReFacts.
Import Str Re Spec StrFacts.

(** The equations of [match_here]. *)
Lemma match_here_lit c re x s :
  match_here (Lit c :: re) (x :: s) =
  if ci_eqb c x
  then match match_here re s with Some (g, n) => Some (g, S n) | None => None end
  else None.
Proof. reflexivity. Qed.

Lemma match_here_star_nil re : match_here (SpaceStar :: re) [] = match_here re [].
Proof. reflexivity. Qed.

Lemma match_here_star_cons re x s :
  match_here (SpaceStar :: re) (x :: s) =
  if isspace x
  then match match_here (SpaceStar :: re) s with
       | Some (g, n) => Some (g, S n)
       | None => match_here re (x :: s)
       end
  else match_here re (x :: s).
Proof. reflexivity. Qed.

Lemma match_here_lazy re s :
  match_here (LazyAny :: re) s =
  match match_here re s with
  | Some (_, n) => Some ([], n)
  | None =>
      match s with
      | x :: s' =>
          match match_here (LazyAny :: re) s' with
          | Some (g, n) => Some (x :: g, S n)
          | None => None
          end
      | [] => None
      end
  end.
Proof. destruct s; reflexivity. Qed.

(** A pattern of literals matches where the word occurs, ignoring case. *)
Lemma match_lits l s :
  match_here (List.map Lit l) s =
  if ci_startswith l s then Some ([], length l) else None.
Proof.
  revert s; induction l as [|c l IH]; intros s; [reflexivity|].
  destruct s as [|x s]; [reflexivity|].
  cbn [List.map]. rewrite match_here_lit. cbn [ci_startswith length].
  destruct (ci_eqb c x); [|reflexivity]. rewrite IH.
  now destruct (ci_startswith l s).
Qed.

Lemma search_lits l s i :
  search_from (List.map Lit l) s i =
  match ci_find_from l s i with
  | Some j => Some (MkMatch j (j + length l) [])
  | None => None
  end.
Proof.
  revert i; induction s as [|x s IH]; intros i; cbn [search_from ci_find_from];
    rewrite match_lits.
  - now destruct (ci_startswith l []).
  - destruct (ci_startswith l (x :: s)); [reflexivity | apply IH].
Qed.

(** The group of a match is a piece of the subject. *)
Lemma lazy_group_prefix re s g n :
  match_here (LazyAny :: re) s = Some (g, n) -> exists b, s = g ++ b.
Proof.
  revert g n; induction s as [|x s IH]; intros g n; rewrite match_here_lazy.
  - destruct (match_here re []) as [[? ?]|]; [|discriminate].
    intros [= <- _]. now exists [].
  - destruct (match_here re (x :: s)) as [[? ?]|].
    + intros [= <- _]. now exists (x :: s).
    + destruct (match_here (LazyAny :: re) s) as [[g' n']|] eqn:E; [|discriminate].
      intros [= <- _]. destruct (IH _ _ eq_refl) as [b ->]. now exists b.
Qed.

Lemma match_group_substring re s g n :
  match_here re s = Some (g, n) -> substring g s.
Proof.
  revert s g n; induction re as [|a re IH]; intros s g n.
  - intros [= <- _]. now exists [], s.
  - destruct a.
    + destruct s as [|x s]; [discriminate|]. rewrite match_here_lit.
      destruct (ci_eqb c x); [|discriminate].
      destruct (match_here re s) as [[g' n']|] eqn:E; [|discriminate].
      intros [= <- _]. apply (substring_app_r _ [x]). eauto.
    + revert g n; induction s as [|x s IHs]; intros g n.
      * rewrite match_here_star_nil. eauto.
      * rewrite match_here_star_cons. destruct (isspace x); [|eauto].
        destruct (match_here (SpaceStar :: re) s) as [[g' n']|] eqn:E; [|eauto].
        intros [= <- _]. apply (substring_app_r _ [x]). eauto.
    + intros H. apply lazy_group_prefix in H as [b ->].
      exists [], b. reflexivity.
Qed.

Lemma search_group_substring re s i m :
  search_from re s i = Some m -> substring (m_group1 m) s.
Proof.
  revert i; induction s as [|x s IH]; intros i; cbn [search_from].
  - destruct (match_here re []) as [[g n]|] eqn:E; [|discriminate].
    intros [= <-]. simpl. eapply match_group_substring; eauto.
  - destruct (match_here re (x :: s)) as [[g n]|] eqn:E.
    + intros [= <-]. simpl. eapply match_group_substring; eauto.
    + intros H. apply (substring_app_r _ [x]). eauto.
Qed.

(** Every fence pattern opens with three backticks. *)
Lemma ci_eqb_backtick x : ci_eqb 96 x = true -> x = 96%N.
Proof.
  unfold ci_eqb, lower.
  change ((65 <=? 96)%N && (96 <=? 90)%N) with false. cbv iota.
  destruct ((65 <=? x)%N && (x <=? 90)%N) eqn:E; intros H%N.eqb_eq; [|congruence].
  apply andb_true_iff in E as [H1 H2].
  apply N.leb_le in H1, H2. lia.
Qed.

Lemma match_fence_head re s r :
  match_here (Lit 96 :: Lit 96 :: Lit 96 :: re) s = Some r ->
  startswith [96; 96; 96]%N s = true.
Proof.
  destruct s as [|a [|b [|c s]]]; try discriminate; rewrite !match_here_lit.
  - destruct (ci_eqb 96 a); discriminate.
  - destruct (ci_eqb 96 a); [|discriminate]. simpl.
    destruct (ci_eqb 96 b); discriminate.
  - destruct (ci_eqb 96 a) eqn:Ha; [|discriminate].
    destruct (ci_eqb 96 b) eqn:Hb; [|discriminate].
    destruct (ci_eqb 96 c) eqn:Hc; [|discriminate].
    apply ci_eqb_backtick in Ha as ->, Hb as ->, Hc as ->. reflexivity.
Qed.

Lemma search_fence_head re s i m :
  search_from (Lit 96 :: Lit 96 :: Lit 96 :: re) s i = Some m ->
  contains [96; 96; 96]%N s = true.
Proof.
  revert i; induction s as [|x s IH]; intros i; cbn [search_from].
  - destruct (match_here _ []) eqn:E; [|discriminate].
    intros _. apply contains_startswith. eapply match_fence_head; eauto.
  - destruct (match_here _ (x :: s)) eqn:E.
    + intros _. apply contains_startswith. eapply match_fence_head; eauto.
    + intros H. apply contains_true. apply (substring_app_r _ [x]).
      apply contains_true. eauto.
Qed.

(** Splitting a search for a literal word over a concatenation. *)
Lemma ci_startswith_app l u b :
  (length l <= length u)%nat -> ci_startswith l (u ++ b) = ci_startswith l u.
Proof.
  revert u; induction l as [|c l IH]; intros u Hl; [reflexivity|].
  destruct u as [|x u]; simpl in *; [lia|].
  rewrite IH by lia. reflexivity.
Qed.

Lemma ci_startswith_straddle c l u x b :
  Forall (fun c' => ci_eqb c' x = false) l ->
  u <> [] -> ci_startswith (c :: l) (u ++ x :: b) = true ->
  (length (c :: l) <= length u)%nat.
Proof.
  intros Hall Hu. destruct u as [|y u]; [congruence|]. clear Hu.
  simpl. rewrite andb_true_iff. intros [_ H].
  revert u H; induction Hall as [|c' l Hc Hall IH]; intros u H; simpl in *; [lia|].
  destruct u as [|z u]; simpl in *.
  - rewrite Hc in H. discriminate.
  - apply andb_true_iff in H as [_ H]. apply IH in H. lia.
Qed.

Lemma ci_find_from_app c l p x b i :
  Forall (fun c' => ci_eqb c' x = false) l ->
  ci_find_from (c :: l) p i = None ->
  ci_find_from (c :: l) (p ++ x :: b) i =
  ci_find_from (c :: l) (x :: b) (i + length p).
Proof.
  intros Hall. revert i; induction p as [|y p IH]; intros i.
  - intros _. simpl. now rewrite Nat.add_0_r.
  - intros H. cbn [ci_find_from] in H.
    destruct (ci_startswith (c :: l) (y :: p)) eqn:E; [discriminate|].
    change ((y :: p) ++ x :: b) with (y :: (p ++ x :: b)).
    replace (i + length (y :: p))%nat with (S i + length p)%nat by (simpl; lia).
    rewrite <- IH by exact H.
    cbn [ci_find_from].
    destruct (ci_startswith (c :: l) (y :: p ++ x :: b)) eqn:E'.
    + exfalso. change (y :: p ++ x :: b) with ((y :: p) ++ x :: b) in E'.
      pose proof (ci_startswith_straddle c l (y :: p) x b Hall ltac:(discriminate) E') as Hlen.
      rewrite ci_startswith_app in E' by exact Hlen. congruence.
    + reflexivity.
Qed.

End ReFacts.

(* ===================================================================== *)
(** ** Properties of the content extractor *)
(* ===================================================================== *)

Module ExtractorFacts.
Import Str Re Spec StrFacts ReFacts Extractor.

Lemma fence_patterns_head :
  Forall (fun p => exists re, p = Lit 96 :: Lit 96 :: Lit 96 :: re) fence_patterns.
Proof. repeat constructor; eexists; reflexivity. Qed.

(** Without a fence in the text the loop over the patterns changes nothing. *)
Lemma strip_fences_no_fence ps t :
  Forall (fun p => exists re, p = Lit 96 :: Lit 96 :: Lit 96 :: re) ps ->
  contains FENCE t = false -> strip_fences ps t = t.
Proof.
  intros Hps Ht. induction Hps as [|p ps [re ->] _ IH]; [reflexivity|].
  cbn [strip_fences]. unfold search.
  destruct (search_from _ t 0) as [m|] eqn:E; [|exact IH].
  apply search_fence_head in E. change [96; 96; 96]%N with FENCE in E. congruence.
Qed.

(** The loop returns the text itself or a piece of it that holds a marker. *)
Lemma strip_fences_cases ps t :
  strip_fences ps t = t
  \/ has_marker (strip_fences ps t) = true /\ substring (strip_fences ps t) t.
Proof.
  induction ps as [|p ps IH]; [now left|]. cbn [strip_fences].
  destruct (search p t) as [m|] eqn:E; [|exact IH].
  destruct (has_marker (strip (m_group1 m))) eqn:Hm; [|exact IH].
  right. split; [exact Hm|].
  eapply substring_trans; [apply strip_substring|].
  eapply search_group_substring; exact E.
Qed.

Lemma strip_fences_substring ps t : substring (strip_fences ps t) t.
Proof.
  destruct (strip_fences_cases ps t) as [-> | [_ H]]; [apply substring_refl | exact H].
Qed.

(** The cut in terms of the first occurrence of the end marker. *)
Lemma cut_after_end_find t :
  cut_after_end t =
  match ci_find_from END_DOCUMENT t 0 with
  | Some j => take (j + length END_DOCUMENT) t
  | None => t
  end.
Proof.
  unfold cut_after_end, search, end_doc_pattern, lits.
  change (lit "\end{document}") with END_DOCUMENT.
  rewrite search_lits. now destruct (ci_find_from END_DOCUMENT t 0).
Qed.

Lemma cut_after_end_substring t : substring (cut_after_end t) t.
Proof.
  unfold cut_after_end. destruct (search end_doc_pattern t).
  - exists [], (drop (m_end r) t). simpl. unfold slice_to. now rewrite take_drop.
  - apply substring_refl.
Qed.

Lemma ci_find_from_shift l s i k :
  ci_find_from l s (i + k) = (fun j => (j + k)%nat) <$> ci_find_from l s i.
Proof.
  revert i; induction s as [|x s IH]; intros i; cbn [ci_find_from].
  - now destruct (ci_startswith l []).
  - destruct (ci_startswith l (x :: s)); [reflexivity|]. apply (IH (S i)).
Qed.

Lemma ci_find_from_ge l s i j : ci_find_from l s i = Some j -> (i <= j)%nat.
Proof.
  revert i; induction s as [|x s IH]; intros i; cbn [ci_find_from].
  - destruct (ci_startswith l []); [intros [= <-]; lia | discriminate].
  - destruct (ci_startswith l (x :: s)); [intros [= <-]; lia|].
    intros H%IH. lia.
Qed.

(** No letter of the end marker after its backslash matches a backslash. *)
Lemma end_marker_tail :
  Forall (fun c => ci_eqb c 92 = false) (List.tl END_DOCUMENT).
Proof. repeat constructor. Qed.

(** The cut passes over a prefix that holds no end marker, when what
    follows begins with a backslash. *)
Lemma cut_after_end_app p b :
  ci_find_from END_DOCUMENT p 0 = None ->
  cut_after_end (p ++ 92%N :: b) = p ++ cut_after_end (92%N :: b).
Proof.
  intros Hp. rewrite !cut_after_end_find.
  change END_DOCUMENT with (92%N :: List.tl END_DOCUMENT) at 1.
  rewrite (ci_find_from_app _ _ _ _ _ _ end_marker_tail)
    by exact Hp.
  change (92%N :: List.tl END_DOCUMENT) with END_DOCUMENT.
  rewrite ci_find_from_shift. set (n := length END_DOCUMENT).
  destruct (ci_find_from END_DOCUMENT (92%N :: b) 0) as [j|];
    cbn [fmap option_fmap option_map]; [|reflexivity].
  replace (j + length p + n)%nat with (length p + (j + n))%nat by lia.
  now rewrite take_app_add.
Qed.

(** The cut keeps a leading [\begin{document}]. *)
Lemma cut_after_end_begin rest :
  exists rest', cut_after_end (BEGIN_DOCUMENT ++ rest) = BEGIN_DOCUMENT ++ rest'.
Proof.
  rewrite cut_after_end_find.
  assert (E : ci_find_from END_DOCUMENT (BEGIN_DOCUMENT ++ rest) 0
              = ci_find_from END_DOCUMENT rest (length BEGIN_DOCUMENT))
    by reflexivity.
  rewrite E. destruct (ci_find_from END_DOCUMENT rest _) as [j|] eqn:Ej.
  - apply ci_find_from_ge in Ej.
    replace (j + length END_DOCUMENT)%nat
      with (length BEGIN_DOCUMENT + (j - length BEGIN_DOCUMENT + length END_DOCUMENT))%nat
      by lia.
    rewrite take_app_add. eauto.
  - eauto.
Qed.

Lemma begin_marker_shape :
  BEGIN_DOCUMENT = (92%N :: lit "begin{document") ++ [125%N].
Proof. reflexivity. Qed.

End ExtractorFacts.

Module ExtractorProps.
Import Str Re Spec StrFacts ReFacts Extractor ExtractorFacts.

Lemma search_end_none t :
  search end_doc_pattern t = None -> ci_find_from END_DOCUMENT t 0 = None.
Proof.
  unfold search, end_doc_pattern, lits.
  change (lit "\end{document}") with END_DOCUMENT. rewrite search_lits.
  now destruct (ci_find_from END_DOCUMENT t 0).
Qed.

Lemma validated text :
  has_marker text = true ->
  (if negb (contains DOCUMENTCLASS text) && negb (contains BEGIN_DOCUMENT text)
   then Raise ExtractionError else Ok text) = Ok text.
Proof.
  unfold has_marker. intros H.
  destruct (contains DOCUMENTCLASS text), (contains BEGIN_DOCUMENT text);
    try reflexivity; discriminate.
Qed.

(** C6, as amended. A reply whose trimmed text begins with [\documentclass],
    holds no code fence and ends with the first end-of-document marker found
    in it (letter case ignored) is returned with its surrounding white space
    trimmed, whatever the reference source is. *)
Theorem C6_extract_returns_trimmed_document (reply ref : list N) :
  startswith DOCUMENTCLASS (strip reply) = true ->
  contains FENCE reply = false ->
  (exists m, search end_doc_pattern (strip reply) = Some m
             /\ m_end m = length (strip reply)) ->
  extract_latex_from_response reply ref = Ok (strip reply).
Proof.
  intros Hstart Hfence (m & Hm & Hend).
  unfold extract_latex_from_response.
  rewrite (strip_fences_no_fence _ _ fence_patterns_head)
    by (eapply contains_absent; [apply strip_substring | exact Hfence]).
  unfold locate_start.
  rewrite (contains_startswith _ _ Hstart), (find_startswith _ _ Hstart), slice_from_0.
  unfold cut_after_end. rewrite Hm, Hend. unfold slice_to. rewrite firstn_all.
  apply validated. unfold has_marker.
  now rewrite (contains_startswith _ _ Hstart).
Qed.

(** C8. A reply in which neither [\documentclass] nor [\begin{document}]
    occurs anywhere, code fences included, makes the extractor raise. *)
Theorem C8_extract_fails_without_marker (reply ref : list N) :
  contains DOCUMENTCLASS reply = false ->
  contains BEGIN_DOCUMENT reply = false ->
  extract_latex_from_response reply ref = Raise ExtractionError.
Proof.
  intros Hd Hb. unfold extract_latex_from_response.
  set (text := strip_fences fence_patterns (strip reply)).
  assert (Hsub : substring text reply).
  { eapply substring_trans; [apply strip_fences_substring | apply strip_substring]. }
  assert (Hd' : contains DOCUMENTCLASS text = false) by (eapply contains_absent; eauto).
  assert (Hb' : contains BEGIN_DOCUMENT text = false) by (eapply contains_absent; eauto).
  unfold locate_start. rewrite Hd', Hb'.
  rewrite (contains_absent _ _ _ (cut_after_end_substring text) Hd').
  rewrite (contains_absent _ _ _ (cut_after_end_substring text) Hb').
  reflexivity.
Qed.

(** C7, as amended. When the reply holds [\begin{document}] but no
    [\documentclass], and the reference source has a non-empty preamble
    before its first [\begin{document}] with no end-of-document marker in
    it, the extractor returns that preamble followed by the body: the
    working text (the trimmed reply, or the fence content the extractor
    selected) from its first [\begin{document}] on, cut after its first
    end-of-document marker. The result holds [\begin{document}], and
    [\documentclass] whenever the preamble does. *)
Theorem C7_extract_splices_reference_preamble (reply ref : list N) :
  contains BEGIN_DOCUMENT reply = true ->
  contains DOCUMENTCLASS reply = false ->
  extract_preamble_from_original ref <> [] ->
  search end_doc_pattern (extract_preamble_from_original ref) = None ->
  let preamble := extract_preamble_from_original ref in
  let text := strip_fences fence_patterns (strip reply) in
  let body := cut_after_end (slice_from (find BEGIN_DOCUMENT text) text) in
  extract_latex_from_response reply ref = Ok (preamble ++ body)
  /\ startswith BEGIN_DOCUMENT body = true
  /\ contains BEGIN_DOCUMENT (preamble ++ body) = true
  /\ (contains DOCUMENTCLASS preamble = true ->
      contains DOCUMENTCLASS (preamble ++ body) = true)
  /\ (contains FENCE reply = false -> text = strip reply).
Proof.
  intros Hb Hd Hne Hend preamble text body.
  assert (Hd' : contains DOCUMENTCLASS text = false).
  { eapply contains_absent; [|exact Hd].
    eapply substring_trans; [apply strip_fences_substring | apply strip_substring]. }
  assert (Hb' : contains BEGIN_DOCUMENT text = true).
  { subst text. destruct (strip_fences_cases fence_patterns (strip reply)) as [-> | [Hm _]].
    - apply contains_true. rewrite begin_marker_shape.
      apply strip_keeps; [reflexivity | reflexivity |].
      rewrite <- begin_marker_shape. now apply contains_true.
    - unfold has_marker in Hm. rewrite Hd' in Hm. exact Hm. }
  destruct (slice_from_find _ _ Hb') as (p & _ & Hstart).
  apply startswith_true in Hstart as [rest Hrest].
  destruct (cut_after_end_begin rest) as [rest' Hcut].
  assert (Hbody : body = BEGIN_DOCUMENT ++ rest').
  { subst body. rewrite Hrest. exact Hcut. }
  assert (Hloc : locate_start text ref = preamble ++ BEGIN_DOCUMENT ++ rest).
  { unfold locate_start. rewrite Hd', Hb', Hrest. subst preamble.
    destruct (extract_preamble_from_original ref); [congruence | reflexivity]. }
  assert (Hres : cut_after_end (preamble ++ BEGIN_DOCUMENT ++ rest) = preamble ++ body).
  { subst body. rewrite Hrest.
    change (BEGIN_DOCUMENT ++ rest) with (92%N :: (List.tl BEGIN_DOCUMENT ++ rest)).
    apply cut_after_end_app, search_end_none, Hend. }
  assert (Hin : contains BEGIN_DOCUMENT (preamble ++ body) = true).
  { apply contains_true. exists preamble, rest'. now rewrite Hbody. }
  split; [|split; [|split; [|split]]].
  - unfold extract_latex_from_response. fold text. rewrite Hloc, Hres.
    apply validated. unfold has_marker. rewrite Hin. apply orb_true_r.
  - rewrite Hbody. apply startswith_app.
  - exact Hin.
  - intros H. eapply contains_mono; [|exact H]. exists [], body. reflexivity.
  - intros Hf. subst text. apply (strip_fences_no_fence _ _ fence_patterns_head).
    eapply contains_absent; [apply strip_substring | exact Hf].
Qed.

End ExtractorProps.

Module ExtractorExamples.
Import Str Re Spec Extractor ExtractorProps Samples Prompts.

Lemma C6_witness :
  startswith DOCUMENTCLASS (strip padded_document) = true
  /\ contains FENCE padded_document = false
  /\ (exists m, search end_doc_pattern (strip padded_document) = Some m
                /\ m_end m = length (strip padded_document))
  /\ extract_latex_from_response padded_document reference_document
     = Ok (strip padded_document).
Proof.
  assert (H1 : startswith DOCUMENTCLASS (strip padded_document) = true)
    by (vm_compute; reflexivity).
  assert (H2 : contains FENCE padded_document = false) by (vm_compute; reflexivity).
  assert (H3 : exists m, search end_doc_pattern (strip padded_document) = Some m
                         /\ m_end m = length (strip padded_document))
    by (eexists; split; vm_compute; reflexivity).
  split; [exact H1|]. split; [exact H2|]. split; [exact H3|].
  exact (C6_extract_returns_trimmed_document padded_document reference_document H1 H2 H3).
Defined.

(** C6 as the specification words it: the reply would come back unchanged.
    With white space around the document it comes back trimmed. *)
Lemma C6_counterexample :
  startswith DOCUMENTCLASS (strip padded_document) = true
  /\ contains FENCE padded_document = false
  /\ (exists m, search end_doc_pattern (strip padded_document) = Some m
                /\ m_end m = length (strip padded_document))
  /\ extract_latex_from_response padded_document [] = Ok plain_document
  /\ extract_latex_from_response padded_document [] <> Ok padded_document.
Proof.
  split; [vm_compute; reflexivity|].
  split; [vm_compute; reflexivity|].
  split; [eexists; split; vm_compute; reflexivity|].
  split; [vm_compute; reflexivity|].
  intros H. vm_compute in H. discriminate H.
Qed.

Lemma C7_witness :
  contains BEGIN_DOCUMENT body_with_remark = true
  /\ contains DOCUMENTCLASS body_with_remark = false
  /\ extract_preamble_from_original reference_document <> []
  /\ search end_doc_pattern (extract_preamble_from_original reference_document) = None
  /\ extract_latex_from_response body_with_remark reference_document
     = Ok (lit "\documentclass{article}" ++ nl ++ lit "\begin{document}Hi\end{document}").
Proof.
  assert (H1 : contains BEGIN_DOCUMENT body_with_remark = true) by (vm_compute; reflexivity).
  assert (H2 : contains DOCUMENTCLASS body_with_remark = false) by (vm_compute; reflexivity).
  assert (H3 : extract_preamble_from_original reference_document <> [])
    by (vm_compute; discriminate).
  assert (H4 : search end_doc_pattern (extract_preamble_from_original reference_document) = None)
    by (vm_compute; reflexivity).
  split; [exact H1|]. split; [exact H2|]. split; [exact H3|]. split; [exact H4|].
  destruct (C7_extract_splices_reference_preamble
              body_with_remark reference_document H1 H2 H3 H4) as [E _].
  rewrite E. vm_compute. reflexivity.
Defined.

(** C7 as the specification words it: the preamble followed by the reply
    from [\begin{document}] onward, with both markers in the result. What
    follows [\end{document}] in the reply is cut; and a preamble without
    [\documentclass] gives a result without it. *)
Lemma C7_counterexample :
  (contains BEGIN_DOCUMENT body_with_remark = true
   /\ contains DOCUMENTCLASS body_with_remark = false
   /\ extract_preamble_from_original reference_document = lit "\documentclass{article}" ++ nl
   /\ extract_latex_from_response body_with_remark reference_document
      = Ok (lit "\documentclass{article}" ++ nl ++ lit "\begin{document}Hi\end{document}")
   /\ extract_latex_from_response body_with_remark reference_document
      <> Ok (extract_preamble_from_original reference_document
             ++ slice_from (find BEGIN_DOCUMENT body_with_remark) body_with_remark))
  /\ (contains BEGIN_DOCUMENT plain_body = true
      /\ contains DOCUMENTCLASS plain_body = false
      /\ extract_preamble_from_original headless_reference = lit "% resume" ++ nl
      /\ extract_latex_from_response plain_body headless_reference
         = Ok (lit "% resume" ++ nl ++ plain_body)
      /\ contains DOCUMENTCLASS (lit "% resume" ++ nl ++ plain_body) = false).
Proof.
  split.
  - split; [vm_compute; reflexivity|].
    split; [vm_compute; reflexivity|].
    split; [vm_compute; reflexivity|].
    split; [vm_compute; reflexivity|].
    intros H. vm_compute in H. discriminate H.
  - split; [vm_compute; reflexivity|].
    split; [vm_compute; reflexivity|].
    split; [vm_compute; reflexivity|].
    split; vm_compute; reflexivity.
Qed.

Lemma C8_witness :
  contains DOCUMENTCLASS refusal = false
  /\ contains BEGIN_DOCUMENT refusal = false
  /\ extract_latex_from_response refusal reference_document = Raise ExtractionError.
Proof.
  assert (H1 : contains DOCUMENTCLASS refusal = false) by (vm_compute; reflexivity).
  assert (H2 : contains BEGIN_DOCUMENT refusal = false) by (vm_compute; reflexivity).
  split; [exact H1|]. split; [exact H2|].
  exact (C8_extract_fails_without_marker refusal reference_document H1 H2).
Defined.

End ExtractorExamples.

Module ExtractorTests.
Import Str Re Extractor Prompts.

Example fenced_reply :
  extract_latex_from_response
    (lit "Here you go:" ++ nl ++ lit "```LaTeX" ++ nl ++
     lit "\documentclass{article}\begin{document}hi\end{document}" ++ nl ++
     lit "``` Hope it helps") []
  = Ok (lit "\documentclass{article}\begin{document}hi\end{document}").
Proof. vm_compute. reflexivity. Qed.

Example body_only_reply :
  extract_latex_from_response
    (lit "\begin{document}hi\end{document} bye")
    (lit "\documentclass{article}" ++ nl ++ lit "\begin{document}old\end{document}")
  = Ok (lit "\documentclass{article}" ++ nl ++ lit "\begin{document}hi\end{document}").
Proof. vm_compute. reflexivity. Qed.

Example no_document : extract_latex_from_response (lit "Sorry, I cannot.") [] = Raise ExtractionError.
Proof. vm_compute. reflexivity. Qed.

End ExtractorTests.

(* ===================================================================== *)
(** ** Properties of the layout analyzer *)
(* ===================================================================== *)

Module NumTests.
Import Str Num.
Local Open Scope Q_scope.
Example format_099 : format_2f 0.99 = lit "0.99". Proof. vm_compute. reflexivity. Qed.
Example format_05 : format_2f 0.5 = lit "0.50". Proof. vm_compute. reflexivity. Qed.
Example format_tie : format_2f 0.125 = lit "0.12". Proof. vm_compute. reflexivity. Qed.
Example format_up : format_2f (12347 # 1000) = lit "12.35". Proof. vm_compute. reflexivity. Qed.
Example format_neg : format_2f (- (1 # 1000)) = lit "-0.00". Proof. vm_compute. reflexivity. Qed.
End NumTests.

Module LayoutProps.
Import Num Layout Spec.
Local Open Scope Q_scope.

Lemma Qltb_true x y : Qltb x y = true <-> x < y.
Proof.
  unfold Qltb. rewrite negb_true_iff, <- not_true_iff_false, Qle_bool_iff.
  split; [apply Qnot_le_lt | apply Qlt_not_le].
Qed.

Lemma Qltb_false x y : Qltb x y = false <-> y <= x.
Proof. unfold Qltb. now rewrite negb_false_iff, Qle_bool_iff. Qed.

Lemma zero_literal x : 0.0 <= x <-> 0 <= x.
Proof. split; intros H; (eapply Qle_trans; [|exact H]); discriminate. Qed.

Lemma one_literal x : x <= 1.0 <-> x <= 1.
Proof. split; intros H; (eapply Qle_trans; [exact H|]); discriminate. Qed.

(** [min(max(x, 0.0), 1.0)] lies in the unit interval. *)
Lemma clamp_bounds x : 0 <= py_min (py_max x 0.0) 1.0 <= 1.
Proof.
  unfold py_min, py_max.
  destruct (Qltb x 0.0) eqn:E0.
  - change (Qltb 1.0 0.0) with false. cbv iota. split; discriminate.
  - apply Qltb_false, zero_literal in E0.
    destruct (Qltb 1.0 x) eqn:E1.
    + split; discriminate.
    + apply Qltb_false, one_literal in E1. split; assumption.
Qed.

(** The clamp leaves a ratio of the unit interval as it is. *)
Lemma clamp_inside x : 0 <= x -> x <= 1 -> py_min (py_max x 0.0) 1.0 = x.
Proof.
  intros H0%zero_literal H1%one_literal. unfold py_min, py_max.
  rewrite (proj2 (Qltb_false x 0.0) H0), (proj2 (Qltb_false 1.0 x) H1). reflexivity.
Qed.

Lemma clamp_below x : x < 0 -> py_min (py_max x 0.0) 1.0 = 0.0.
Proof.
  intros H. unfold py_min, py_max.
  assert (E : Qltb x 0.0 = true)
    by (apply Qltb_true; eapply Qlt_le_trans; [exact H | discriminate]).
  rewrite E. reflexivity.
Qed.

Lemma clamp_above x : 1 < x -> py_min (py_max x 0.0) 1.0 = 1.0.
Proof.
  intros H. unfold py_min, py_max.
  assert (E0 : Qltb x 0.0 = false).
  { apply Qltb_false, zero_literal, Qlt_le_weak.
    eapply Qlt_trans; [|exact H]. reflexivity. }
  assert (E1 : Qltb 1.0 x = true)
    by (apply Qltb_true; eapply Qle_lt_trans; [|exact H]; discriminate).
  rewrite E0, E1. reflexivity.
Qed.

Lemma measured h b bs rest :
  calculate_fill_ratio (Ok (MkPage h (Ok (b :: bs)) :: rest))
  = py_min (py_max (raw_ratio h (b :: bs)) 0.0) 1.0.
Proof.
  unfold calculate_fill_ratio, measure, raw_ratio.
  cbn [rect_height get_text_blocks].
  destruct (scan_blocks (b :: bs) h 0) as [top bottom]. reflexivity.
Qed.


(** C10. When the content starts at or below the usable bottom of the page,
    so that the usable height is zero or negative, the quotient is not
    formed and the result is exactly 0.9. *)
Theorem C10_nonpositive_usable_height (h : Q) (b : block) (bs : list block) (rest : list page) :
  h - 36 - fst (scan_blocks (b :: bs) h 0) <= 0 ->
  calculate_fill_ratio (Ok (MkPage h (Ok (b :: bs)) :: rest)) = 0.9.
Proof.
  intros H. rewrite measured. unfold raw_ratio.
  destruct (scan_blocks (b :: bs) h 0) as [top bottom]. cbn [fst] in H.
  rewrite (proj2 (Qltb_false 0 (h - 36 - top)) H). reflexivity.
Qed.

End LayoutProps.

Module LayoutExamples.
Import Num Layout Spec Sim LayoutProps.
Local Open Scope Q_scope.

(** A block that starts below the usable bottom of a letter page. *)
Lemma C10_witness :
  792 - 36 - fst (scan_blocks [blk 760 780] 792 0) <= 0
  /\ calculate_fill_ratio (Ok [MkPage 792 (Ok [blk 760 780])]) = 0.9.
Proof.
  assert (H : 792 - 36 - fst (scan_blocks [blk 760 780] 792 0) <= 0)
    by (vm_compute; discriminate).
  split; [exact H|].
  exact (C10_nonpositive_usable_height 792 (blk 760 780) [] [] H).
Defined.

Example letter_page_full :
  calculate_fill_ratio (Ok [MkPage 792 (Ok [blk 40 100; blk 110 700])]) = (660 # 716).
Proof. vm_compute. reflexivity. Qed.

Example no_blocks : calculate_fill_ratio (Ok [MkPage 792 (Ok [])]) = 0.5.
Proof. reflexivity. Qed.

Example no_pages : calculate_fill_ratio (Ok []) = 0.9.
Proof. reflexivity. Qed.

Example overflowing_block :
  calculate_fill_ratio (Ok [MkPage 792 (Ok [blk 40 900])]) = 1.0.
Proof. vm_compute. reflexivity. Qed.

(** A single block of height zero at the top of the content area. *)
Example zero_height_block :
  calculate_fill_ratio (Ok [MkPage 792 (Ok [blk 40 40])]) = (0 # 716).
Proof. vm_compute. reflexivity. Qed.

(** A block whose bottom lies above its top makes the ratio negative
    before the clamp. *)
Example inverted_block :
  calculate_fill_ratio (Ok [MkPage 792 (Ok [blk 40 30])]) = 0.0.
Proof. vm_compute. reflexivity. Qed.

End LayoutExamples.

(* ===================================================================== *)
(** ** Facts about the backend operations *)
(* ===================================================================== *)

Module BackendFacts.
Import Str Num Layout Extractor Prompts Backend Runs.
Local Open Scope Q_scope.

Lemma compliant_true pc fr :
  compliant pc fr = true <->
  (pc <= 1)%nat /\ Qltb fr MIN_FILL_RATIO = false /\ Qltb MAX_FILL_RATIO fr = false.
Proof.
  unfold compliant. rewrite !andb_true_iff, !negb_true_iff, Nat.ltb_ge. tauto.
Qed.

Lemma checks_app d1 d2 : checks (d1 ++ d2) = checks d1 ++ checks d2.
Proof. apply omap_app. Qed.

Lemma queries_app d1 d2 : queries (d1 ++ d2) = queries d1 ++ queries d2.
Proof. apply omap_app. Qed.

Lemma renders_app d1 d2 : renders (d1 ++ d2) = renders d1 ++ renders d2.
Proof. apply omap_app. Qed.

Lemma directions_app d1 d2 : directions (d1 ++ d2) = directions d1 ++ directions d2.
Proof. apply omap_app. Qed.

Section Facts.
Context {W : Type}.
Variable api : list N -> list N -> W -> result (list N) * W.
Variable run_pdflatex : list N -> list N -> W -> pdflatex_outcome * W.

Implicit Types (st : state W) (d : list event) (l : locals).

Lemma extends_refl st : extends st st [].
Proof. repeat split. now rewrite app_nil_r. Qed.

Lemma extends_trans st st1 st2 d1 d2 :
  extends st st1 d1 -> extends st1 st2 d2 -> extends st st2 (d1 ++ d2).
Proof.
  intros ((A1 & A2 & A3) & A4 & A5) ((B1 & B2 & B3) & B4 & B5).
  repeat split; try congruence. rewrite B5, A5. now rewrite app_assoc.
Qed.

Lemma extends_emit st e : extends st (emit e st) [e].
Proof. repeat split. Qed.

Lemma extends_since st st' d : extends st st' d -> since st st' = d.
Proof. intros (_ & _ & H). unfold since. rewrite H. apply drop_app_length. Qed.

Lemma since_trans st st1 st2 d1 d2 :
  extends st st1 d1 -> extends st1 st2 d2 -> since st st2 = since st st1 ++ since st1 st2.
Proof.
  intros H1 H2. rewrite (extends_since _ _ _ H1), (extends_since _ _ _ H2).
  apply extends_since. eapply extends_trans; eauto.
Qed.

(** A request to the generative service adds one [Query] to the trace. *)
Lemma query_extends p s st r st' :
  query_perplexity api p s st = (r, st') -> extends st st' [Query p s].
Proof.
  unfold query_perplexity. destruct (api p s (world st)) as [r0 w].
  intros [= <- <-]. repeat split.
Qed.

Lemma shorten_extends c o jd fr st r st' :
  shorten_resume api c o jd fr st = (r, st') ->
  extends st st' [Query (shorten_prompt c jd fr) shorten_system_prompt].
Proof.
  unfold shorten_resume, mbind, M_bind, bind.
  destruct (query_perplexity api _ _ st) as [[raw|e] st1] eqn:E;
    apply query_extends in E; unfold lift; intros [= <- <-]; exact E.
Qed.

Lemma expand_extends c o jd fr st r st' :
  expand_resume api c o jd fr st = (r, st') ->
  extends st st' [Query (expand_prompt c jd fr) expand_system_prompt].
Proof.
  unfold expand_resume, mbind, M_bind, bind.
  destruct (query_perplexity api _ _ st) as [[raw|e] st1] eqn:E;
    apply query_extends in E; unfold lift; intros [= <- <-]; exact E.
Qed.

(** A render of the search runs the compiler once and stores nothing. *)
Lemma compile_search_extends tex stem st r st' :
  compile_latex_to_pdf run_pdflatex tex stem false st = (r, st') ->
  extends st st' [Pdflatex stem tex].
Proof.
  unfold compile_latex_to_pdf.
  destruct (run_pdflatex stem tex (world st)) as [outcome w].
  destruct outcome as [| |rc [pdf|]]; try (intros [= <- <-]; repeat split).
  - destruct (negb (rc =? 0)%Z); [intros [= <- <-]; repeat split|].
    destruct (reader_pages pdf); cbn [negb]; intros [= <- <-]; repeat split.
  - destruct (negb (rc =? 0)%Z); intros [= <- <-]; repeat split.
Qed.

(** *** EVALUATE, branch by branch *)

Variable job_description : list N.

Lemma evaluate_too_long_retry a l pc fr st :
  (1 < pc)%nat -> (a < max_optimization_attempts)%nat ->
  evaluate api job_description a l pc fr st =
  corrected_by shortened l
    (shorten_resume api (tailored_content l) (content (current_resume st))
       job_description fr (emit (Print (TooLong pc)) (checked a pc fr st))).
Proof.
  intros Hpc%Nat.ltb_lt Ha%Nat.ltb_lt.
  unfold evaluate, mbind, M_bind, bind, print. rewrite Hpc, Ha.
  unfold get_current_resume, ret, corrected_by. cbn.
  now destruct (shorten_resume _ _ _ _ _ _) as [[?|?] ?].
Qed.

Lemma evaluate_too_long_exhausted a l pc fr st :
  (1 < pc)%nat -> (max_optimization_attempts <= a)%nat ->
  evaluate api job_description a l pc fr st =
  (Ok (Break, l),
   emit (Print CouldNotFit) (emit (Print (TooLong pc)) (checked a pc fr st))).
Proof.
  intros Hpc%Nat.ltb_lt Ha%Nat.ltb_ge.
  unfold evaluate, mbind, M_bind, bind, print. now rewrite Hpc, Ha.
Qed.

Lemma evaluate_too_sparse_retry a l pc fr st :
  (pc <= 1)%nat -> Qltb fr MIN_FILL_RATIO = true ->
  (a < max_optimization_attempts)%nat ->
  evaluate api job_description a l pc fr st =
  corrected_by expanded l
    (expand_resume api (tailored_content l) (content (current_resume st))
       job_description fr (emit (Print (TooSparse fr)) (checked a pc fr st))).
Proof.
  intros Hpc%Nat.ltb_ge Hfr Ha%Nat.ltb_lt.
  unfold evaluate, mbind, M_bind, bind, print. rewrite Hpc, Hfr, Ha.
  unfold get_current_resume, ret, corrected_by. cbn.
  now destruct (expand_resume _ _ _ _ _ _) as [[?|?] ?].
Qed.

Lemma evaluate_too_sparse_exhausted a l pc fr st :
  (pc <= 1)%nat -> Qltb fr MIN_FILL_RATIO = true ->
  (max_optimization_attempts <= a)%nat ->
  evaluate api job_description a l pc fr st =
  (Ok (Break, l),
   emit (Print (Optimized fr)) (emit (Print (TooSparse fr)) (checked a pc fr st))).
Proof.
  intros Hpc%Nat.ltb_ge Hfr Ha%Nat.ltb_ge.
  unfold evaluate, mbind, M_bind, bind, print. now rewrite Hpc, Hfr, Ha.
Qed.

Lemma evaluate_too_dense_retry a l pc fr st :
  (pc <= 1)%nat -> Qltb fr MIN_FILL_RATIO = false ->
  Qltb MAX_FILL_RATIO fr = true -> (a < max_optimization_attempts)%nat ->
  evaluate api job_description a l pc fr st =
  corrected_by shortened l
    (shorten_resume api (tailored_content l) (content (current_resume st))
       job_description fr (emit (Print (TooDense fr)) (checked a pc fr st))).
Proof.
  intros Hpc%Nat.ltb_ge Hmin Hmax Ha%Nat.ltb_lt.
  unfold evaluate, mbind, M_bind, bind, print. rewrite Hpc, Hmin, Hmax, Ha.
  unfold get_current_resume, ret, corrected_by. cbn.
  now destruct (shorten_resume _ _ _ _ _ _) as [[?|?] ?].
Qed.

Lemma evaluate_too_dense_exhausted a l pc fr st :
  (pc <= 1)%nat -> Qltb fr MIN_FILL_RATIO = false ->
  Qltb MAX_FILL_RATIO fr = true -> (max_optimization_attempts <= a)%nat ->
  evaluate api job_description a l pc fr st =
  (Ok (Break, l),
   emit (Print (Optimized fr)) (emit (Print (TooDense fr)) (checked a pc fr st))).
Proof.
  intros Hpc%Nat.ltb_ge Hmin Hmax Ha%Nat.ltb_ge.
  unfold evaluate, mbind, M_bind, bind, print. now rewrite Hpc, Hmin, Hmax, Ha.
Qed.

Lemma evaluate_in_band a l pc fr st :
  (pc <= 1)%nat -> Qltb fr MIN_FILL_RATIO = false ->
  Qltb MAX_FILL_RATIO fr = false ->
  evaluate api job_description a l pc fr st =
  (Ok (Break, l), emit (Print (Optimized fr)) (checked a pc fr st)).
Proof.
  intros Hpc%Nat.ltb_ge Hmin Hmax.
  unfold evaluate, mbind, M_bind, bind, print. now rewrite Hpc, Hmin, Hmax.
Qed.

(** *** EVALUATE, summed up *)

Lemma corrected_by_spec ty l out st0 st d0 q a pc fr :
  extends st0 (snd out) [Query (fst q) (snd q)] ->
  extends st st0 d0 -> checks d0 = [(a, pc, fr)] -> renders d0 = [] -> queries d0 = [] ->
  is_correction q -> (a < max_optimization_attempts)%nat -> compliant pc fr = false ->
  exists d, extends st (snd (corrected_by ty l out)) d
            /\ evaluated a l pc fr (fst (corrected_by ty l out)) d.
Proof.
  intros Hq H0 Hc Hr Hqs Hcor Ha Hnc. exists (d0 ++ [Query (fst q) (snd q)]).
  destruct out as [[c|e] st1]; cbn [corrected_by fst snd] in *.
  - split; [eapply extends_trans; eauto|]. unfold evaluated, checks, renders, queries in *.
    rewrite !omap_app, Hc, Hr, Hqs. repeat split; auto.
    exists q. split; [now destruct q | exact Hcor].
  - split; [eapply extends_trans; eauto|]. unfold evaluated, checks, renders in *.
    rewrite !omap_app, Hc, Hr. repeat split; auto.
Qed.

Lemma evaluate_spec a l pc fr st :
  exists d, extends st (snd (evaluate api job_description a l pc fr st)) d
            /\ evaluated a l pc fr (fst (evaluate api job_description a l pc fr st)) d.
Proof.
  assert (Hck : extends st (checked a pc fr st) [Print (CheckLine a pc fr)])
    by apply extends_emit.
  destruct (Nat.ltb_spec 1 pc) as [Hpc|Hpc].
  - assert (Hnc : compliant pc fr = false)
      by (unfold compliant; now rewrite (proj2 (Nat.ltb_lt 1 pc) Hpc)).
    destruct (Nat.ltb_spec a max_optimization_attempts) as [Ha|Ha].
    + rewrite evaluate_too_long_retry by assumption.
      eapply (corrected_by_spec _ _ _ _ _ _
                (shorten_prompt (tailored_content l) job_description fr, shorten_system_prompt)).
      * destruct (shorten_resume _ _ _ _ _ _) as [r1 st1] eqn:E.
        apply shorten_extends in E. exact E.
      * eapply extends_trans; [exact Hck | apply extends_emit].
      * reflexivity.
      * reflexivity.
      * reflexivity.
      * now left.
      * exact Ha.
      * exact Hnc.
    + rewrite evaluate_too_long_exhausted by assumption.
      eexists. split.
      * eapply extends_trans; [eapply extends_trans; [exact Hck | apply extends_emit]
                              | apply extends_emit].
      * repeat split. now right.
  - destruct (Qltb fr MIN_FILL_RATIO) eqn:Hmin.
    + assert (Hnc : compliant pc fr = false)
        by (unfold compliant; rewrite Hmin; now destruct (1 <? pc)%nat).
      destruct (Nat.ltb_spec a max_optimization_attempts) as [Ha|Ha].
      * rewrite evaluate_too_sparse_retry by assumption.
        eapply (corrected_by_spec _ _ _ _ _ _
                  (expand_prompt (tailored_content l) job_description fr, expand_system_prompt)).
        -- destruct (expand_resume _ _ _ _ _ _) as [r1 st1] eqn:E.
           apply expand_extends in E. exact E.
        -- eapply extends_trans; [exact Hck | apply extends_emit].
        -- reflexivity.
        -- reflexivity.
        -- reflexivity.
        -- now right.
        -- exact Ha.
        -- exact Hnc.
      * rewrite evaluate_too_sparse_exhausted by assumption.
        eexists. split.
        -- eapply extends_trans; [eapply extends_trans; [exact Hck | apply extends_emit]
                                 | apply extends_emit].
        -- repeat split. now right.
    + destruct (Qltb MAX_FILL_RATIO fr) eqn:Hmax.
      * assert (Hnc : compliant pc fr = false)
          by (unfold compliant; rewrite Hmax; now destruct (1 <? pc)%nat, (Qltb fr MIN_FILL_RATIO)).
        destruct (Nat.ltb_spec a max_optimization_attempts) as [Ha|Ha].
        -- rewrite evaluate_too_dense_retry by assumption.
           eapply (corrected_by_spec _ _ _ _ _ _
                     (shorten_prompt (tailored_content l) job_description fr, shorten_system_prompt)).
           ++ destruct (shorten_resume _ _ _ _ _ _) as [r1 st1] eqn:E.
              apply shorten_extends in E. exact E.
           ++ eapply extends_trans; [exact Hck | apply extends_emit].
           ++ reflexivity.
           ++ reflexivity.
           ++ reflexivity.
           ++ now left.
           ++ exact Ha.
           ++ exact Hnc.
        -- rewrite evaluate_too_dense_exhausted by assumption.
           eexists. split.
           ++ eapply extends_trans; [eapply extends_trans; [exact Hck | apply extends_emit]
                                    | apply extends_emit].
           ++ repeat split. now right.
      * rewrite evaluate_in_band by assumption.
        eexists. split.
        -- eapply extends_trans; [exact Hck | apply extends_emit].
        -- repeat split. left. apply compliant_true. auto.
Qed.

(** *** What EVALUATE announces and requests *)

Lemma since_corrected ty l st st3 d0 out q :
  extends st st3 d0 -> extends st3 (snd out) [q] ->
  since st (snd (corrected_by ty l out)) = d0 ++ [q].
Proof.
  intros H0 H1. apply extends_since.
  replace (snd (corrected_by ty l out)) with (snd out) by (now destruct out as [[?|?] ?]).
  eapply extends_trans; eauto.
Qed.

Lemma since_emit2 st e1 e2 : since st (emit e2 (emit e1 st)) = [e1; e2].
Proof.
  apply extends_since. eapply (extends_trans _ _ _ [e1] [e2]); apply extends_emit.
Qed.

Lemma since_emit3 st e1 e2 e3 : since st (emit e3 (emit e2 (emit e1 st))) = [e1; e2; e3].
Proof.
  apply extends_since. eapply (extends_trans _ _ _ [e1; e2] [e3]); [|apply extends_emit].
  eapply (extends_trans _ _ _ [e1] [e2]); apply extends_emit.
Qed.

Lemma since_shorten a l pc fr st e :
  since st (snd (corrected_by shortened l
                   (shorten_resume api (tailored_content l) (content (current_resume st))
                      job_description fr (emit e (checked a pc fr st)))))
  = [Print (CheckLine a pc fr); e;
     Query (shorten_prompt (tailored_content l) job_description fr) shorten_system_prompt].
Proof.
  eapply (since_corrected _ _ _ _ [Print (CheckLine a pc fr); e]).
  - eapply (extends_trans _ _ _ [_] [_]); apply extends_emit.
  - destruct (shorten_resume _ _ _ _ _ _) as [r1 st1] eqn:E.
    apply shorten_extends in E. exact E.
Qed.

Lemma since_expand a l pc fr st e :
  since st (snd (corrected_by expanded l
                   (expand_resume api (tailored_content l) (content (current_resume st))
                      job_description fr (emit e (checked a pc fr st)))))
  = [Print (CheckLine a pc fr); e;
     Query (expand_prompt (tailored_content l) job_description fr) expand_system_prompt].
Proof.
  eapply (since_corrected _ _ _ _ [Print (CheckLine a pc fr); e]).
  - eapply (extends_trans _ _ _ [_] [_]); apply extends_emit.
  - destruct (expand_resume _ _ _ _ _ _) as [r1 st1] eqn:E.
    apply expand_extends in E. exact E.
Qed.

(** The directions one EVALUATE step announces. *)
Lemma evaluate_directions a l pc fr st :
  directions (since st (snd (evaluate api job_description a l pc fr st))) =
  if (1 <? pc)%nat then [SHORTEN]
  else if Qltb fr MIN_FILL_RATIO
       then if (a <? max_optimization_attempts)%nat then [EXPAND] else [EXPAND; ACCEPT]
  else if Qltb MAX_FILL_RATIO fr
       then if (a <? max_optimization_attempts)%nat then [SHORTEN] else [SHORTEN; ACCEPT]
  else [ACCEPT].
Proof.
  destruct (Nat.ltb_spec 1 pc) as [Hpc|Hpc].
  - destruct (Nat.ltb_spec a max_optimization_attempts) as [Ha|Ha].
    + rewrite evaluate_too_long_retry, since_shorten by assumption. reflexivity.
    + rewrite evaluate_too_long_exhausted by assumption.
      unfold checked. cbn [snd]. rewrite since_emit3. reflexivity.
  - destruct (Qltb fr MIN_FILL_RATIO) eqn:Hmin.
    + destruct (Nat.ltb_spec a max_optimization_attempts) as [Ha|Ha].
      * rewrite evaluate_too_sparse_retry, since_expand by assumption. reflexivity.
      * rewrite evaluate_too_sparse_exhausted by assumption.
        unfold checked. cbn [snd]. rewrite since_emit3. reflexivity.
    + destruct (Qltb MAX_FILL_RATIO fr) eqn:Hmax.
      * destruct (Nat.ltb_spec a max_optimization_attempts) as [Ha|Ha].
        -- rewrite evaluate_too_dense_retry, since_shorten by assumption. reflexivity.
        -- rewrite evaluate_too_dense_exhausted by assumption.
           unfold checked. cbn [snd]. rewrite since_emit3. reflexivity.
      * rewrite evaluate_in_band by assumption.
        unfold checked. cbn [snd]. rewrite since_emit2. reflexivity.
Qed.

(** The requests one EVALUATE step sends. *)
Lemma evaluate_queries a l pc fr st :
  queries (since st (snd (evaluate api job_description a l pc fr st))) =
  if (a <? max_optimization_attempts)%nat then
    if (1 <? pc)%nat
    then [(shorten_prompt (tailored_content l) job_description fr, shorten_system_prompt)]
    else if Qltb fr MIN_FILL_RATIO
    then [(expand_prompt (tailored_content l) job_description fr, expand_system_prompt)]
    else if Qltb MAX_FILL_RATIO fr
    then [(shorten_prompt (tailored_content l) job_description fr, shorten_system_prompt)]
    else []
  else [].
Proof.
  destruct (Nat.ltb_spec 1 pc) as [Hpc|Hpc].
  - destruct (Nat.ltb_spec a max_optimization_attempts) as [Ha|Ha].
    + rewrite evaluate_too_long_retry, since_shorten by assumption. reflexivity.
    + rewrite evaluate_too_long_exhausted by assumption.
      unfold checked. cbn [snd]. rewrite since_emit3. reflexivity.
  - destruct (Qltb fr MIN_FILL_RATIO) eqn:Hmin.
    + destruct (Nat.ltb_spec a max_optimization_attempts) as [Ha|Ha].
      * rewrite evaluate_too_sparse_retry, since_expand by assumption. reflexivity.
      * rewrite evaluate_too_sparse_exhausted by assumption.
        unfold checked. cbn [snd]. rewrite since_emit3. reflexivity.
    + destruct (Qltb MAX_FILL_RATIO fr) eqn:Hmax.
      * destruct (Nat.ltb_spec a max_optimization_attempts) as [Ha|Ha].
        -- rewrite evaluate_too_dense_retry, since_shorten by assumption. reflexivity.
        -- rewrite evaluate_too_dense_exhausted by assumption.
           unfold checked. cbn [snd]. rewrite since_emit3. reflexivity.
      * rewrite evaluate_in_band by assumption.
        unfold checked. cbn [snd]. rewrite since_emit2.
        now destruct (a <? max_optimization_attempts)%nat.
Qed.

(** *** The loop *)

Variable filename_stem : list N.

Lemma loop_body_spec a l st :
  exists d,
    extends st (snd (loop_body api run_pdflatex filename_stem job_description a l st)) d
    /\ match fst (loop_body api run_pdflatex filename_stem job_description a l st) with
       | Raise _ => True
       | Ok (c, l1) =>
           exists pc fr d1,
             d = Pdflatex filename_stem (tailored_content l) :: d1
             /\ evaluated a l pc fr (Ok (c, l1)) d1
       end.
Proof.
  unfold loop_body, mbind, M_bind, bind.
  destruct (compile_latex_to_pdf _ _ _ _ st) as [[[[pc fr] path]|e] st1] eqn:Hc;
    apply compile_search_extends in Hc.
  - destruct (evaluate_spec a l pc fr st1) as (d1 & He & Hev).
    exists ([Pdflatex filename_stem (tailored_content l)] ++ d1).
    split; [eapply extends_trans; eauto|].
    destruct (evaluate _ _ _ _ _ _ st1) as [[[c l1]|e] st2]; [|exact I].
    exists pc, fr, d1. split; [reflexivity | exact Hev].
  - eexists. split; [exact Hc | exact I].
Qed.

Lemma for_attempts_extends attempts l st :
  exists d,
    extends st (snd (for_attempts api run_pdflatex filename_stem job_description attempts l st)) d.
Proof.
  revert l st; induction attempts as [|a rest IH]; intros l st.
  - exists []. apply extends_refl.
  - cbn [for_attempts]. unfold mbind, M_bind, bind.
    destruct (loop_body_spec a l st) as (d1 & H1 & _).
    destruct (loop_body _ _ _ _ a l st) as [[[[|] l1]|e] st1]; cbn [snd] in *.
    + destruct (IH l1 st1) as (d2 & H2). exists (d1 ++ d2). eapply extends_trans; eauto.
    + now exists d1.
    + now exists d1.
Qed.

(** When no render of the search complies, the loop from attempt [a] on
    corrects at every attempt below the maximum and stops at the maximum. *)
Lemma search_never_compliant k : forall a l st l' st',
  (a + k = max_optimization_attempts)%nat ->
  for_attempts api run_pdflatex filename_stem job_description (seq a (S k)) l st
    = (Ok l', st') ->
  Forall not_compliant (checks (since st st')) ->
  exists d, extends st st' d
    /\ adjustment_count l' = (adjustment_count l + k)%nat
    /\ length (checks d) = S k
    /\ length (queries d) = k /\ Forall is_correction (queries d)
    /\ length (renders d) = S k.
Proof.
  induction k as [|k IH]; intros a l st l' st' Hak Hrun Hall.
  - cbn [seq for_attempts] in Hrun. unfold mbind, M_bind, bind in Hrun.
    destruct (loop_body_spec a l st) as (d1 & H1 & Hb).
    destruct (loop_body _ _ _ _ a l st) as [[[c l1]|e] st1]; [|discriminate].
    cbn [fst snd] in *. destruct Hb as (pc & fr & d0 & -> & Hc & Hr & Hev).
    destruct c.
    + destruct Hev as (Ha & _). lia.
    + injection Hrun as <- <-. destruct Hev as (-> & Hq & _).
      exists (Pdflatex filename_stem (tailored_content l) :: d0). split; [exact H1|].
      change (Pdflatex filename_stem (tailored_content l) :: d0)
        with ([Pdflatex filename_stem (tailored_content l)] ++ d0).
      rewrite checks_app, queries_app, renders_app, Hc, Hq, Hr.
      repeat split; try (cbn; lia). constructor.
  - cbn [seq for_attempts] in Hrun. unfold mbind, M_bind, bind in Hrun.
    destruct (loop_body_spec a l st) as (d1 & H1 & Hb).
    destruct (loop_body _ _ _ _ a l st) as [[[c l1]|e] st1]; [|discriminate].
    cbn [fst snd] in *. destruct Hb as (pc & fr & d0 & -> & Hc & Hr & Hev).
    destruct (for_attempts_extends (seq (S a) (S k)) l1 st1) as (d2 & H2).
    destruct c.
    + destruct Hev as (Ha & _ & (q & Hq & Hcor) & Hcount).
      change (for_attempts api run_pdflatex filename_stem job_description
                (seq (S a) (S k)) l1 st1 = (Ok l', st')) in Hrun.
      rewrite Hrun in H2. cbn [snd] in H2.
      rewrite (since_trans _ _ _ _ _ H1 H2) in Hall.
      rewrite checks_app in Hall. apply Forall_app in Hall as [_ Hall].
      destruct (IH (S a) l1 st1 l' st' ltac:(lia) Hrun Hall)
        as (d3 & H3 & Hcount' & Hck & Hql & Hqc & Hrl).
      exists ((Pdflatex filename_stem (tailored_content l) :: d0) ++ d3).
      split; [eapply extends_trans; eauto|].
      change (Pdflatex filename_stem (tailored_content l) :: d0)
        with ([Pdflatex filename_stem (tailored_content l)] ++ d0).
      rewrite !checks_app, !queries_app, !renders_app, Hc, Hq, Hr, !length_app, Hck, Hql, Hrl.
      repeat split; try (cbn; lia).
      apply Forall_app. split; [|exact Hqc]. cbn. constructor; [exact Hcor | constructor].
    + injection Hrun as <- <-. destruct Hev as (-> & Hq & [Hcomp|Ha]); [|lia].
      rewrite (extends_since _ _ _ H1) in Hall.
      change (Pdflatex filename_stem (tailored_content l) :: d0)
        with ([Pdflatex filename_stem (tailored_content l)] ++ d0) in Hall.
      rewrite checks_app, Hc in Hall. apply Forall_inv in Hall. unfold not_compliant in Hall. cbn [fst snd] in Hall.
      congruence.
Qed.

(** *** The final render *)

Lemma compile_final_ok tex stem st pc fr path st' :
  compile_latex_to_pdf run_pdflatex tex stem true st = (Ok (pc, fr, path), st') ->
  exists pdf w',
    run_pdflatex stem tex (world st) = (Exited 0 (Some pdf), w')
    /\ reader_pages pdf = Ok pc
    /\ fr = calculate_fill_ratio (fitz_view pdf)
    /\ path = Some (stem ++ lit ".pdf")
    /\ same_store st st'
    /\ compiled_folder st' = <[stem ++ lit ".pdf" := pdf]> (compiled_folder st)
    /\ trace st' = trace st ++ [Pdflatex stem tex; SavePdf (stem ++ lit ".pdf")].
Proof.
  unfold compile_latex_to_pdf.
  destruct (run_pdflatex stem tex (world st)) as [outcome w].
  destruct outcome as [| |rc [pdf|]]; try discriminate.
  - destruct (Z.eqb_spec rc 0) as [->|Hrc]; cbn [negb]; [|discriminate].
    destruct (reader_pages pdf) as [n|e] eqn:Hn; [|discriminate].
    intros [= <- <- <- <-]. exists pdf, w.
    split; [reflexivity|]. split; [exact Hn|]. split; [reflexivity|].
    split; [reflexivity|]. split; [repeat split|]. split.
    + cbn [compiled_folder set_compiled_folder emit].
      destruct (compiled_folder st !! (stem ++ lit ".pdf"));
        [apply insert_delete_eq | reflexivity].
    + cbn [trace set_compiled_folder set_world emit]. now rewrite <- app_assoc.
  - destruct (negb (rc =? 0)%Z); discriminate.
Qed.

Lemma compile_final_raise tex stem st e st' :
  compile_latex_to_pdf run_pdflatex tex stem true st = (Raise e, st') ->
  extends st st' [Pdflatex stem tex].
Proof.
  unfold compile_latex_to_pdf.
  destruct (run_pdflatex stem tex (world st)) as [outcome w].
  destruct outcome as [| |rc [pdf|]]; try (intros [= <- <-]; repeat split).
  - destruct (negb (rc =? 0)%Z); [intros [= <- <-]; repeat split|].
    destruct (reader_pages pdf); cbn [negb]; [discriminate|].
    intros [= <- <-]. repeat split.
  - destruct (negb (rc =? 0)%Z); intros [= <- <-]; repeat split.
Qed.

End Facts.

(** *** A whole tailoring run *)

Section Run.
Context {W : Type}.
Variable api : list N -> list N -> W -> result (list N) * W.
Variable run_pdflatex : list N -> list N -> W -> pdflatex_outcome * W.
Variable tailor_system_prompt : list N.
Variable tailor_prompt : list N -> list N -> list N -> list N.

Implicit Types (st : state W).

Lemma same_store_trans st st1 st2 :
  same_store st st1 -> same_store st1 st2 -> same_store st st2.
Proof. intros (A1 & A2 & A3) (B1 & B2 & B3). repeat split; congruence. Qed.

Lemma tailor_try_spec jd rag st r st' :
  tailor_try api run_pdflatex tailor_system_prompt tailor_prompt jd rag st = (r, st') ->
  let cur := current_resume st in
  let stem := filename_stem_of (filename cur) in
  same_store st st'
  /\ match r with
     | Raise _ => compiled_folder st' = compiled_folder st
     | Ok p =>
         exists tailored l st1 st2 pdf w' dl pc,
           extends st st1 [Query (tailor_prompt (content cur) rag jd) tailor_system_prompt]
           /\ optimization_loop api run_pdflatex stem jd (MkLocals tailored 0 None) st1
              = (Ok l, st2)
           /\ extends st1 st2 dl
           /\ run_pdflatex stem (tailored_content l) (world st2) = (Exited 0 (Some pdf), w')
           /\ reader_pages pdf = Ok pc
           /\ compiled_folder st' = <[stem ++ lit ".pdf" := pdf]> (compiled_folder st)
           /\ trace st' = trace st2 ++ [Pdflatex stem (tailored_content l);
                                        SavePdf (stem ++ lit ".pdf")]
           /\ p = MkPayload (filename cur) (file_type cur) (tailored_content l)
                            pc
                            (round2 (calculate_fill_ratio (fitz_view pdf)))
                            (0 <? adjustment_count l)%nat (adjustment_count l)
                            (adjustment_type l)
                            (lit "/compiled/" ++ stem ++ lit ".pdf")
     end.
Proof.
  intros Hrun cur stem.
  unfold tailor_try, mbind, M_bind, bind, get_current_resume, lift in Hrun.
  fold cur in Hrun. fold stem in Hrun.
  destruct (query_perplexity api _ _ st) as [[raw|e] st1] eqn:Hq;
    apply query_extends in Hq; [|injection Hrun as <- <-; split; apply Hq].
  destruct (extract_latex_from_response raw (content cur)) as [tailored|e];
    [|injection Hrun as <- <-; split; apply Hq].
  destruct (for_attempts_extends api run_pdflatex jd stem
              (seq 0 (max_optimization_attempts + 1))
              (MkLocals tailored 0 None) st1) as (dl & Hl).
  fold (optimization_loop api run_pdflatex stem jd (MkLocals tailored 0 None) st1) in Hl.
  destruct (optimization_loop api run_pdflatex stem jd
              (MkLocals tailored 0 None) st1) as [[l|e] st2] eqn:Hloop; cbn [snd] in Hl.
  2:{ injection Hrun as <- <-. destruct Hq as (Hq1 & Hq2 & _), Hl as (Hl1 & Hl2 & _).
      split; [eapply same_store_trans; eauto | congruence]. }
  destruct (compile_latex_to_pdf run_pdflatex (tailored_content l) stem true st2)
    as [[[[pc fr] path]|e] st3] eqn:Hc.
  - apply compile_final_ok in Hc as (pdf & w' & Hrunp & Hpages & -> & -> & Hs & Hf & Ht).
    cbn [raise ret] in Hrun. unfold ret in Hrun. injection Hrun as <- <-.
    assert (Hst : same_store st st3)
      by (eapply same_store_trans; [eapply same_store_trans|];
          [apply Hq | apply Hl | exact Hs]).
    split; [exact Hst|].
    exists tailored, l, st1, st2, pdf, w', dl, pc.
    split; [exact Hq|]. split; [exact Hloop|]. split; [exact Hl|].
    split; [exact Hrunp|]. split; [exact Hpages|].
    split; [rewrite Hf; f_equal; destruct Hq as (_ & Hq2 & _), Hl as (_ & Hl2 & _); congruence|].
    split; [exact Ht|].
    destruct Hst as (-> & _). reflexivity.
  - apply compile_final_raise in Hc. injection Hrun as <- <-.
    destruct Hq as (Hq1 & Hq2 & _), Hl as (Hl1 & Hl2 & _), Hc as (Hc1 & Hc2 & _).
    split; [eapply same_store_trans; [eapply same_store_trans|]; eauto | congruence].
Qed.

(** With services that do not fail, a run succeeds. *)
Lemma query_ok p s st :
  answers api ->
  exists raw,
    fst (query_perplexity api p s st) = Ok raw
    /\ forall original, exists tex, extract_latex_from_response raw original = Ok tex.
Proof.
  intros Hapi. unfold query_perplexity.
  destruct (Hapi p s (world st)) as (raw & w' & -> & Hex). now exists raw.
Qed.

Lemma shorten_ok c o jd fr st :
  answers api -> exists tex, fst (shorten_resume api c o jd fr st) = Ok tex.
Proof.
  intros Hapi. unfold shorten_resume, mbind, M_bind, bind, lift.
  destruct (query_ok (shorten_prompt c jd fr) shorten_system_prompt st Hapi)
    as (raw & Hq & Hex).
  destruct (query_perplexity api _ _ st) as [r st1]. cbn [fst] in Hq. subst r.
  destruct (Hex o) as [tex ->]. now exists tex.
Qed.

Lemma expand_ok c o jd fr st :
  answers api -> exists tex, fst (expand_resume api c o jd fr st) = Ok tex.
Proof.
  intros Hapi. unfold expand_resume, mbind, M_bind, bind, lift.
  destruct (query_ok (expand_prompt c jd fr) expand_system_prompt st Hapi)
    as (raw & Hq & Hex).
  destruct (query_perplexity api _ _ st) as [r st1]. cbn [fst] in Hq. subst r.
  destruct (Hex o) as [tex ->]. now exists tex.
Qed.

Lemma corrected_by_ok ty l (out : result (list N) * state W) :
  (exists tex, fst out = Ok tex) -> exists cl, fst (corrected_by ty l out) = Ok cl.
Proof. destruct out as [[tex|e] st1]; intros [t [=]]. cbn. eauto. Qed.

Lemma evaluate_ok jd a l pc fr st :
  answers api -> exists cl, fst (evaluate api jd a l pc fr st) = Ok cl.
Proof.
  intros Hapi.
  destruct (Nat.ltb_spec 1 pc) as [Hpc|Hpc].
  - destruct (Nat.ltb_spec a max_optimization_attempts) as [Ha|Ha].
    + rewrite evaluate_too_long_retry by assumption.
      now apply corrected_by_ok, shorten_ok.
    + rewrite evaluate_too_long_exhausted by assumption. cbn. eauto.
  - destruct (Qltb fr MIN_FILL_RATIO) eqn:Hmin.
    + destruct (Nat.ltb_spec a max_optimization_attempts) as [Ha|Ha].
      * rewrite evaluate_too_sparse_retry by assumption.
        now apply corrected_by_ok, expand_ok.
      * rewrite evaluate_too_sparse_exhausted by assumption. cbn. eauto.
    + destruct (Qltb MAX_FILL_RATIO fr) eqn:Hmax.
      * destruct (Nat.ltb_spec a max_optimization_attempts) as [Ha|Ha].
        -- rewrite evaluate_too_dense_retry by assumption.
           now apply corrected_by_ok, shorten_ok.
        -- rewrite evaluate_too_dense_exhausted by assumption. cbn. eauto.
      * rewrite evaluate_in_band by assumption. cbn. eauto.
Qed.

Lemma compile_ok tex stem save_final st :
  compiles run_pdflatex ->
  exists pc fr path,
    fst (compile_latex_to_pdf run_pdflatex tex stem save_final st) = Ok (pc, fr, path)
    /\ (save_final = true -> path = Some (stem ++ lit ".pdf")).
Proof.
  intros Hrun. unfold compile_latex_to_pdf.
  destruct (Hrun stem tex (world st)) as (pdf & w' & pc & -> & Hpc).
  cbn [Z.eqb negb]. rewrite Hpc.
  destruct save_final; cbn [negb fst]; do 3 eexists; (split; [reflexivity|]);
    [reflexivity | discriminate].
Qed.

Lemma for_attempts_ok stem jd attempts l st :
  answers api -> compiles run_pdflatex ->
  exists l', fst (for_attempts api run_pdflatex stem jd attempts l st) = Ok l'.
Proof.
  intros Hapi Hrun. revert l st; induction attempts as [|a rest IH]; intros l st.
  - now exists l.
  - cbn [for_attempts]. unfold mbind at 1, M_bind at 1, bind at 1.
    unfold loop_body, mbind at 1, M_bind at 1, bind at 1.
    destruct (compile_ok (tailored_content l) stem false st Hrun) as (pc & fr & path & Hc & _).
    destruct (compile_latex_to_pdf _ _ _ _ st) as [r st1]. cbn [fst] in Hc. subst r.
    destruct (evaluate_ok jd a l pc fr st1 Hapi) as ([c l1] & He).
    destruct (evaluate _ _ _ _ _ _ st1) as [r st2]. cbn [fst] in He. subst r.
    destruct c; [apply IH | now exists l1].
Qed.

Lemma tailor_resume_ok data jd st :
  answers api -> compiles run_pdflatex ->
  data ≫= (fun d => d !! lit "job_description") = Some jd ->
  content (current_resume st) <> [] ->
  exists p,
    fst (tailor_resume api run_pdflatex tailor_system_prompt tailor_prompt data st)
    = Success p.
Proof.
  intros Hapi Hrun Hjd Hne. unfold tailor_resume. rewrite Hjd.
  destruct (content (current_resume st)) as [|c0 rest] eqn:Hcontent; [congruence|].
  unfold tailor_try, mbind, M_bind, bind, get_current_resume, lift.
  destruct (query_ok (tailor_prompt (content (current_resume st)) (default [] (rag_file st)) jd)
              tailor_system_prompt st Hapi) as (raw & Hq & Hex).
  destruct (query_perplexity api _ _ st) as [r st1]. cbn [fst] in Hq. subst r.
  destruct (Hex (content (current_resume st))) as [tex ->].
  destruct (for_attempts_ok (filename_stem_of (filename (current_resume st))) jd
              (seq 0 (max_optimization_attempts + 1)) (MkLocals tex 0 None) st1 Hapi Hrun)
    as (l & Hl).
  unfold optimization_loop.
  destruct (for_attempts _ _ _ _ _ _ st1) as [r st2]. cbn [fst] in Hl. subst r.
  destruct (compile_ok (tailored_content l) (filename_stem_of (filename (current_resume st)))
              true st2 Hrun) as (pc & fr & path & Hc & Hpath).
  destruct (compile_latex_to_pdf _ _ _ _ st2) as [r st3]. cbn [fst] in Hc. subst r.
  rewrite (Hpath eq_refl). cbn. eauto.
Qed.

(** The three ways [tailor_resume] can answer. *)
Lemma tailor_resume_cases data st resp st' :
  tailor_resume api run_pdflatex tailor_system_prompt tailor_prompt data st = (resp, st') ->
  (st' = st /\ exists why, resp = BadRequest why)
  \/ exists jd r,
       tailor_try api run_pdflatex tailor_system_prompt tailor_prompt
                  jd (default [] (rag_file st)) st = (r, st')
       /\ resp = match r with Ok p => Success p | Raise e => ServerError e end.
Proof.
  unfold tailor_resume.
  destruct (data ≫= _) as [jd|]; [|intros [= <- <-]; left; eauto].
  destruct (content (current_resume st)); [intros [= <- <-]; left; eauto|].
  destruct (tailor_try _ _ _ _ jd _ st) as [[p|e] st1] eqn:E;
    intros [= <- <-]; right; exists jd; eexists; (split; [exact E | reflexivity]).
Qed.

End Run.
End BackendFacts.

(* ===================================================================== *)
(** ** Properties of the optimization loop *)
(* ===================================================================== *)

Module LoopProps.
Import Str Num Layout Extractor Prompts Backend Runs BackendFacts LayoutProps.
Local Open Scope Q_scope.

(** The too-long branch of EVALUATE, for two steps to be compared. *)
Lemma evaluate_too_long {W : Type}
    (api : list N -> list N -> W -> result (list N) * W)
    (jd : list N) (a : nat) (l : locals) (pc : nat) (fr : Q) (st : state W) :
  (1 < pc)%nat ->
  directions (since st (snd (evaluate api jd a l pc fr st))) = [SHORTEN]
  /\ queries (since st (snd (evaluate api jd a l pc fr st))) =
     (if (a <? max_optimization_attempts)%nat
      then [(shorten_prompt (tailored_content l) jd fr, shorten_system_prompt)]
      else [])
  /\ (forall c l1, fst (evaluate api jd a l pc fr st) = Ok (c, l1) ->
        if (a <? max_optimization_attempts)%nat
        then c = Continue /\ adjustment_type l1 = Some shortened
             /\ adjustment_count l1 = (adjustment_count l + 1)%nat
        else c = Break /\ l1 = l).
Proof.
  intros Hpc.
  split; [|split].
  - rewrite evaluate_directions. now rewrite (proj2 (Nat.ltb_lt 1 pc) Hpc).
  - rewrite evaluate_queries. now rewrite (proj2 (Nat.ltb_lt 1 pc) Hpc).
  - intros c l1. destruct (Nat.ltb_spec a max_optimization_attempts) as [Ha|Ha].
    + rewrite evaluate_too_long_retry by assumption.
      destruct (shorten_resume _ _ _ _ _ _) as [[new|e] st1]; cbn [corrected_by fst];
        [|discriminate].
      intros [= <- <-]. repeat split.
    + rewrite evaluate_too_long_exhausted by assumption. cbn [fst].
      intros [= <- <-]. split; reflexivity.
Qed.

(** C1. When the render reports more than one page, EVALUATE announces
    SHORTEN and nothing else, whatever the fill ratio is: while attempts
    remain it sends one request, the shorten request, and continues with
    the adjustment recorded as [shortened]; at the last attempt it sends
    none and ends the search. It never announces ACCEPT or EXPAND. *)
Theorem C1_page_count_forces_shorten {W : Type}
    (api : list N -> list N -> W -> result (list N) * W)
    (jd : list N) (a : nat) (l : locals) (pc : nat) (fr : Q) (st : state W) :
  (1 < pc)%nat ->
  let out := evaluate api jd a l pc fr st in
  directions (since st (snd out)) = [SHORTEN]
  /\ queries (since st (snd out)) =
     (if (a <? max_optimization_attempts)%nat
      then [(shorten_prompt (tailored_content l) jd fr, shorten_system_prompt)]
      else [])
  /\ (forall c l1, fst out = Ok (c, l1) ->
        if (a <? max_optimization_attempts)%nat
        then c = Continue /\ adjustment_type l1 = Some shortened
             /\ adjustment_count l1 = (adjustment_count l + 1)%nat
        else c = Break /\ l1 = l).
Proof.
  intros Hpc out. subst out.
  assert (Hlong : (1 <? pc)%nat = true) by now apply Nat.ltb_lt.
  split; [|split].
  - rewrite evaluate_directions, Hlong. reflexivity.
  - rewrite evaluate_queries, Hlong. reflexivity.
  - intros c l1. destruct (Nat.ltb_spec a max_optimization_attempts) as [Ha|Ha].
    + rewrite evaluate_too_long_retry by assumption.
      destruct (shorten_resume _ _ _ _ _ _) as [[new|e] st1]; cbn [corrected_by fst];
        [|discriminate].
      intros [= <- <-]. repeat split.
    + rewrite evaluate_too_long_exhausted by assumption. cbn [fst].
      intros [= <- <-]. split; reflexivity.
Qed.

Lemma shorten_prompt_format c jd fr1 fr2 :
  format_2f fr1 = format_2f fr2 -> shorten_prompt c jd fr1 = shorten_prompt c jd fr2.
Proof. intros H. unfold shorten_prompt. now rewrite H. Qed.

Lemma shorten_result {W : Type} (api : list N -> list N -> W -> result (list N) * W)
    c o jd fr (st : state W) :
  fst (shorten_resume api c o jd fr st) =
  match fst (api (shorten_prompt c jd fr) shorten_system_prompt (world st)) with
  | Ok raw => extract_latex_from_response raw o
  | Raise e => Raise e
  end.
Proof.
  unfold shorten_resume, mbind, M_bind, bind, query_perplexity, lift.
  now destruct (api _ _ (world st)) as [[raw|e] w].
Qed.

(** Every render that succeeds reports the fill ratio measured on the PDF
    it produced, whatever its page count. *)
Lemma compile_measures {W : Type}
    (run_pdflatex : list N -> list N -> W -> pdflatex_outcome * W)
    (tex stem : list N) (save_final : bool) (st : state W)
    (pc : nat) (fr : Q) (path : option (list N)) (st' : state W) :
  compile_latex_to_pdf run_pdflatex tex stem save_final st = (Ok (pc, fr, path), st') ->
  exists pdf w',
    run_pdflatex stem tex (world st) = (Exited 0 (Some pdf), w')
    /\ reader_pages pdf = Ok pc
    /\ fr = calculate_fill_ratio (fitz_view pdf).
Proof.
  unfold compile_latex_to_pdf.
  destruct (run_pdflatex stem tex (world st)) as [outcome w].
  destruct outcome as [| |rc [pdf|]]; try discriminate.
  - destruct (Z.eqb_spec rc 0) as [->|Hrc]; cbn [negb]; [|discriminate].
    destruct (reader_pages pdf) as [n|e] eqn:Hn; [|discriminate].
    destruct save_final; cbn [negb]; intros [= <- <- _ _]; exists pdf, w; auto.
  - destruct (negb (rc =? 0)%Z); discriminate.
Qed.

(** C3, as amended. The fill ratio is computed by every render, whatever
    the page count. When the render reports more than one page, the
    decision does not depend on it: two EVALUATE steps that differ only in
    the fill ratio announce the same direction, address their request to
    the same system prompt and, when both return, agree on the control flow
    and on the recorded adjustment. The fill ratio is nevertheless part of
    the shorten request, quoted to two decimals in its prompt; two ratios
    that print alike give the same request and the same result. *)
Theorem C3_decision_ignores_fill_ratio :
  (forall (W : Type) (run_pdflatex : list N -> list N -> W -> pdflatex_outcome * W)
          (tex stem : list N) (save_final : bool) (st : state W)
          (pc : nat) (fr : Q) (path : option (list N)) (st' : state W),
     compile_latex_to_pdf run_pdflatex tex stem save_final st = (Ok (pc, fr, path), st') ->
     exists pdf w',
       run_pdflatex stem tex (world st) = (Exited 0 (Some pdf), w')
       /\ reader_pages pdf = Ok pc
       /\ fr = calculate_fill_ratio (fitz_view pdf))
  /\ (forall (W : Type) (api : list N -> list N -> W -> result (list N) * W)
             (jd : list N) (a : nat) (l : locals) (pc : nat) (fr1 fr2 : Q) (st : state W),
        (1 < pc)%nat ->
        let out1 := evaluate api jd a l pc fr1 st in
        let out2 := evaluate api jd a l pc fr2 st in
        directions (since st (snd out1)) = directions (since st (snd out2))
        /\ List.map snd (queries (since st (snd out1)))
           = List.map snd (queries (since st (snd out2)))
        /\ (forall c1 l1 c2 l2, fst out1 = Ok (c1, l1) -> fst out2 = Ok (c2, l2) ->
              c1 = c2 /\ adjustment_count l1 = adjustment_count l2
              /\ adjustment_type l1 = adjustment_type l2)
        /\ List.map fst (queries (since st (snd out1)))
           = (if (a <? max_optimization_attempts)%nat
              then [shorten_prompt (tailored_content l) jd fr1] else [])
        /\ (format_2f fr1 = format_2f fr2 ->
            fst out1 = fst out2
            /\ queries (since st (snd out1)) = queries (since st (snd out2)))).
Proof.
  split; [intros; eapply compile_measures; eauto|].
  intros W api jd a l pc fr1 fr2 st Hpc out1 out2. subst out1 out2.
  destruct (evaluate_too_long api jd a l pc fr1 st Hpc) as (D1 & Q1 & R1).
  destruct (evaluate_too_long api jd a l pc fr2 st Hpc) as (D2 & Q2 & R2).
  split; [congruence|]. split.
  { rewrite Q1, Q2. now destruct (a <? max_optimization_attempts)%nat. }
  split.
  { intros c1 l1 c2 l2 H1 H2. specialize (R1 _ _ H1). specialize (R2 _ _ H2).
    destruct (a <? max_optimization_attempts)%nat.
    - destruct R1 as (-> & -> & ->), R2 as (-> & -> & ->). repeat split.
    - destruct R1 as (-> & ->), R2 as (-> & ->). repeat split. }
  split.
  { rewrite Q1. now destruct (a <? max_optimization_attempts)%nat. }
  intros Hfmt. split.
  - destruct (Nat.ltb_spec a max_optimization_attempts) as [Ha|Ha].
    + rewrite !evaluate_too_long_retry by assumption.
      assert (E : forall fr,
                 fst (corrected_by shortened l
                        (shorten_resume api (tailored_content l) (content (current_resume st))
                           jd fr (emit (Print (TooLong pc)) (checked a pc fr st))))
                 = match fst (shorten_resume api (tailored_content l)
                                (content (current_resume st)) jd fr
                                (emit (Print (TooLong pc)) (checked a pc fr st))) with
                   | Ok new => Ok (Continue, MkLocals new (adjustment_count l + 1) (Some shortened))
                   | Raise e => Raise e
                   end).
      { intros fr. now destruct (shorten_resume _ _ _ _ _ _) as [[?|?] ?]. }
      rewrite !E, !shorten_result. cbn [world emit checked].
      now rewrite (shorten_prompt_format _ _ _ _ Hfmt).
    + now rewrite !evaluate_too_long_exhausted by assumption.
  - rewrite Q1, Q2. now rewrite (shorten_prompt_format _ _ _ _ Hfmt).
Qed.

(** C4, as amended. EVALUATE accepts, that is announces the success line
    alone, exactly when the render reports at most one page and a fill
    ratio between 0.88 and 0.96, bounds included; it then ends the search
    with the locals as they are and sends no request. A first render that
    complies ends the loop at attempt 0, after one render, with no
    adjustment made. *)
Theorem C4_accept_iff_compliant :
  (forall (W : Type) (api : list N -> list N -> W -> result (list N) * W)
          (jd : list N) (a : nat) (l : locals) (pc : nat) (fr : Q) (st : state W),
     let out := evaluate api jd a l pc fr st in
     (directions (since st (snd out)) = [ACCEPT]
      <-> (pc <= 1)%nat /\ MIN_FILL_RATIO <= fr /\ fr <= MAX_FILL_RATIO)
     /\ (directions (since st (snd out)) = [ACCEPT] ->
         fst out = Ok (Break, l) /\ queries (since st (snd out)) = []))
  /\ (forall (W : Type) (api : list N -> list N -> W -> result (list N) * W)
             (run_pdflatex : list N -> list N -> W -> pdflatex_outcome * W)
             (stem jd : list N) (l : locals) (st : state W)
             (pc : nat) (fr : Q) (path : option (list N)) (st1 : state W),
        compile_latex_to_pdf run_pdflatex (tailored_content l) stem false st
          = (Ok (pc, fr, path), st1) ->
        (pc <= 1)%nat -> MIN_FILL_RATIO <= fr -> fr <= MAX_FILL_RATIO ->
        optimization_loop api run_pdflatex stem jd l st
          = (Ok l, emit (Print (Optimized fr)) (emit (Print (CheckLine 0 pc fr)) st1))).
Proof.
  split.
  - intros W api jd a l pc fr st out. subst out.
    rewrite evaluate_directions, evaluate_queries.
    destruct (Nat.ltb_spec 1 pc) as [Hpc|Hpc].
    { split; [split; [discriminate | intros [H _]; lia] | discriminate]. }
    destruct (Qltb fr MIN_FILL_RATIO) eqn:Hmin.
    { apply Qltb_true in Hmin.
      split; [split|].
      - destruct (a <? max_optimization_attempts)%nat; discriminate.
      - intros (_ & H & _). exfalso. eapply Qlt_not_le; eauto.
      - destruct (a <? max_optimization_attempts)%nat; discriminate. }
    destruct (Qltb MAX_FILL_RATIO fr) eqn:Hmax.
    { apply Qltb_true in Hmax.
      split; [split|].
      - destruct (a <? max_optimization_attempts)%nat; discriminate.
      - intros (_ & _ & H). exfalso. eapply Qlt_not_le; eauto.
      - destruct (a <? max_optimization_attempts)%nat; discriminate. }
    split.
    + split; [intros _ | reflexivity].
      apply Qltb_false in Hmin, Hmax. auto.
    + intros _. rewrite evaluate_in_band by assumption. cbn [fst].
      split; [reflexivity | now destruct (a <? max_optimization_attempts)%nat].
  - intros W api run_pdflatex stem jd l st pc fr path st1 Hc Hpc Hmin Hmax.
    unfold optimization_loop. cbn [Nat.add max_optimization_attempts seq for_attempts].
    unfold mbind at 1, M_bind at 1, bind at 1.
    unfold loop_body, mbind at 1, M_bind at 1, bind at 1. rewrite Hc.
    rewrite evaluate_in_band; [reflexivity | exact Hpc | | ];
      apply Qltb_false; assumption.
Qed.

Lemma extends_unique {W : Type} (st st' : state W) d1 d2 :
  extends st st' d1 -> extends st st' d2 -> d1 = d2.
Proof.
  intros (_ & _ & H1) (_ & _ & H2). rewrite H1 in H2. now apply app_inv_head in H2.
Qed.

Lemma never_compliant_run {W : Type}
    (api : list N -> list N -> W -> result (list N) * W)
    (run_pdflatex : list N -> list N -> W -> pdflatex_outcome * W)
    (tailor_system_prompt : list N)
    (tailor_prompt : list N -> list N -> list N -> list N)
    (data : option (gmap (list N) (list N))) (st : state W)
    (p : payload) (st' : state W) :
  tailor_resume api run_pdflatex tailor_system_prompt tailor_prompt data st
    = (Success p, st') ->
  Forall not_compliant (checks (since st st')) ->
  let stem := filename_stem_of (filename (current_resume st)) in
  p_adjustment_count p = max_optimization_attempts
  /\ was_adjusted p = true
  /\ length (checks (since st st')) = 6%nat
  /\ (exists q corrections,
        queries (since st st') = q :: corrections
        /\ snd q = tailor_system_prompt
        /\ length corrections = max_optimization_attempts
        /\ Forall is_correction corrections)
  /\ length (renders (since st st')) = 7%nat
  /\ (exists tr pdf,
        since st st' = tr ++ [Pdflatex stem (tailored_resume p);
                              SavePdf (stem ++ lit ".pdf")]
        /\ compiled_folder st' !! (stem ++ lit ".pdf") = Some pdf
        /\ reader_pages pdf = Ok (p_page_count p)).
Proof.
  intros Hrun Hall stem.
  apply tailor_resume_cases in Hrun as [(_ & why & [=]) | (jd & r & Htry & Hresp)].
  destruct r as [p0|e]; [|discriminate]. injection Hresp as <-.
  apply tailor_try_spec in Htry as (_ & tailored & l & st1 & st2 & pdf & w' & dl & pc
                                    & Hq & Hloop & Hl & _ & Hpages & Hf & Ht & Hp).
  fold stem in Hq, Hloop, Hf, Ht, Hp.
  set (q := Query (tailor_prompt (content (current_resume st))
                     (default [] (rag_file st)) jd) tailor_system_prompt) in *.
  set (final := [Pdflatex stem (tailored_content l); SavePdf (stem ++ lit ".pdf")]) in *.
  assert (Hsince : since st st' = [q] ++ dl ++ final).
  { unfold since. destruct Hq as (_ & _ & Hq), Hl as (_ & _ & Hl).
    rewrite Ht, Hl, Hq, <- !app_assoc. apply drop_app_length. }
  rewrite Hsince in Hall |- *.
  rewrite !checks_app in Hall. apply Forall_app in Hall as [_ Hall].
  apply Forall_app in Hall as [Hall _].
  rewrite <- (extends_since _ _ _ Hl) in Hall.
  unfold optimization_loop in Hloop.
  destruct (search_never_compliant api run_pdflatex jd stem 5 0
              (MkLocals tailored 0 None) st1 l st2 eq_refl Hloop Hall)
    as (d & Hd & Hcount & Hck & Hql & Hqc & Hrl).
  rewrite (extends_unique _ _ _ _ Hd Hl) in *. clear Hd.
  rewrite !checks_app, !queries_app, !renders_app, !length_app, Hck, Hrl.
  subst p. cbn [p_adjustment_count was_adjusted tailored_resume p_page_count].
  rewrite Hcount.
  split; [reflexivity|]. split; [reflexivity|]. split; [reflexivity|].
  split.
  { exists (tailor_prompt (content (current_resume st)) (default [] (rag_file st)) jd,
            tailor_system_prompt), (queries dl).
    split; [|split; [reflexivity | split; [exact Hql | exact Hqc]]].
    change (queries [q]) with
      [(tailor_prompt (content (current_resume st)) (default [] (rag_file st)) jd,
        tailor_system_prompt)].
    change (queries final) with (@nil (list N * list N)).
    now rewrite app_nil_r. }
  split; [reflexivity|].
  exists ([q] ++ dl), pdf. split; [now rewrite <- app_assoc|].
  split; [rewrite Hf; apply lookup_insert_eq | exact Hpages].
Qed.

(** C2. A tailoring run always ends, and it succeeds when the generative
    service and the compiler do not fail. In a run that succeeds although
    none of the renders of its search complies, the loop corrects exactly
    five times: six renders are evaluated, the tailoring request is
    followed by five correction requests and no more, and the run ends
    with one more render, of the source it returns, whose PDF is stored
    under the document's name. *)
Theorem C2_five_corrections_then_final_render :
  forall (W : Type)
         (api : list N -> list N -> W -> result (list N) * W)
         (run_pdflatex : list N -> list N -> W -> pdflatex_outcome * W)
         (tailor_system_prompt : list N)
         (tailor_prompt : list N -> list N -> list N -> list N)
         (data : option (gmap (list N) (list N))) (st : state W),
    let run := tailor_resume api run_pdflatex tailor_system_prompt tailor_prompt data st in
    let stem := filename_stem_of (filename (current_resume st)) in
    (answers api -> compiles run_pdflatex ->
     (exists jd, data ≫= (fun d => d !! lit "job_description") = Some jd) ->
     content (current_resume st) <> [] ->
     exists p, fst run = Success p)
    /\ (forall p, fst run = Success p ->
        Forall not_compliant (checks (since st (snd run))) ->
        p_adjustment_count p = max_optimization_attempts
        /\ was_adjusted p = true
        /\ length (checks (since st (snd run))) = 6%nat
        /\ (exists q corrections,
              queries (since st (snd run)) = q :: corrections
              /\ snd q = tailor_system_prompt
              /\ length corrections = max_optimization_attempts
              /\ Forall is_correction corrections)
        /\ length (renders (since st (snd run))) = 7%nat
        /\ (exists tr pdf,
              since st (snd run) = tr ++ [Pdflatex stem (tailored_resume p);
                                          SavePdf (stem ++ lit ".pdf")]
              /\ compiled_folder (snd run) !! (stem ++ lit ".pdf") = Some pdf
              /\ reader_pages pdf = Ok (p_page_count p))).
Proof.
  intros W api run_pdflatex tailor_system_prompt tailor_prompt data st run stem.
  split.
  - intros Hapi Hrun [jd Hjd] Hne. eapply tailor_resume_ok; eauto.
  - intros p Hp Hall. apply (never_compliant_run api run_pdflatex tailor_system_prompt
                               tailor_prompt data st p (snd run)); [|exact Hall].
    rewrite <- Hp. subst run. now destruct (tailor_resume _ _ _ _ _ _).
Qed.


End LoopProps.

Module LoopExamples.
Import Str Num Layout Extractor Prompts Backend Runs Samples Sim LoopProps.
Local Open Scope Q_scope.

(** The simulated render of the specification: two pages, filled to 0.99. *)
Lemma C1_witness :
  (1 < 2)%nat
  /\ directions (since uploaded
       (snd (evaluate (api_const plain_document) job 0 start 2 0.99 uploaded)))
     = [SHORTEN]
  /\ queries (since uploaded
       (snd (evaluate (api_const plain_document) job 0 start 2 0.99 uploaded)))
     = [(shorten_prompt plain_document job 0.99, shorten_system_prompt)].
Proof.
  assert (H : (1 < 2)%nat) by lia.
  split; [exact H|].
  destruct (C1_page_count_forces_shorten (api_const plain_document) job 0 start 2 0.99
              uploaded H) as (D & Q & _).
  split; [exact D | exact Q].
Defined.

Lemma api_const_answers : answers (api_const plain_document).
Proof.
  intros prompt system_prompt w. exists plain_document, w.
  split; [reflexivity|]. intros original. exists plain_document. reflexivity.
Qed.

Lemma pdflatex_const_compiles pages percent : compiles (pdflatex_const (sim_pdf pages percent)).
Proof. intros stem tex w. exists (sim_pdf pages percent), w, pages. now split. Qed.

Lemma C2_witness :
  answers (api_const plain_document)
  /\ compiles (pdflatex_const (sim_pdf 2 99))
  /\ exists p,
       fst two_page_run = Success p
       /\ Forall not_compliant (checks (since uploaded (snd two_page_run)))
       /\ p_adjustment_count p = 5%nat
       /\ length (renders (since uploaded (snd two_page_run))) = 7%nat.
Proof.
  pose proof (C2_five_corrections_then_final_render unit
                (api_const plain_document) (pdflatex_const (sim_pdf 2 99))
                sim_system_prompt sim_prompt request uploaded) as [Hends Hfive].
  split; [exact api_const_answers|]. split; [apply pdflatex_const_compiles|].
  destruct (Hends api_const_answers (pdflatex_const_compiles 2 99)
              ltac:(exists job; reflexivity) ltac:(discriminate)) as [p Hp].
  exists p.
  assert (Hall : Forall not_compliant (checks (since uploaded (snd two_page_run))))
    by (vm_compute; repeat constructor).
  split; [exact Hp|]. split; [exact Hall|].
  destruct (Hfive p Hp Hall) as (Hcount & _ & _ & _ & Hrenders & _).
  split; [exact Hcount | exact Hrenders].
Defined.

(** A render of two pages, and two fill ratios that print alike: 0.99 and
    0.994. *)
Lemma C3_witness :
  compile_latex_to_pdf (pdflatex_const (sim_pdf 2 99)) plain_document (lit "cv") false uploaded
  = (Ok (2%nat, 0.99, None), emit (Pdflatex (lit "cv") plain_document) uploaded)
  /\ (1 < 2)%nat
  /\ (exists pdf, 0.99 = calculate_fill_ratio (fitz_view pdf))
  /\ directions (since uploaded
       (snd (evaluate (api_const plain_document) job 0 start 2 0.99 uploaded)))
     = directions (since uploaded
         (snd (evaluate (api_const plain_document) job 0 start 2 (994 # 1000) uploaded)))
  /\ (format_2f 0.99 = format_2f (994 # 1000) ->
      queries (since uploaded
        (snd (evaluate (api_const plain_document) job 0 start 2 0.99 uploaded)))
      = queries (since uploaded
          (snd (evaluate (api_const plain_document) job 0 start 2 (994 # 1000) uploaded)))).
Proof.
  assert (Hc : compile_latex_to_pdf (pdflatex_const (sim_pdf 2 99)) plain_document
                 (lit "cv") false uploaded
               = (Ok (2%nat, 0.99, None), emit (Pdflatex (lit "cv") plain_document) uploaded))
    by (vm_compute; reflexivity).
  assert (H : (1 < 2)%nat) by lia.
  destruct C3_decision_ignores_fill_ratio as [Hmeasure Hdecide].
  split; [exact Hc|]. split; [exact H|]. split.
  { destruct (Hmeasure _ _ _ _ _ _ _ _ _ _ Hc) as (pdf & _ & _ & _ & Hfr). now exists pdf. }
  destruct (Hdecide unit (api_const plain_document) job 0%nat start 2%nat
              0.99 (994 # 1000) uploaded H) as (D & _ & _ & _ & F).
  split; [exact D | intros E; exact (proj2 (F E))].
Defined.

(** C3 as the specification words it: with more than one page the fill
    ratio would be neither computed nor consulted. Both renders below show
    two pages; each reports the fill ratio of its first page, and the two
    shorten requests differ, because the prompt quotes that ratio. *)
Lemma C3_counterexample :
  fst (compile_latex_to_pdf (pdflatex_const (sim_pdf 2 99))
         plain_document (lit "cv") false uploaded)
  = Ok (2%nat, 0.99, None)
  /\ fst (compile_latex_to_pdf (pdflatex_const (sim_pdf 2 50))
            plain_document (lit "cv") false uploaded)
     = Ok (2%nat, 50 # 100, None)
  /\ queries (trace (snd (loop_body (api_const plain_document) (pdflatex_const (sim_pdf 2 99))
                            (lit "cv") job 0 start uploaded)))
     = [(shorten_prompt plain_document job 0.99, shorten_system_prompt)]
  /\ queries (trace (snd (loop_body (api_const plain_document) (pdflatex_const (sim_pdf 2 50))
                            (lit "cv") job 0 start uploaded)))
     = [(shorten_prompt plain_document job (50 # 100), shorten_system_prompt)]
  /\ shorten_prompt plain_document job 0.99 <> shorten_prompt plain_document job (50 # 100).
Proof.
  split; [vm_compute; reflexivity|].
  split; [vm_compute; reflexivity|].
  split; [vm_compute; reflexivity|].
  split; [vm_compute; reflexivity|].
  intros H. vm_compute in H. discriminate H.
Qed.

(** A first render of one page, filled to 0.92, and the two bounds. *)
Lemma C4_witness :
  compile_latex_to_pdf (pdflatex_const (sim_pdf 1 92)) (tailored_content start)
                       (lit "cv") false uploaded
  = (Ok (1%nat, 0.92, None), emit (Pdflatex (lit "cv") plain_document) uploaded)
  /\ (1 <= 1)%nat /\ MIN_FILL_RATIO <= 0.92 /\ 0.92 <= MAX_FILL_RATIO
  /\ fst (optimization_loop (api_const plain_document) (pdflatex_const (sim_pdf 1 92))
            (lit "cv") job start uploaded) = Ok start
  /\ adjustment_count start = 0%nat
  /\ directions (since uploaded
       (snd (evaluate (api_const plain_document) job 0 start 1 0.88 uploaded))) = [ACCEPT]
  /\ directions (since uploaded
       (snd (evaluate (api_const plain_document) job 0 start 1 0.96 uploaded))) = [ACCEPT].
Proof.
  assert (Hc : compile_latex_to_pdf (pdflatex_const (sim_pdf 1 92)) (tailored_content start)
                 (lit "cv") false uploaded
               = (Ok (1%nat, 0.92, None), emit (Pdflatex (lit "cv") plain_document) uploaded))
    by (vm_compute; reflexivity).
  assert (H1 : (1 <= 1)%nat) by lia.
  assert (H2 : MIN_FILL_RATIO <= 0.92) by (vm_compute; discriminate).
  assert (H3 : 0.92 <= MAX_FILL_RATIO) by (vm_compute; discriminate).
  destruct C4_accept_iff_compliant as [Hiff Hloop].
  split; [exact Hc|]. split; [exact H1|]. split; [exact H2|]. split; [exact H3|].
  split.
  { rewrite (Hloop unit (api_const plain_document) (pdflatex_const (sim_pdf 1 92))
               (lit "cv") job start uploaded 1%nat 0.92 None _ Hc H1 H2 H3).
    reflexivity. }
  split; [reflexivity|].
  split.
  - apply (Hiff unit (api_const plain_document) job 0%nat start 1%nat 0.88 uploaded).
    split; [lia | split; vm_compute; discriminate].
  - apply (Hiff unit (api_const plain_document) job 0%nat start 1%nat 0.96 uploaded).
    split; [lia | split; vm_compute; discriminate].
Defined.

(** C4 as the specification words it: the search ends without a correction
    exactly when the page count is 1 and the fill ratio lies in the band.
    The loop tests [page_count > 1], so a PDF without pages, whose
    measurement falls back to 0.9, is accepted as well; and at the last
    attempt a one-page render filled to 0.50 ends the search without a
    correction, under the success line, although it is outside the band. *)
Lemma C4_counterexample :
  (fst (compile_latex_to_pdf (pdflatex_const empty_pdf) plain_document (lit "cv") false uploaded)
   = Ok (0%nat, 0.9, None)
   /\ fst (loop_body (api_const plain_document) (pdflatex_const empty_pdf)
             (lit "cv") job 0 start uploaded) = Ok (Break, start)
   /\ directions (trace (snd (loop_body (api_const plain_document) (pdflatex_const empty_pdf)
                                (lit "cv") job 0 start uploaded))) = [ACCEPT]
   /\ 0%nat <> 1%nat)
  /\ (fst (compile_latex_to_pdf (pdflatex_const (sim_pdf 1 50)) plain_document (lit "cv")
             false uploaded)
      = Ok (1%nat, 50 # 100, None)
      /\ fst (loop_body (api_const plain_document) (pdflatex_const (sim_pdf 1 50))
                (lit "cv") job 5 start uploaded) = Ok (Break, start)
      /\ queries (trace (snd (loop_body (api_const plain_document)
                                (pdflatex_const (sim_pdf 1 50))
                                (lit "cv") job 5 start uploaded))) = []
      /\ directions (trace (snd (loop_body (api_const plain_document)
                                   (pdflatex_const (sim_pdf 1 50))
                                   (lit "cv") job 5 start uploaded))) = [EXPAND; ACCEPT]
      /\ ~ MIN_FILL_RATIO <= 50 # 100).
Proof.
  split.
  - split; [vm_compute; reflexivity|].
    split; [vm_compute; reflexivity|].
    split; [vm_compute; reflexivity|].
    discriminate.
  - split; [vm_compute; reflexivity|].
    split; [vm_compute; reflexivity|].
    split; [vm_compute; reflexivity|].
    split; [vm_compute; reflexivity|].
    intros H. vm_compute in H. now apply H.
Qed.



End LoopExamples.

Module SimTests.
Import Str Num Layout Backend Samples Sim Runs.
Local Open Scope Q_scope.

Example upload_stores_resume :
  uploaded = MkState (MkResume reference_document (lit "cv.tex") (lit "tex"))
                     (Some reference_document) None ∅ tt [].
Proof. vm_compute. reflexivity. Qed.

Example upload_rejects_pdf :
  fst (upload_file (fun name => name) (Some (lit "cv.pdf", Ok reference_document)) fresh)
  = UploadRejected.
Proof. vm_compute. reflexivity. Qed.

Example render_2_099 :
  fst (compile_latex_to_pdf (pdflatex_const (sim_pdf 2 99)) plain_document (lit "cv") false uploaded)
  = Ok (2%nat, 0.99, None).
Proof. vm_compute. reflexivity. Qed.

Example run_never_compliant :
  match tailor_resume (api_const plain_document) (pdflatex_const (sim_pdf 2 99))
                      sim_system_prompt sim_prompt request uploaded with
  | (Success p, st') =>
      p_adjustment_count p = 5%nat /\ length (queries (trace st')) = 6%nat
      /\ length (renders (trace st')) = 7%nat
      /\ directions (trace st') = [SHORTEN; SHORTEN; SHORTEN; SHORTEN; SHORTEN; SHORTEN]
  | _ => False
  end.
Proof. vm_compute. repeat split. Qed.

(** Too long, too sparse and too dense renders in turn: five corrections,
    then the search stops and the seventh render is the final one. *)
Example run_mixed_never_compliant :
  match tailor_resume api_scripted pdflatex_scripted sim_system_prompt sim_prompt request
          (uploaded_with [(2%nat, 99%Z); (1%nat, 50%Z); (1%nat, 97%Z); (3%nat, 10%Z);
                          (1%nat, 0%Z); (1%nat, 100%Z); (1%nat, 100%Z)]) with
  | (Success p, st') =>
      p_adjustment_count p = 5%nat /\ p_adjustment_type p = Some expanded
      /\ length (queries (trace st')) = 6%nat
      /\ length (renders (trace st')) = 7%nat
      /\ directions (trace st')
         = [SHORTEN; EXPAND; SHORTEN; SHORTEN; EXPAND; SHORTEN; ACCEPT]
      /\ world st' = []
  | _ => False
  end.
Proof. vm_compute. repeat split. Qed.

Example run_sparse_at_last_attempt :
  directions (trace (snd (loop_body (api_const plain_document) (pdflatex_const (sim_pdf 1 50))
                                    (lit "cv") job 5 start uploaded)))
  = [EXPAND; ACCEPT].
Proof. vm_compute. reflexivity. Qed.

End SimTests.

(* ===================================================================== *)
(** ** More facts about strings and matches *)
(* ===================================================================== *)

Module StrMore.
Import Str Re Spec StrFacts ReFacts ExtractorFacts Prompts.

Lemma startswith_prefix p u v : startswith p u = true -> startswith p (u ++ v) = true.
Proof.
  rewrite !startswith_true. intros [q ->]. exists (q ++ v). now rewrite app_assoc.
Qed.

Lemma find_from_None_any sub s i j : find_from sub s i = None -> find_from sub s j = None.
Proof.
  revert i j; induction s as [|x s IH]; intros i j; cbn [find_from].
  - now destruct (startswith sub []).
  - destruct (startswith sub (x :: s)); [discriminate|]. apply IH.
Qed.

(** [find] reports the first occurrence: none begins before it. *)
Lemma find_from_first sub s i j k :
  sub <> [] -> find_from sub s i = Some j -> find_from sub (take (j - i) s) k = None.
Proof.
  intros Hsub. revert i k. induction s as [|x s IH]; intros i k; cbn [find_from].
  - destruct sub; [congruence | discriminate].
  - destruct (startswith sub (x :: s)) eqn:E.
    + intros [= <-]. rewrite Nat.sub_diag. destruct sub; [congruence | reflexivity].
    + intros H. pose proof (find_from_Some _ _ _ _ H) as (p & q & _ & ->).
      replace (S i + length p - i)%nat with (S (length p)) by lia.
      cbn [take find_from].
      destruct (startswith sub (x :: take (length p) s)) eqn:E'.
      * apply (startswith_prefix _ _ (drop (length p) s)) in E'.
        simpl in E'. rewrite take_drop in E'. congruence.
      * specialize (IH (S i) (S k) H).
        replace (S i + length p - S i)%nat with (length p) in IH by lia. exact IH.
Qed.

Lemma lstrip_head a s : isspace a = false -> lstrip (a :: s) = a :: s.
Proof. intros H. simpl. now rewrite H. Qed.

Lemma lstrip_cons_keeps p a s :
  isspace a = false ->
  exists w p', p = w ++ p' /\ lstrip (p ++ a :: s) = p' ++ a :: s.
Proof.
  intros Ha. induction p as [|c p (w & p' & Hp & IH)]; simpl.
  - rewrite Ha. now exists [], [].
  - destruct (isspace c).
    + exists (c :: w), p'. split; [simpl; now f_equal | exact IH].
    + now exists [], (c :: p).
Qed.

Lemma rstrip_cons_keeps s z q :
  isspace z = false -> exists q', rstrip (s ++ z :: q) = s ++ z :: q'.
Proof.
  intros Hz. destruct (rstrip_keeps [] z s q Hz) as [q' H]. now exists q'.
Qed.

(** The letters of the markers that have no second case. *)
Lemma ci_eqb_caseless c x :
  (c < 65 \/ 122 < c \/ 90 < c < 97)%N -> ci_eqb c x = true -> x = c.
Proof.
  unfold ci_eqb, lower. intros Hc.
  destruct (N.leb_spec 65 c), (N.leb_spec c 90), (N.leb_spec 65 x), (N.leb_spec x 90);
    cbn [andb]; rewrite N.eqb_eq; lia.
Qed.

Lemma ci_eqb_refl c : ci_eqb c c = true.
Proof. apply N.eqb_refl. Qed.

Lemma ci_eqb_96 x : ci_eqb 96 x = (96 =? x)%N.
Proof.
  destruct (N.eqb_spec 96 x) as [<-|Hne]; [reflexivity|].
  destruct (ci_eqb 96 x) eqn:E; [|reflexivity].
  apply ci_eqb_backtick in E. congruence.
Qed.

Lemma ci_startswith_refl l s : ci_startswith l (l ++ s) = true.
Proof. induction l as [|c l IH]; simpl; [reflexivity|]. now rewrite ci_eqb_refl. Qed.

Lemma ci_startswith_prefix l u v :
  ci_startswith l u = true -> ci_startswith l (u ++ v) = true.
Proof.
  revert u; induction l as [|c l IH]; intros u; [reflexivity|].
  destruct u as [|x u]; simpl; [discriminate|].
  rewrite !andb_true_iff. intros [H1 H2]. split; [exact H1 | now apply IH].
Qed.

Lemma ci_startswith_length l s : ci_startswith l s = true -> (length l <= length s)%nat.
Proof.
  revert s; induction l as [|c l IH]; intros s; simpl; [lia|].
  destruct s as [|x s]; [discriminate|].
  rewrite andb_true_iff. intros [_ H%IH]. simpl. lia.
Qed.

Lemma ci_startswith_last l c r :
  ci_startswith (l ++ [c]) r = true -> length r = length (l ++ [c]) ->
  exists r' x, r = r' ++ [x] /\ ci_eqb c x = true.
Proof.
  revert r; induction l as [|a l IH]; intros r; simpl.
  - destruct r as [|x [|y r]]; try discriminate.
    rewrite andb_true_iff. intros [H _] _. now exists [], x.
  - destruct r as [|y r]; [discriminate|].
    rewrite andb_true_iff. intros [_ H] [= Hlen].
    destruct (IH r H Hlen) as (r' & x & -> & Hx). now exists (y :: r'), x.
Qed.

Lemma ci_find_from_hit l s i : ci_startswith l s = true -> ci_find_from l s i = Some i.
Proof. intros H. destruct s; cbn [ci_find_from]; now rewrite H. Qed.

Lemma ci_find_from_Some l s i j :
  ci_find_from l s i = Some j ->
  exists p r, s = p ++ r /\ j = (i + length p)%nat /\ ci_startswith l r = true.
Proof.
  revert i; induction s as [|x s IH]; intros i; cbn [ci_find_from].
  - destruct (ci_startswith l []) eqn:E; [|discriminate].
    intros [= <-]. exists [], []. repeat split; [simpl; lia | exact E].
  - destruct (ci_startswith l (x :: s)) eqn:E.
    + intros [= <-]. exists [], (x :: s). repeat split; [simpl; lia | exact E].
    + intros H. apply IH in H as (p & r & -> & -> & Hr).
      exists (x :: p), r. repeat split; [simpl; lia | exact Hr].
Qed.

(** The first occurrence of a word is still the first one in the text cut
    right after it. *)
Lemma ci_find_from_cut l s i j :
  ci_find_from l s i = Some j ->
  ci_find_from l (take (j - i + length l) s) i = Some j.
Proof.
  revert i; induction s as [|x s IH]; intros i; cbn [ci_find_from].
  - destruct (ci_startswith l []) eqn:E; [|discriminate].
    intros [= <-]. rewrite take_nil. now apply ci_find_from_hit.
  - destruct (ci_startswith l (x :: s)) eqn:E.
    + intros [= <-]. rewrite Nat.sub_diag. apply ci_find_from_hit.
      rewrite <- (take_drop (length l) (x :: s)) in E.
      rewrite ci_startswith_app in E; [exact E|].
      rewrite length_take. apply ci_startswith_length in E.
      rewrite take_drop in E. lia.
    + intros H. pose proof (ci_find_from_Some _ _ _ _ H) as (p & r & _ & Hj & _).
      replace (j - i + length l)%nat with (S (j - S i + length l)) by lia.
      cbn [take ci_find_from].
      destruct (ci_startswith l (x :: take (j - S i + length l) s)) eqn:E'.
      * apply (ci_startswith_prefix _ _ (drop (j - S i + length l) s)) in E'.
        simpl in E'. rewrite take_drop in E'. congruence.
      * now apply IH.
Qed.

(** An occurrence inside the first part of a concatenation is found there. *)
Lemma ci_find_from_app_Some c l p x b i j :
  Forall (fun c' => ci_eqb c' x = false) l ->
  ci_find_from (c :: l) p i = Some j ->
  ci_find_from (c :: l) (p ++ x :: b) i = Some j.
Proof.
  intros Hall. revert i; induction p as [|y p IH]; intros i.
  - cbn [ci_find_from]. discriminate.
  - cbn [ci_find_from]. destruct (ci_startswith (c :: l) (y :: p)) eqn:E.
    + intros [= <-]. apply ci_find_from_hit. now apply ci_startswith_prefix.
    + intros H. change ((y :: p) ++ x :: b) with (y :: (p ++ x :: b)).
      cbn [ci_find_from].
      destruct (ci_startswith (c :: l) (y :: p ++ x :: b)) eqn:E'.
      * exfalso. change (y :: p ++ x :: b) with ((y :: p) ++ x :: b) in E'.
        pose proof (ci_startswith_straddle c l (y :: p) x b Hall ltac:(discriminate) E')
          as Hlen.
        rewrite ci_startswith_app in E' by exact Hlen. congruence.
      * now apply IH.
Qed.

(** *** Matching a pattern that begins with literals *)

Lemma search_from_cons re x s i :
  search_from re (x :: s) i =
  match match_here re (x :: s) with
  | Some (g, n) => Some (MkMatch i (i + n) g)
  | None => search_from re s (S i)
  end.
Proof. reflexivity. Qed.

Lemma search_from_hit re s i g n :
  match_here re s = Some (g, n) -> search_from re s i = Some (MkMatch i (i + n) g).
Proof. intros H. destruct s; simpl; now rewrite H. Qed.

Lemma search_from_skip c re pre s i :
  Forall (fun x => ci_eqb c x = false) pre ->
  search_from (Lit c :: re) (pre ++ s) i = search_from (Lit c :: re) s (i + length pre).
Proof.
  intros Hall. revert i; induction Hall as [|x pre Hx Hall IH]; intros i.
  - simpl. now rewrite Nat.add_0_r.
  - change ((x :: pre) ++ s) with (x :: (pre ++ s)).
    rewrite search_from_cons, match_here_lit, Hx, IH. f_equal. simpl. lia.
Qed.

Lemma match_lits_then l re s :
  match_here (List.map Lit l ++ re) s =
  if ci_startswith l s
  then match match_here re (drop (length l) s) with
       | Some (g, n) => Some (g, (length l + n)%nat)
       | None => None
       end
  else None.
Proof.
  revert s; induction l as [|c l IH]; intros s.
  - simpl. rewrite drop_0. now destruct (match_here re s) as [[g n]|].
  - change (List.map Lit (c :: l) ++ re) with (Lit c :: (List.map Lit l ++ re)).
    destruct s as [|x s]; [reflexivity|].
    rewrite match_here_lit. cbn [ci_startswith length drop].
    destruct (ci_eqb c x); [|reflexivity]. cbn [andb]. rewrite IH.
    destruct (ci_startswith l s); [|reflexivity].
    now destruct (match_here re (drop (length l) s)) as [[g n]|].
Qed.

(** The lazy group ends at the first occurrence of the literals after it. *)
Lemma match_lazy_lits l s :
  match_here (LazyAny :: List.map Lit l) s =
  match ci_find_from l s 0 with
  | Some j => Some (take j s, (j + length l)%nat)
  | None => None
  end.
Proof.
  induction s as [|x s IH]; rewrite match_here_lazy, match_lits; cbn [ci_find_from].
  - destruct (ci_startswith l []); reflexivity.
  - destruct (ci_startswith l (x :: s)); [reflexivity|].
    rewrite IH. change 1%nat with (0 + 1)%nat at 1. rewrite (ci_find_from_shift l s 0 1).
    destruct (ci_find_from l s 0) as [j|]; cbn [fmap option_fmap option_map]; [|reflexivity].
    rewrite Nat.add_1_r. reflexivity.
Qed.

(** *** Code fences *)

Lemma ci_startswith_fence s :
  ci_startswith [96; 96; 96]%N s = startswith [96; 96; 96]%N s.
Proof.
  destruct s as [|a [|b [|c s]]]; cbn [ci_startswith startswith];
    rewrite ?ci_eqb_96; reflexivity.
Qed.

Lemma ci_find_from_fence s i :
  ci_find_from [96; 96; 96]%N s i = find_from [96; 96; 96]%N s i.
Proof.
  revert i; induction s as [|x s IH]; intros i; cbn [ci_find_from find_from];
    rewrite ci_startswith_fence; [reflexivity|]. now rewrite IH.
Qed.

Lemma fence_not_straddling u v :
  startswith [96; 96; 96]%N u = false ->
  startswith [96; 96; 96]%N (u ++ 10%N :: v) = false.
Proof.
  destruct u as [|a [|b [|c u]]]; cbn [startswith app]; intros H.
  - reflexivity.
  - destruct (96 =? a)%N; reflexivity.
  - destruct (96 =? a)%N, (96 =? b)%N; reflexivity.
  - exact H.
Qed.

(** The fence that closes a fenced text without fences of its own. *)
Lemma find_closing_fence doc q i :
  find_from [96; 96; 96]%N doc 0 = None ->
  find_from [96; 96; 96]%N (doc ++ 10%N :: [96; 96; 96]%N ++ q) i
  = Some (i + length doc + 1)%nat.
Proof.
  revert i; induction doc as [|x d IH]; intros i H.
  - simpl. f_equal. lia.
  - cbn [find_from] in H.
    destruct (startswith [96; 96; 96]%N (x :: d)) eqn:E; [discriminate|].
    change ((x :: d) ++ 10%N :: [96; 96; 96]%N ++ q)
      with (x :: (d ++ 10%N :: [96; 96; 96]%N ++ q)).
    cbn [find_from].
    change (x :: d ++ 10%N :: [96; 96; 96]%N ++ q)
      with ((x :: d) ++ 10%N :: [96; 96; 96]%N ++ q).
    rewrite (fence_not_straddling _ _ E).
    rewrite IH by (eapply find_from_None_any; exact H).
    f_equal. simpl. lia.
Qed.

Lemma rstrip_newline d z : isspace z = false -> rstrip ((d ++ [z]) ++ nl) = d ++ [z].
Proof.
  intros Hz. unfold rstrip, nl. rewrite !rev_app_distr. simpl.
  rewrite Hz. simpl. now rewrite rev_involutive.
Qed.

End StrMore.

Module ExtractorMore.
Import Str Re Spec StrFacts ReFacts StrMore Extractor ExtractorFacts ExtractorProps Prompts.

Lemma end_marker_shape : END_DOCUMENT = lit "\end{document" ++ [125%N].
Proof. reflexivity. Qed.

(** A text that ends with its end marker ends with a closing brace. *)
Lemma ends_with_brace doc m :
  search end_doc_pattern doc = Some m -> m_end m = length doc ->
  exists d, doc = d ++ [125%N].
Proof.
  unfold search, end_doc_pattern, lits.
  change (lit "\end{document}") with END_DOCUMENT. rewrite search_lits.
  destruct (ci_find_from END_DOCUMENT doc 0) as [j|] eqn:E; [|discriminate].
  intros [= <-]. cbn [m_end]. intros Hlen.
  apply ci_find_from_Some in E as (p & r & -> & -> & Hr).
  rewrite length_app in Hlen. cbn [Nat.add] in Hlen.
  rewrite end_marker_shape in Hr.
  apply ci_startswith_last in Hr as (r' & x & -> & Hx).
  - apply (ci_eqb_caseless 125 x ltac:(lia)) in Hx. subst x. exists (p ++ r'). now rewrite app_assoc.
  - rewrite <- end_marker_shape. change (length END_DOCUMENT) with 14%nat. lia.
Qed.

Lemma cut_after_end_idem t : cut_after_end (cut_after_end t) = cut_after_end t.
Proof.
  rewrite (cut_after_end_find t).
  destruct (ci_find_from END_DOCUMENT t 0) as [j|] eqn:E.
  - rewrite cut_after_end_find.
    pose proof (ci_find_from_cut _ _ _ _ E) as E'. rewrite Nat.sub_0_r in E'.
    rewrite E'. rewrite take_take. f_equal. lia.
  - rewrite cut_after_end_find, E. reflexivity.
Qed.

(** What the extractor returns passed its validation after the cut. *)
Lemma extract_closed reply ref t :
  extract_latex_from_response reply ref = Ok t ->
  has_marker t = true /\ cut_after_end t = t.
Proof.
  unfold extract_latex_from_response.
  set (x := locate_start _ ref).
  destruct (negb (contains DOCUMENTCLASS (cut_after_end x))
            && negb (contains BEGIN_DOCUMENT (cut_after_end x))) eqn:E;
    [discriminate|].
  intros [= <-]. split; [|apply cut_after_end_idem].
  unfold has_marker.
  destruct (contains DOCUMENTCLASS (cut_after_end x)),
           (contains BEGIN_DOCUMENT (cut_after_end x)); try reflexivity; discriminate.
Qed.

(** A reply without a marker is refused. *)
Lemma extract_no_marker reply ref :
  contains DOCUMENTCLASS reply = false -> contains BEGIN_DOCUMENT reply = false ->
  extract_latex_from_response reply ref = Raise ExtractionError.
Proof.
  intros Hd Hb. unfold extract_latex_from_response.
  set (text := strip_fences fence_patterns (strip reply)).
  assert (Hsub : substring text reply).
  { eapply substring_trans; [apply strip_fences_substring | apply strip_substring]. }
  assert (Hd' : contains DOCUMENTCLASS text = false) by (eapply contains_absent; eauto).
  assert (Hb' : contains BEGIN_DOCUMENT text = false) by (eapply contains_absent; eauto).
  unfold locate_start. rewrite Hd', Hb'.
  rewrite (contains_absent _ _ _ (cut_after_end_substring text) Hd').
  rewrite (contains_absent _ _ _ (cut_after_end_substring text) Hb').
  reflexivity.
Qed.

Lemma documentclass_shape : DOCUMENTCLASS = (92%N :: lit "documentclas") ++ [115%N].
Proof. reflexivity. Qed.

(** A marker of the reply is still there in the working text. *)
Lemma working_text_marker reply :
  has_marker reply = true ->
  has_marker (strip_fences fence_patterns (strip reply)) = true.
Proof.
  intros H.
  destruct (strip_fences_cases fence_patterns (strip reply)) as [-> | [Hm _]];
    [|exact Hm].
  unfold has_marker in *. apply orb_true_iff in H as [H | H].
  - apply orb_true_iff. left. apply contains_true. rewrite documentclass_shape.
    apply strip_keeps; [reflexivity | reflexivity |].
    rewrite <- documentclass_shape. now apply contains_true.
  - apply orb_true_iff. right. apply contains_true. rewrite begin_marker_shape.
    apply strip_keeps; [reflexivity | reflexivity |].
    rewrite <- begin_marker_shape. now apply contains_true.
Qed.

(** After the cut nothing follows the first end marker. *)
Lemma cut_after_end_closed t m :
  search end_doc_pattern (cut_after_end t) = Some m ->
  m_end m = length (cut_after_end t).
Proof.
  unfold search, end_doc_pattern, lits.
  change (lit "\end{document}") with END_DOCUMENT. rewrite search_lits.
  rewrite (cut_after_end_find t).
  destruct (ci_find_from END_DOCUMENT t 0) as [j|] eqn:E.
  - pose proof (ci_find_from_cut _ _ _ _ E) as E'. rewrite Nat.sub_0_r in E'.
    rewrite E'. intros [= <-]. cbn [m_end].
    apply ci_find_from_Some in E as (p & r & -> & -> & Hr).
    apply ci_startswith_length in Hr.
    rewrite length_take, length_app.
    change (length END_DOCUMENT) with 14%nat in *. simpl. lia.
  - rewrite E. discriminate.
Qed.

(** The cut keeps a leading [\documentclass]. *)
Lemma cut_after_end_documentclass rest :
  exists rest', cut_after_end (DOCUMENTCLASS ++ rest) = DOCUMENTCLASS ++ rest'.
Proof.
  rewrite cut_after_end_find.
  assert (E : ci_find_from END_DOCUMENT (DOCUMENTCLASS ++ rest) 0
              = ci_find_from END_DOCUMENT rest (length DOCUMENTCLASS))
    by reflexivity.
  rewrite E. destruct (ci_find_from END_DOCUMENT rest _) as [j|] eqn:Ej.
  - apply ci_find_from_ge in Ej.
    replace (j + length END_DOCUMENT)%nat
      with (length DOCUMENTCLASS + (j - length DOCUMENTCLASS + length END_DOCUMENT))%nat
      by lia.
    rewrite take_app_add. eauto.
  - eauto.
Qed.

(** The cut of a spliced document falls inside the preamble when the
    preamble holds an end marker. *)
Lemma cut_after_end_inside p b j :
  ci_find_from END_DOCUMENT p 0 = Some j ->
  cut_after_end (p ++ 92%N :: b) = take (j + length END_DOCUMENT) p.
Proof.
  intros Hp. rewrite cut_after_end_find.
  change END_DOCUMENT with (92%N :: List.tl END_DOCUMENT) at 1.
  rewrite (ci_find_from_app_Some _ _ _ _ _ _ _ end_marker_tail Hp).
  apply ci_find_from_Some in Hp as (u & r & -> & -> & Hr).
  apply ci_startswith_length in Hr.
  rewrite take_app_le; [reflexivity|]. rewrite length_app.
  change (length END_DOCUMENT) with 14%nat in *. simpl. lia.
Qed.

Lemma begin_nonempty : BEGIN_DOCUMENT <> [].
Proof. intros H. apply (f_equal length) in H. discriminate H. Qed.

Lemma preamble_no_begin original :
  contains BEGIN_DOCUMENT (extract_preamble_from_original original) = false.
Proof.
  unfold extract_preamble_from_original.
  destruct (contains BEGIN_DOCUMENT original) eqn:C; [|reflexivity].
  unfold contains in C. unfold find.
  destruct (find_from BEGIN_DOCUMENT original 0) as [j|] eqn:E; [|discriminate].
  rewrite Nat2Z.id. unfold slice_to, contains.
  rewrite <- (Nat.sub_0_r j) at 1.
  now rewrite (find_from_first _ _ _ _ 0 begin_nonempty E).
Qed.

(** The search finds the fenced document in a reply of the usual shape. *)
Lemma search_latex_fence pre doc post :
  Forall (fun c => c <> 96%N) pre ->
  startswith DOCUMENTCLASS doc = true ->
  contains FENCE doc = false ->
  exists m,
    search (lits "```latex" ++ [SpaceStar; Lit 10; LazyAny] ++ lits "```")
           (pre ++ lit "```latex" ++ nl ++ doc ++ nl ++ FENCE ++ post) = Some m
    /\ m_group1 m = doc ++ nl.
Proof.
  intros Hpre Hstart Hfence.
  apply startswith_true in Hstart as [rest ->].
  set (doc := DOCUMENTCLASS ++ rest) in *.
  unfold search.
  change (lits "```latex" ++ [SpaceStar; Lit 10; LazyAny] ++ lits "```")
    with (Lit 96 :: (List.map Lit (lit "``latex")
                     ++ [SpaceStar; Lit 10; LazyAny] ++ List.map Lit FENCE)).
  rewrite search_from_skip.
  2:{ eapply Forall_impl; [exact Hpre|]. intros x Hx. cbn beta.
      rewrite ci_eqb_96. apply N.eqb_neq. congruence. }
  change (Lit 96 :: (List.map Lit (lit "``latex")
                     ++ [SpaceStar; Lit 10; LazyAny] ++ List.map Lit FENCE))
    with (List.map Lit (lit "```latex")
          ++ [SpaceStar; Lit 10; LazyAny] ++ List.map Lit FENCE).
  eexists. split.
  - apply search_from_hit.
    rewrite match_lits_then, ci_startswith_refl, drop_app_length.
    change ([SpaceStar; Lit 10; LazyAny] ++ List.map Lit FENCE)
      with (SpaceStar :: Lit 10 :: LazyAny :: List.map Lit FENCE).
    change (nl ++ doc ++ nl ++ FENCE ++ post)
      with (10%N :: 92%N :: (List.tl doc ++ nl ++ FENCE ++ post)).
    rewrite match_here_star_cons. change (isspace 10) with true. cbv iota.
    rewrite match_here_star_cons. change (isspace 92) with false. cbv iota.
    rewrite (match_here_lit 10 _ 92). change (ci_eqb 10 92) with false. cbv iota.
    rewrite match_here_lit. change (ci_eqb 10 10) with true. cbv iota.
    change (92%N :: (List.tl doc ++ nl ++ FENCE ++ post))
      with (doc ++ 10%N :: [96; 96; 96]%N ++ post).
    rewrite match_lazy_lits. change FENCE with [96; 96; 96]%N.
    rewrite ci_find_from_fence, find_closing_fence.
    + reflexivity.
    + unfold contains in Hfence. change FENCE with [96; 96; 96]%N in Hfence.
      now destruct (find_from [96; 96; 96]%N doc 0).
  - cbn [m_group1]. rewrite Nat.add_0_l.
    replace (doc ++ 10%N :: [96; 96; 96]%N ++ post)
      with ((doc ++ nl) ++ [96; 96; 96]%N ++ post)
      by (now rewrite <- app_assoc).
    replace (length doc + 1)%nat with (length (doc ++ nl))
      by (rewrite length_app; reflexivity).
    now rewrite take_app_length.
Qed.

End ExtractorMore.

Module ExtractorExtras.
Import Str Re Spec StrFacts ReFacts StrMore Extractor ExtractorFacts ExtractorProps.
Import ExtractorMore Prompts Samples MoreSamples.

(** X1. [extract_preamble_from_original] splits the reference source at
    its first [\begin{document}]: the preamble holds no [\begin{document}],
    it is empty when the reference has none, and otherwise the reference is
    the preamble, the marker and a rest. *)
Theorem X1_preamble_splits_reference (original : list N) :
  let preamble := extract_preamble_from_original original in
  contains BEGIN_DOCUMENT preamble = false
  /\ (contains BEGIN_DOCUMENT original = false -> preamble = [])
  /\ (contains BEGIN_DOCUMENT original = true ->
      exists rest, original = preamble ++ BEGIN_DOCUMENT ++ rest).
Proof.
  cbn zeta. split; [apply preamble_no_begin|].
  unfold extract_preamble_from_original, contains, find.
  destruct (find_from BEGIN_DOCUMENT original 0) as [j|] eqn:E.
  - split; [discriminate|]. intros _.
    apply find_from_Some in E as (p & q & -> & ->).
    exists q. rewrite Nat2Z.id. unfold slice_to. simpl.
    now rewrite take_app_length.
  - split; [reflexivity | discriminate].
Qed.

(** X2. Whatever the reply and the reference are, a text the extractor
    returns holds [\documentclass] or [\begin{document}], and nothing
    follows its first end-of-document marker: the match of the marker, if
    there is one, ends where the text ends. *)
Theorem X2_extracted_text_is_closed (reply ref t : list N) :
  extract_latex_from_response reply ref = Ok t ->
  has_marker t = true
  /\ cut_after_end t = t
  /\ forall m, search end_doc_pattern t = Some m -> m_end m = length t.
Proof.
  intros H. destruct (extract_closed _ _ _ H) as [Hm Hc].
  split; [exact Hm|]. split; [exact Hc|].
  rewrite <- Hc. apply cut_after_end_closed.
Qed.

(** X3. The head of a text the extractor returns: it begins with
    [\documentclass]; or it is the preamble of the reference source
    followed by a body that begins with [\begin{document}] (the body alone
    when the reference has no preamble); or, when the preamble itself holds
    an end-of-document marker, it is the preamble cut after that marker.
    Remarks before the document never survive. *)
Theorem X3_extracted_text_head (reply ref t : list N) :
  extract_latex_from_response reply ref = Ok t ->
  let preamble := extract_preamble_from_original ref in
  startswith DOCUMENTCLASS t = true
  \/ (exists body, t = preamble ++ body /\ startswith BEGIN_DOCUMENT body = true)
  \/ (exists k, t = take k preamble /\ search end_doc_pattern preamble <> None).
Proof.
  unfold extract_latex_from_response.
  set (w := strip_fences fence_patterns (strip reply)).
  set (x := locate_start w ref).
  destruct (negb (contains DOCUMENTCLASS (cut_after_end x))
            && negb (contains BEGIN_DOCUMENT (cut_after_end x))) eqn:V;
    [discriminate|].
  intros [= <-]. cbn zeta. subst x. unfold locate_start in *.
  destruct (contains DOCUMENTCLASS w) eqn:Hd.
  - destruct (slice_from_find _ _ Hd) as (p & _ & Hs).
    apply startswith_true in Hs as [rest ->].
    destruct (cut_after_end_documentclass rest) as [rest' ->].
    left. apply startswith_app.
  - destruct (contains BEGIN_DOCUMENT w) eqn:Hb.
    + destruct (slice_from_find _ _ Hb) as (p & _ & Hs).
      apply startswith_true in Hs as [rest Hrest]. rewrite Hrest in *.
      destruct (extract_preamble_from_original ref) as [|c pre] eqn:Hp.
      * destruct (cut_after_end_begin rest) as [rest' ->].
        right; left. exists (BEGIN_DOCUMENT ++ rest'). split; [reflexivity|].
        apply startswith_app.
      * change (BEGIN_DOCUMENT ++ rest)
          with (92%N :: (List.tl BEGIN_DOCUMENT ++ rest)) in *.
        destruct (ci_find_from END_DOCUMENT (c :: pre) 0) as [j|] eqn:Ej.
        -- rewrite (cut_after_end_inside _ _ _ Ej).
           right; right. exists (j + length END_DOCUMENT)%nat. split; [reflexivity|].
           unfold search, end_doc_pattern, lits.
           change (lit "\end{document}") with END_DOCUMENT.
           rewrite search_lits, Ej. discriminate.
        -- rewrite (cut_after_end_app _ _ Ej).
           change (92%N :: (List.tl BEGIN_DOCUMENT ++ rest))
             with (BEGIN_DOCUMENT ++ rest).
           destruct (cut_after_end_begin rest) as [rest' ->].
           right; left. exists (BEGIN_DOCUMENT ++ rest'). split; [reflexivity|].
           apply startswith_app.
    + rewrite (contains_absent _ _ _ (cut_after_end_substring w) Hd) in V.
      rewrite (contains_absent _ _ _ (cut_after_end_substring w) Hb) in V.
      discriminate.
Qed.

(** X4. Unwrapping a fenced reply. When the reply is some remark without
    backticks, a [```latex] fence line, a document, a newline, the closing
    fence and anything after it, and the document begins with
    [\documentclass], holds no fence and ends with its first
    end-of-document marker, the extractor returns exactly the document,
    whatever the reference source is. *)
Theorem X4_fenced_reply_unwrapped (pre doc post ref : list N) :
  Forall (fun c => c <> 96%N) pre ->
  startswith DOCUMENTCLASS doc = true ->
  contains FENCE doc = false ->
  (exists m, search end_doc_pattern doc = Some m /\ m_end m = length doc) ->
  extract_latex_from_response
    (pre ++ lit "```latex" ++ nl ++ doc ++ nl ++ FENCE ++ post) ref = Ok doc.
Proof.
  intros Hpre Hstart Hfence (m & Hm & Hend).
  destruct (ends_with_brace _ _ Hm Hend) as [d Hd].
  pose proof Hstart as Hs. apply startswith_true in Hs as [rest Hrest].
  assert (Hstrip : exists pre' post',
             Forall (fun c => c <> 96%N) pre'
             /\ strip (pre ++ lit "```latex" ++ nl ++ doc ++ nl ++ FENCE ++ post)
                = pre' ++ lit "```latex" ++ nl ++ doc ++ nl ++ FENCE ++ post').
  { unfold strip.
    destruct (lstrip_cons_keeps pre 96
                (lit "``latex" ++ nl ++ doc ++ nl ++ FENCE ++ post) eq_refl)
      as (w & pre' & Hw & Hl).
    change (lit "```latex" ++ nl ++ doc ++ nl ++ FENCE ++ post)
      with (96%N :: lit "``latex" ++ nl ++ doc ++ nl ++ FENCE ++ post).
    rewrite Hl.
    destruct (rstrip_cons_keeps
                (pre' ++ lit "```latex" ++ nl ++ doc ++ nl ++ [96; 96]%N) 96 post eq_refl)
      as [post' Hr].
    rewrite <- !app_assoc in Hr.
    exists pre', post'. split.
    - rewrite Hw in Hpre. now apply Forall_app in Hpre.
    - exact Hr. }
  destruct Hstrip as (pre' & post' & Hpre' & Hstrip).
  destruct (search_latex_fence pre' doc post' Hpre' Hstart Hfence) as (mf & Hmf & Hg).
  assert (Hdoc : strip (doc ++ nl) = doc).
  { unfold strip.
    assert (Hl : lstrip (doc ++ nl) = doc ++ nl).
    { rewrite Hrest.
      change ((DOCUMENTCLASS ++ rest) ++ nl)
        with (92%N :: ((List.tl DOCUMENTCLASS ++ rest) ++ nl)).
      now apply lstrip_head. }
    rewrite Hl, Hd. now apply rstrip_newline. }
  unfold extract_latex_from_response. rewrite Hstrip.
  unfold fence_patterns. cbn [strip_fences]. rewrite Hmf, Hg, Hdoc.
  assert (Hmark : has_marker doc = true).
  { unfold has_marker. now rewrite (contains_startswith _ _ Hstart). }
  rewrite Hmark. unfold locate_start.
  rewrite (contains_startswith _ _ Hstart), (find_startswith _ _ Hstart), slice_from_0.
  unfold cut_after_end. rewrite Hm, Hend. unfold slice_to. rewrite firstn_all.
  now apply validated.
Qed.

(** X5. When the preamble of the reference source holds no
    end-of-document marker (as when the reference is a well-formed
    document, or empty), the extractor returns a text exactly when
    [\documentclass] or [\begin{document}] occurs somewhere in the reply;
    otherwise it raises. *)
Theorem X5_extraction_succeeds_iff_marker (reply ref : list N) :
  search end_doc_pattern (extract_preamble_from_original ref) = None ->
  ((exists t, extract_latex_from_response reply ref = Ok t) <-> has_marker reply = true).
Proof.
  intros Hend. split.
  - intros [t Ht]. destruct (has_marker reply) eqn:Hm; [reflexivity|].
    unfold has_marker in Hm. apply orb_false_iff in Hm as [Hd Hb].
    rewrite (extract_no_marker _ ref Hd Hb) in Ht. discriminate.
  - intros Hm. apply working_text_marker in Hm.
    unfold extract_latex_from_response.
    set (w := strip_fences fence_patterns (strip reply)) in *.
    unfold has_marker in Hm. unfold locate_start.
    destruct (contains DOCUMENTCLASS w) eqn:Hd.
    + destruct (slice_from_find _ _ Hd) as (p & _ & Hs).
      apply startswith_true in Hs as [rest ->].
      destruct (cut_after_end_documentclass rest) as [rest' ->].
      exists (DOCUMENTCLASS ++ rest'). apply validated. unfold has_marker.
      now rewrite (contains_startswith _ _ (startswith_app DOCUMENTCLASS rest')).
    + cbn [orb] in Hm. rewrite Hm.
      destruct (slice_from_find _ _ Hm) as (p & _ & Hs).
      apply startswith_true in Hs as [rest ->].
      destruct (cut_after_end_begin rest) as [rest' Hcut].
      destruct (extract_preamble_from_original ref) as [|c pre] eqn:Hp.
      * rewrite Hcut. exists (BEGIN_DOCUMENT ++ rest'). apply validated.
        unfold has_marker.
        rewrite (contains_startswith _ _ (startswith_app BEGIN_DOCUMENT rest')).
        apply orb_true_r.
      * change (BEGIN_DOCUMENT ++ rest)
          with (92%N :: (List.tl BEGIN_DOCUMENT ++ rest)).
        rewrite (cut_after_end_app _ _ (search_end_none _ Hend)).
        change (92%N :: (List.tl BEGIN_DOCUMENT ++ rest)) with (BEGIN_DOCUMENT ++ rest).
        rewrite Hcut. exists ((c :: pre) ++ BEGIN_DOCUMENT ++ rest'). apply validated.
        unfold has_marker.
        assert (Hin : contains BEGIN_DOCUMENT ((c :: pre) ++ BEGIN_DOCUMENT ++ rest') = true)
          by (apply contains_true; now exists (c :: pre), rest').
        rewrite Hin. apply orb_true_r.
Qed.

End ExtractorExtras.

Module ExtractorExtrasExamples.
Import Str Re Spec Extractor Prompts Samples MoreSamples ExtractorExtras.

Lemma X2_witness :
  extract_latex_from_response body_with_remark reference_document
  = Ok (lit "\documentclass{article}" ++ nl ++ plain_body)
  /\ has_marker (lit "\documentclass{article}" ++ nl ++ plain_body) = true
  /\ cut_after_end (lit "\documentclass{article}" ++ nl ++ plain_body)
     = lit "\documentclass{article}" ++ nl ++ plain_body
  /\ forall m,
       search end_doc_pattern (lit "\documentclass{article}" ++ nl ++ plain_body) = Some m ->
       m_end m = length (lit "\documentclass{article}" ++ nl ++ plain_body).
Proof.
  assert (H : extract_latex_from_response body_with_remark reference_document
              = Ok (lit "\documentclass{article}" ++ nl ++ plain_body))
    by (vm_compute; reflexivity).
  split; [exact H|].
  exact (X2_extracted_text_is_closed _ _ _ H).
Defined.

Lemma X3_witness :
  extract_latex_from_response plain_body headless_reference
  = Ok (lit "% resume" ++ nl ++ plain_body)
  /\ (startswith DOCUMENTCLASS (lit "% resume" ++ nl ++ plain_body) = true
      \/ (exists body,
            lit "% resume" ++ nl ++ plain_body
            = extract_preamble_from_original headless_reference ++ body
            /\ startswith BEGIN_DOCUMENT body = true)
      \/ (exists k,
            lit "% resume" ++ nl ++ plain_body
            = take k (extract_preamble_from_original headless_reference)
            /\ search end_doc_pattern (extract_preamble_from_original headless_reference)
               <> None)).
Proof.
  assert (H : extract_latex_from_response plain_body headless_reference
              = Ok (lit "% resume" ++ nl ++ plain_body))
    by (vm_compute; reflexivity).
  split; [exact H|].
  exact (X3_extracted_text_head _ _ _ H).
Defined.

Lemma X4_witness :
  Forall (fun c => c <> 96%N) (lit "Here is your resume:" ++ nl)
  /\ startswith DOCUMENTCLASS plain_document = true
  /\ contains FENCE plain_document = false
  /\ (exists m, search end_doc_pattern plain_document = Some m
                /\ m_end m = length plain_document)
  /\ extract_latex_from_response fenced_reply reference_document = Ok plain_document.
Proof.
  assert (H1 : Forall (fun c => c <> 96%N) (lit "Here is your resume:" ++ nl)).
  { apply (bool_decide_unpack _). vm_compute. exact I. }
  assert (H2 : startswith DOCUMENTCLASS plain_document = true) by (vm_compute; reflexivity).
  assert (H3 : contains FENCE plain_document = false) by (vm_compute; reflexivity).
  assert (H4 : exists m, search end_doc_pattern plain_document = Some m
                         /\ m_end m = length plain_document).
  { eexists. split; vm_compute; reflexivity. }
  split; [exact H1|]. split; [exact H2|]. split; [exact H3|]. split; [exact H4|].
  exact (X4_fenced_reply_unwrapped (lit "Here is your resume:" ++ nl) plain_document
           (nl ++ lit "Good luck!") reference_document H1 H2 H3 H4).
Defined.

Lemma X5_witness :
  search end_doc_pattern (extract_preamble_from_original reference_document) = None
  /\ has_marker fenced_reply = true
  /\ (exists t, extract_latex_from_response fenced_reply reference_document = Ok t)
  /\ has_marker refusal = false
  /\ ~ (exists t, extract_latex_from_response refusal reference_document = Ok t).
Proof.
  assert (H : search end_doc_pattern (extract_preamble_from_original reference_document)
              = None) by (vm_compute; reflexivity).
  assert (H1 : has_marker fenced_reply = true) by (vm_compute; reflexivity).
  assert (H2 : has_marker refusal = false) by (vm_compute; reflexivity).
  split; [exact H|]. split; [exact H1|].
  split; [exact (proj2 (X5_extraction_succeeds_iff_marker fenced_reply reference_document H) H1)|].
  split; [exact H2|].
  intros Hex.
  pose proof (proj1 (X5_extraction_succeeds_iff_marker refusal reference_document H) Hex) as Hm.
  rewrite H2 in Hm. discriminate Hm.
Defined.

End ExtractorExtrasExamples.

(* ===================================================================== *)
(** ** More about the layout analyzer *)
(* ===================================================================== *)

Module LayoutMore.
Import Num Layout Spec LayoutProps.
Local Open Scope Q_scope.

Lemma py_min_spec a b :
  py_min a b <= a /\ py_min a b <= b /\ (py_min a b = a \/ py_min a b = b).
Proof.
  unfold py_min. destruct (Qltb b a) eqn:E.
  - apply Qltb_true in E. repeat split; [lra | lra | now right].
  - apply Qltb_false in E. repeat split; [lra | lra | now left].
Qed.

Lemma py_max_spec a b :
  a <= py_max a b /\ b <= py_max a b /\ (py_max a b = a \/ py_max a b = b).
Proof.
  unfold py_max. destruct (Qltb a b) eqn:E.
  - apply Qltb_true in E. repeat split; [lra | lra | now right].
  - apply Qltb_false in E. repeat split; [lra | lra | now left].
Qed.

(** The extent the scan reports: bounds of the start values and of every
    block, attained by one of them. *)
Lemma scan_blocks_extent bs t b :
  let top := fst (scan_blocks bs t b) in
  let bottom := snd (scan_blocks bs t b) in
  (top <= t /\ b <= bottom)
  /\ Forall (fun k => top <= y0 k /\ y1 k <= bottom) bs
  /\ (top = t \/ Exists (fun k => top = y0 k) bs)
  /\ (bottom = b \/ Exists (fun k => bottom = y1 k) bs).
Proof.
  cbn zeta. revert t b; induction bs as [|k bs IH]; intros t b; cbn [scan_blocks fst snd].
  - split; [split; lra|]. split; [constructor|]. split; now left.
  - destruct (IH (py_min t (y0 k)) (py_max b (y1 k))) as ((Ht & Hb) & Hall & Hx & Hy).
    destruct (py_min_spec t (y0 k)) as (Hm1 & Hm2 & Hm3).
    destruct (py_max_spec b (y1 k)) as (HM1 & HM2 & HM3).
    repeat split; try lra.
    + constructor; [split; lra | exact Hall].
    + destruct Hx as [Hx | Hx].
      * destruct Hm3 as [Hm3 | Hm3];
          [left | right; constructor]; now rewrite Hx.
      * right. now constructor 2.
    + destruct Hy as [Hy | Hy].
      * destruct HM3 as [HM3 | HM3];
          [left | right; constructor]; now rewrite Hy.
      * right. now constructor 2.
Qed.

(** The scan of two lists whose blocks have the same vertical edges
    reports the same extent. *)
Lemma scan_blocks_perm bs bs' t b :
  Permutation (List.map (fun k => (y0 k, y1 k)) bs)
              (List.map (fun k => (y0 k, y1 k)) bs') ->
  fst (scan_blocks bs t b) == fst (scan_blocks bs' t b)
  /\ snd (scan_blocks bs t b) == snd (scan_blocks bs' t b).
Proof.
  intros Hp.
  destruct (scan_blocks_extent bs t b) as ((Ht & Hb) & Hall & Hx & Hy).
  destruct (scan_blocks_extent bs' t b) as ((Ht' & Hb') & Hall' & Hx' & Hy').
  cbn zeta in *.
  set (T := fst (scan_blocks bs t b)) in *. set (B := snd (scan_blocks bs t b)) in *.
  set (T' := fst (scan_blocks bs' t b)) in *. set (B' := snd (scan_blocks bs' t b)) in *.
  rewrite Forall_forall in Hall, Hall'. rewrite Exists_exists in Hx, Hy, Hx', Hy'.
  assert (Hin : forall l l' : list block,
             Permutation (List.map (fun k => (y0 k, y1 k)) l)
                         (List.map (fun k => (y0 k, y1 k)) l') ->
             forall k, k ∈ l -> exists k', k' ∈ l' /\ y0 k' = y0 k /\ y1 k' = y1 k).
  { intros l l' Hl k Hk. apply list_elem_of_In in Hk.
    apply (in_map (fun k => (y0 k, y1 k))) in Hk.
    apply (Permutation_in _ Hl) in Hk. apply in_map_iff in Hk as (k' & [= E0 E1] & Hk').
    exists k'. split; [now apply list_elem_of_In | auto]. }
  pose proof (Hin bs bs' Hp) as H1.
  pose proof (Hin bs' bs (Permutation_sym Hp)) as H2.
  split.
  - apply Qle_antisym.
    + destruct Hx' as [-> | (k & Hk & ->)]; [exact Ht|].
      destruct (H2 k Hk) as (k' & Hk' & <- & _). apply (Hall k' Hk').
    + destruct Hx as [-> | (k & Hk & ->)]; [exact Ht'|].
      destruct (H1 k Hk) as (k' & Hk' & <- & _). apply (Hall' k' Hk').
  - apply Qle_antisym.
    + destruct Hy as [-> | (k & Hk & ->)]; [exact Hb'|].
      destruct (H1 k Hk) as (k' & Hk' & _ & <-). apply (Hall' k' Hk').
    + destruct Hy' as [-> | (k & Hk & ->)]; [exact Hb|].
      destruct (H2 k Hk) as (k' & Hk' & _ & <-). apply (Hall k' Hk').
Qed.

Lemma Qltb_comp x x' y y' : x == x' -> y == y' -> Qltb x y = Qltb x' y'.
Proof.
  intros Hx Hy. destruct (Qltb x' y') eqn:E.
  - apply Qltb_true in E. apply Qltb_true. lra.
  - apply Qltb_false in E. apply Qltb_false. lra.
Qed.

Lemma clamp_comp x x' :
  x == x' -> py_min (py_max x 0.0) 1.0 == py_min (py_max x' 0.0) 1.0.
Proof.
  intros H. destruct (Qlt_le_dec x 0) as [Hneg|Hpos].
  - rewrite !clamp_below by lra. reflexivity.
  - destruct (Qlt_le_dec 1 x) as [Hbig|Hle].
    + rewrite !clamp_above by lra. reflexivity.
    + rewrite !clamp_inside by lra. exact H.
Qed.

Lemma raw_ratio_eq h bs :
  raw_ratio h bs =
  if Qltb 0 (h - 36 - fst (scan_blocks bs h 0))
  then (snd (scan_blocks bs h 0) - fst (scan_blocks bs h 0))
       / (h - 36 - fst (scan_blocks bs h 0))
  else 0.9.
Proof. unfold raw_ratio. now destruct (scan_blocks bs h 0). Qed.

Lemma raw_ratio_perm h bs bs' :
  Permutation (List.map (fun k => (y0 k, y1 k)) bs)
              (List.map (fun k => (y0 k, y1 k)) bs') ->
  raw_ratio h bs == raw_ratio h bs'.
Proof.
  intros Hp. rewrite !raw_ratio_eq.
  destruct (scan_blocks_perm bs bs' h 0 Hp) as [HT HB].
  rewrite (Qltb_comp 0 0 (h - 36 - fst (scan_blocks bs h 0))
                     (h - 36 - fst (scan_blocks bs' h 0)))
    by (try reflexivity; now rewrite HT).
  destruct (Qltb 0 (h - 36 - fst (scan_blocks bs' h 0))); [|reflexivity].
  now rewrite HT, HB.
Qed.

End LayoutMore.

Module LayoutExtras.
Import Num Layout Spec Backend Sim LayoutProps LayoutMore.
Local Open Scope Q_scope.

(** X6. The extent [calculate_fill_ratio] scans from the blocks of a page:
    the top is at most the page height and at most the upper edge of every
    block, the bottom is at least 0 and at least the lower edge of every
    block, and each of the two is the start value or an edge of some block. *)
Theorem X6_scan_blocks_covers_every_block (blocks : list block) (page_height : Q) :
  let top := fst (scan_blocks blocks page_height 0) in
  let bottom := snd (scan_blocks blocks page_height 0) in
  (top <= page_height /\ 0 <= bottom)
  /\ Forall (fun b => top <= y0 b /\ y1 b <= bottom) blocks
  /\ (top = page_height \/ Exists (fun b => top = y0 b) blocks)
  /\ (bottom = 0 \/ Exists (fun b => bottom = y1 b) blocks).
Proof.
  cbn zeta.
  destruct (scan_blocks_extent blocks page_height 0) as (Hstart & Hall & Htop & Hbottom).
  split; [exact Hstart|]. split; [exact Hall|]. split; [exact Htop | exact Hbottom].
Qed.

(** X7. The fill ratio depends only on the height of the first page and
    on the vertical edges of its blocks: their order, their horizontal
    extent, their text and their type (an image block counts like a text
    block) and the pages after the first make no difference. *)
Theorem X7_fill_ratio_ignores_block_order
    (h : Q) (blocks blocks' : list block) (rest rest' : list page) :
  Permutation (List.map (fun b => (y0 b, y1 b)) blocks)
              (List.map (fun b => (y0 b, y1 b)) blocks') ->
  calculate_fill_ratio (Ok (MkPage h (Ok blocks) :: rest))
  == calculate_fill_ratio (Ok (MkPage h (Ok blocks') :: rest')).
Proof.
  intros Hp. destruct blocks as [|b bs].
  - apply Permutation_nil in Hp. apply map_eq_nil in Hp. subst blocks'. reflexivity.
  - destruct blocks' as [|b' bs'].
    + apply Permutation_sym, Permutation_nil in Hp. discriminate.
    + rewrite !measured. now apply clamp_comp, raw_ratio_perm.
Qed.


End LayoutExtras.

Module LayoutExtrasExamples.
Import Num Layout Spec Backend Sim LayoutProps LayoutExtras.
Local Open Scope Q_scope.

Lemma X7_witness :
  Permutation (List.map (fun b => (y0 b, y1 b)) [blk 72 300; blk 320 700])
              (List.map (fun b => (y0 b, y1 b))
                        [MkBlock 0 320 100 700 [] 1 1; blk 72 300])
  /\ calculate_fill_ratio (Ok [MkPage 792 (Ok [blk 72 300; blk 320 700])])
     == calculate_fill_ratio
          (Ok [MkPage 792 (Ok [MkBlock 0 320 100 700 [] 1 1; blk 72 300]);
               MkPage 792 (Ok [])]).
Proof.
  assert (H : Permutation (List.map (fun b => (y0 b, y1 b)) [blk 72 300; blk 320 700])
                          (List.map (fun b => (y0 b, y1 b))
                                    [MkBlock 0 320 100 700 [] 1 1; blk 72 300]))
    by apply perm_swap.
  split; [exact H|].
  exact (X7_fill_ratio_ignores_block_order 792 _ _ [] [MkPage 792 (Ok [])] H).
Defined.


End LayoutExtrasExamples.

(* ===================================================================== *)
(** ** More about the runs of the loop *)
(* ===================================================================== *)

Module RunFacts.
Import Str Num Layout Extractor Prompts Backend Runs Policy.
Import BackendFacts LayoutProps ExtractorMore.
Local Open Scope Q_scope.

Lemma List_last_cons {A} (x d : A) (l : list A) : List.last (x :: l) d = List.last l x.
Proof.
  revert x d; induction l as [|y l IH]; intros x d; [reflexivity|].
  change (List.last (x :: y :: l) d) with (List.last (y :: l) d).
  now rewrite !IH.
Qed.

Lemma events_of_retry a pc fr e0 p s :
  checks [e0] = [] -> renders [e0] = [] -> queries [e0] = [] ->
  checks [Print (CheckLine a pc fr); e0; Query p s] = [(a, pc, fr)]
  /\ renders [Print (CheckLine a pc fr); e0; Query p s] = []
  /\ queries [Print (CheckLine a pc fr); e0; Query p s] = [(p, s)].
Proof.
  intros Hc Hr Hq.
  change [Print (CheckLine a pc fr); e0; Query p s]
    with ([Print (CheckLine a pc fr)] ++ [e0] ++ [Query p s]).
  rewrite !checks_app, !renders_app, !queries_app, Hc, Hr, Hq. repeat split.
Qed.

Lemma checks_render stem tex d : checks (Pdflatex stem tex :: d) = checks d.
Proof. change (Pdflatex stem tex :: d) with ([Pdflatex stem tex] ++ d). now rewrite checks_app. Qed.

Lemma queries_render stem tex d : queries (Pdflatex stem tex :: d) = queries d.
Proof. change (Pdflatex stem tex :: d) with ([Pdflatex stem tex] ++ d). now rewrite queries_app. Qed.

Lemma renders_render stem tex d :
  renders (Pdflatex stem tex :: d) = (stem, tex) :: renders d.
Proof. change (Pdflatex stem tex :: d) with ([Pdflatex stem tex] ++ d). now rewrite renders_app. Qed.

Section Iteration.
Context {W : Type}.
Variable api : list N -> list N -> W -> result (list N) * W.
Variable run_pdflatex : list N -> list N -> W -> pdflatex_outcome * W.
Variable job_description : list N.
Variable filename_stem : list N.

Implicit Types (st : state W) (d : list event) (l : locals).

Lemma correction_extends ty c o fr st r st' :
  request_correction api ty c o job_description fr st = (r, st') ->
  extends st st' [Query (prompt_of ty c job_description fr) (system_prompt_of ty)].
Proof. destruct ty; [apply shorten_extends | apply expand_extends]. Qed.

Lemma correction_result ty c o fr st new st' :
  request_correction api ty c o job_description fr st = (Ok new, st') ->
  exists raw, extract_latex_from_response raw o = Ok new.
Proof.
  destruct ty; cbn [request_correction];
    unfold shorten_resume, expand_resume, mbind, M_bind, bind, lift;
    (destruct (query_perplexity api _ _ st) as [[raw|e] st1];
     [intros [= H <-]; eauto | discriminate]).
Qed.

Lemma retry_iteration ty a l pc fr st e0 :
  compliant pc fr = false -> (a < max_optimization_attempts)%nat ->
  correction_for pc fr = ty ->
  checks [e0] = [] -> renders [e0] = [] -> queries [e0] = [] ->
  let out := corrected_by ty l
               (request_correction api ty (tailored_content l)
                  (content (current_resume st)) job_description fr
                  (emit e0 (checked a pc fr st))) in
  exists d, extends st (snd out) d
            /\ iteration (content (current_resume st)) job_description a l (fst out) d.
Proof.
  intros Hnc Ha Hty Hc0 Hr0 Hq0 out. subst out.
  destruct (events_of_retry a pc fr e0
              (prompt_of ty (tailored_content l) job_description fr)
              (system_prompt_of ty) Hc0 Hr0 Hq0) as (Hc & Hr & Hq).
  assert (H0 : extends st (emit e0 (checked a pc fr st)) [Print (CheckLine a pc fr); e0])
    by (eapply (extends_trans _ _ _ [_] [_]); apply extends_emit).
  destruct (request_correction api ty _ _ _ _ _) as [[new|e] st1] eqn:E.
  - pose proof (correction_extends _ _ _ _ _ _ _ E) as Hx.
    apply correction_result in E as [raw Hraw].
    eexists. split; [eapply extends_trans; [exact H0 | exact Hx]|].
    cbn [corrected_by fst]. split; [exact Hr|].
    exists pc, fr, raw, new. rewrite Hty. repeat split; assumption.
  - pose proof (correction_extends _ _ _ _ _ _ _ E) as Hx.
    eexists. split; [eapply extends_trans; [exact H0 | exact Hx]|].
    cbn [corrected_by fst]. split; [exact Hr|].
    cbn [app]. rewrite Hq. split; [cbn; lia|].
    unfold max_optimization_attempts in *. lia.
Qed.

Lemma stop_iteration o a l pc fr st (tail : list event) st' :
  extends st st' (Print (CheckLine a pc fr) :: tail) ->
  checks tail = [] -> renders tail = [] -> queries tail = [] ->
  compliant pc fr = true \/ (max_optimization_attempts <= a)%nat ->
  exists d, extends st st' d /\ iteration o job_description a l (Ok (Break, l)) d.
Proof.
  intros Hx Hc Hr Hq Hstop. eexists. split; [exact Hx|].
  change (Print (CheckLine a pc fr) :: tail) with ([Print (CheckLine a pc fr)] ++ tail).
  split; [now rewrite renders_app, Hr|].
  exists pc, fr. rewrite checks_app, queries_app, Hc, Hq. repeat split. exact Hstop.
Qed.

Lemma evaluate_iteration a l pc fr st :
  exists d,
    extends st (snd (evaluate api job_description a l pc fr st)) d
    /\ iteration (content (current_resume st)) job_description a l
         (fst (evaluate api job_description a l pc fr st)) d.
Proof.
  assert (Hck : extends st (checked a pc fr st) [Print (CheckLine a pc fr)])
    by apply extends_emit.
  destruct (Nat.ltb_spec 1 pc) as [Hpc|Hpc].
  - assert (Hlt : (1 <? pc)%nat = true) by now apply Nat.ltb_lt.
    assert (Hnc : compliant pc fr = false) by (unfold compliant; now rewrite Hlt).
    assert (Hty : correction_for pc fr = shortened)
      by (unfold correction_for; now rewrite Hlt).
    destruct (Nat.ltb_spec a max_optimization_attempts) as [Ha|Ha].
    + rewrite evaluate_too_long_retry by assumption.
      now apply (retry_iteration shortened a l pc fr st (Print (TooLong pc))).
    + rewrite evaluate_too_long_exhausted by assumption. cbn [fst snd].
      apply (stop_iteration _ a l pc fr st [Print (TooLong pc); Print CouldNotFit]);
        try reflexivity; [|now right].
      eapply (extends_trans _ _ _ [_; _] [_]); [|apply extends_emit].
      eapply (extends_trans _ _ _ [_] [_]); apply extends_emit.
  - assert (Hge : (1 <? pc)%nat = false) by now apply Nat.ltb_ge.
    destruct (Qltb fr MIN_FILL_RATIO) eqn:Hmin.
    + assert (Hnc : compliant pc fr = false)
        by (unfold compliant; rewrite Hmin, Hge; reflexivity).
      assert (Hty : correction_for pc fr = expanded)
        by (unfold correction_for; now rewrite Hge, Hmin).
      destruct (Nat.ltb_spec a max_optimization_attempts) as [Ha|Ha].
      * rewrite evaluate_too_sparse_retry by assumption.
        now apply (retry_iteration expanded a l pc fr st (Print (TooSparse fr))).
      * rewrite evaluate_too_sparse_exhausted by assumption. cbn [fst snd].
        apply (stop_iteration _ a l pc fr st [Print (TooSparse fr); Print (Optimized fr)]);
          try reflexivity; [|now right].
        eapply (extends_trans _ _ _ [_; _] [_]); [|apply extends_emit].
        eapply (extends_trans _ _ _ [_] [_]); apply extends_emit.
    + destruct (Qltb MAX_FILL_RATIO fr) eqn:Hmax.
      * assert (Hnc : compliant pc fr = false)
          by (unfold compliant; rewrite Hmin, Hmax, Hge; reflexivity).
        assert (Hty : correction_for pc fr = shortened)
          by (unfold correction_for; now rewrite Hge, Hmin).
        destruct (Nat.ltb_spec a max_optimization_attempts) as [Ha|Ha].
        -- rewrite evaluate_too_dense_retry by assumption.
           now apply (retry_iteration shortened a l pc fr st (Print (TooDense fr))).
        -- rewrite evaluate_too_dense_exhausted by assumption. cbn [fst snd].
           apply (stop_iteration _ a l pc fr st [Print (TooDense fr); Print (Optimized fr)]);
             try reflexivity; [|now right].
           eapply (extends_trans _ _ _ [_; _] [_]); [|apply extends_emit].
           eapply (extends_trans _ _ _ [_] [_]); apply extends_emit.
      * rewrite evaluate_in_band by assumption. cbn [fst snd].
        apply (stop_iteration _ a l pc fr st [Print (Optimized fr)]);
          try reflexivity.
        -- eapply (extends_trans _ _ _ [_] [_]); apply extends_emit.
        -- left. apply compliant_true. auto.
Qed.

(** One pass through the loop body: one compiler run, then EVALUATE. *)
Lemma loop_body_iteration a l st :
  exists d1,
    extends st (snd (loop_body api run_pdflatex filename_stem job_description a l st))
            (Pdflatex filename_stem (tailored_content l) :: d1)
    /\ iteration (content (current_resume st)) job_description a l
         (fst (loop_body api run_pdflatex filename_stem job_description a l st)) d1.
Proof.
  unfold loop_body, mbind, M_bind, bind.
  destruct (compile_latex_to_pdf _ _ _ _ st) as [[[[pc fr] path]|e] st1] eqn:Hc;
    apply compile_search_extends in Hc.
  - destruct (evaluate_iteration a l pc fr st1) as (d1 & He & Hit).
    exists d1. split.
    + apply (extends_trans _ _ _ [_] d1 Hc He).
    + destruct Hc as ((Hcur & _) & _). now rewrite <- Hcur.
  - exists []. split; [exact Hc|]. cbn [fst]. split; [reflexivity|].
    split; [cbn; lia | reflexivity].
Qed.

(** Whatever happens, the search from attempt [a] on sends at most one
    request per attempt below the maximum and compiles once per attempt. *)
Lemma search_cost k : forall a l st,
  (a + k = max_optimization_attempts)%nat ->
  exists d,
    extends st (snd (for_attempts api run_pdflatex filename_stem job_description
                       (seq a (S k)) l st)) d
    /\ (length (queries d) <= k)%nat /\ (length (renders d) <= S k)%nat.
Proof.
  induction k as [|k IH]; intros a l st Hak.
  - cbn [seq for_attempts]. unfold mbind, M_bind, bind.
    destruct (loop_body_iteration a l st) as (d1 & Hx & Hr & Hit).
    exists (Pdflatex filename_stem (tailored_content l) :: d1).
    rewrite queries_render, renders_render, Hr.
    destruct (loop_body _ _ _ _ a l st) as [[[[|] l1]|e] st1]; cbn [fst snd] in *;
      unfold ret; cbn [snd].
    + destruct Hit as (pc & fr & raw & new & _ & _ & Ha & _). lia.
    + destruct Hit as (pc & fr & _ & Hq & _). rewrite Hq.
      split; [exact Hx | cbn; lia].
    + destruct Hit as (_ & Hq). rewrite Hq by lia.
      split; [exact Hx | cbn; lia].
  - cbn [seq for_attempts]. unfold mbind, M_bind, bind.
    destruct (loop_body_iteration a l st) as (d1 & Hx & Hr & Hit).
    destruct (loop_body _ _ _ _ a l st) as [[[[|] l1]|e] st1]; cbn [fst snd] in *;
      unfold ret; cbn [snd].
    + destruct Hit as (pc & fr & raw & new & _ & _ & _ & Hq & _).
      destruct (IH (S a) l1 st1 ltac:(lia)) as (d2 & Hx2 & Hq2 & Hr2).
      exists ((Pdflatex filename_stem (tailored_content l) :: d1) ++ d2).
      split; [eapply extends_trans; [exact Hx | exact Hx2]|].
      rewrite queries_app, renders_app, queries_render, renders_render, Hr, Hq, !length_app.
      cbn. lia.
    + destruct Hit as (pc & fr & _ & Hq & _).
      exists (Pdflatex filename_stem (tailored_content l) :: d1). split; [exact Hx|].
      rewrite queries_render, renders_render, Hr, Hq. cbn. lia.
    + destruct Hit as (Hq & _).
      exists (Pdflatex filename_stem (tailored_content l) :: d1). split; [exact Hx|].
      rewrite queries_render, renders_render, Hr. cbn. lia.
Qed.

(** A search that returns stopped at its first compliant render, or at the
    last attempt. *)
Lemma search_stops k : forall a l st l' st',
  (a + k = max_optimization_attempts)%nat ->
  for_attempts api run_pdflatex filename_stem job_description (seq a (S k)) l st
    = (Ok l', st') ->
  exists d front final,
    extends st st' d
    /\ checks d = front ++ [final]
    /\ Forall not_compliant front
    /\ (compliant (snd (fst final)) (snd final) = true \/ length front = k)
    /\ (length front <= k)%nat
    /\ List.map (fun c => fst (fst c)) (checks d) = seq a (S (length front))
    /\ adjustment_count l' = (adjustment_count l + length front)%nat
    /\ List.map snd (queries d)
       = List.map (fun c => system_prompt_of (correction_of c)) front
    /\ adjustment_type l' = last_correction front (adjustment_type l)
    /\ length (renders d) = S (length front)
    /\ queries d = corrections_for job_description (renders d) front
    /\ last (renders d) = Some (filename_stem, tailored_content l').
Proof.
  induction k as [|k IH]; intros a l st l' st' Hak Hrun.
  - cbn [seq for_attempts] in Hrun. unfold mbind, M_bind, bind in Hrun.
    destruct (loop_body_iteration a l st) as (d1 & Hx & Hr & Hit).
    destruct (loop_body _ _ _ _ a l st) as [[[[|] l1]|e] st1]; cbn [fst snd] in *;
      [| |discriminate].
    + destruct Hit as (pc & fr & raw & new & _ & _ & Ha & _). lia.
    + injection Hrun as <- <-. destruct Hit as (pc & fr & Hc & Hq & -> & Hstop).
      exists (Pdflatex filename_stem (tailored_content l) :: d1), [], (a, pc, fr).
      rewrite checks_render, queries_render, renders_render, Hc, Hq, Hr.
      split; [exact Hx|]. split; [reflexivity|]. split; [constructor|].
      split; [now right|]. split; [cbn; lia|]. split; [reflexivity|].
      split; [cbn; lia|]. split; [reflexivity|]. split; [reflexivity|].
      split; [reflexivity|]. split; reflexivity.
  - cbn [seq for_attempts] in Hrun. unfold mbind, M_bind, bind in Hrun.
    destruct (loop_body_iteration a l st) as (d1 & Hx & Hr & Hit).
    destruct (loop_body _ _ _ _ a l st) as [[[[|] l1]|e] st1]; cbn [fst snd] in *;
      [| |discriminate].
    + destruct Hit as (pc & fr & raw & new & Hc & Hnc & Ha & Hq & _ & ->).
      change (for_attempts api run_pdflatex filename_stem job_description
                (seq (S a) (S k)) (MkLocals new (adjustment_count l + 1)
                                     (Some (correction_for pc fr))) st1 = (Ok l', st'))
        in Hrun.
      destruct (IH (S a) _ st1 l' st' ltac:(lia) Hrun)
        as (d2 & front & final & Hx2 & Hc2 & Hall & Hstop & Hlen & Hnum & Hcount
            & Hq2 & Hty & Hr2 & Hqs & Hlast).
      cbn [adjustment_count adjustment_type] in Hcount, Hty.
      exists ((Pdflatex filename_stem (tailored_content l) :: d1) ++ d2),
             ((a, pc, fr) :: front), final.
      rewrite checks_app, queries_app, renders_app,
              checks_render, queries_render, renders_render, Hc, Hq, Hr.
      split; [eapply extends_trans; [exact Hx | exact Hx2]|].
      split; [cbn [app]; now rewrite Hc2|].
      split; [constructor; [exact Hnc | exact Hall]|].
      split; [destruct Hstop as [Hstop | Hstop]; [now left | right; cbn; lia]|].
      split; [cbn; lia|].
      split; [cbn [app List.map fst length seq]; now rewrite Hnum|].
      split; [rewrite Hcount; cbn; lia|].
      split; [cbn [app List.map snd]; now rewrite Hq2|].
      split; [rewrite Hty; unfold last_correction; cbn [List.map]; now rewrite List_last_cons|].
      split; [cbn [app length]; now rewrite Hr2|].
      split; [cbn [app]; rewrite Hqs; reflexivity|].
      cbn [app]. now rewrite last_cons, Hlast.
    + injection Hrun as <- <-. destruct Hit as (pc & fr & Hc & Hq & -> & Hstop).
      exists (Pdflatex filename_stem (tailored_content l) :: d1), [], (a, pc, fr).
      rewrite checks_render, queries_render, renders_render, Hc, Hq, Hr.
      split; [exact Hx|]. split; [reflexivity|]. split; [constructor|].
      split; [destruct Hstop as [Hstop | Hstop]; [now left | lia]|].
      split; [cbn; lia|]. split; [reflexivity|].
      split; [cbn; lia|]. split; [reflexivity|]. split; [reflexivity|].
      split; [reflexivity|]. split; reflexivity.
Qed.

(** Every source the search compiles is the start value or a text the
    extractor handed out. *)
Lemma search_sources attempts : forall l st,
  closed_document (tailored_content l) ->
  exists d,
    extends st (snd (for_attempts api run_pdflatex filename_stem job_description
                       attempts l st)) d
    /\ Forall (fun r => fst r = filename_stem /\ closed_document (snd r)) (renders d)
    /\ forall l', fst (for_attempts api run_pdflatex filename_stem job_description
                         attempts l st) = Ok l' ->
                  closed_document (tailored_content l').
Proof.
  induction attempts as [|a rest IH]; intros l st Hl.
  - exists []. split; [apply extends_refl|]. split; [constructor|].
    intros l' [= <-]. exact Hl.
  - cbn [for_attempts]. unfold mbind, M_bind, bind.
    destruct (loop_body_iteration a l st) as (d1 & Hx & Hr & Hit).
    assert (Hd1 : renders (Pdflatex filename_stem (tailored_content l) :: d1)
                  = [(filename_stem, tailored_content l)])
      by (now rewrite renders_render, Hr).
    destruct (loop_body _ _ _ _ a l st) as [[[[|] l1]|e] st1]; cbn [fst snd] in *;
      unfold ret; cbn [fst snd].
    + destruct Hit as (pc & fr & raw & new & _ & _ & _ & _ & Hraw & ->).
      apply extract_closed in Hraw.
      destruct (IH (MkLocals new (adjustment_count l + 1) (Some (correction_for pc fr)))
                   st1 Hraw) as (d2 & Hx2 & Hall & Hret).
      exists ((Pdflatex filename_stem (tailored_content l) :: d1) ++ d2).
      split; [eapply extends_trans; [exact Hx | exact Hx2]|].
      rewrite renders_app, Hd1. split; [|exact Hret].
      constructor; [split; [reflexivity | exact Hl] | exact Hall].
    + destruct Hit as (pc & fr & _ & _ & -> & _).
      exists (Pdflatex filename_stem (tailored_content l) :: d1).
      split; [exact Hx|]. rewrite Hd1. split.
      * constructor; [split; [reflexivity | exact Hl] | constructor].
      * intros l' [= <-]. exact Hl.
    + exists (Pdflatex filename_stem (tailored_content l) :: d1).
      split; [exact Hx|]. rewrite Hd1. split.
      * constructor; [split; [reflexivity | exact Hl] | constructor].
      * discriminate.
Qed.

End Iteration.

Lemma zip_with_longer {A B C} (f : A -> B -> C) rs extra cs :
  (length cs <= length rs)%nat -> zip_with f (rs ++ extra) cs = zip_with f rs cs.
Proof.
  revert cs; induction rs as [|r rs IH]; intros [|c cs]; cbn; intros H; try lia.
  - now destruct extra.
  - now destruct extra.
  - f_equal. apply IH. lia.
Qed.

Lemma last_correction_cons c front ty :
  last_correction (c :: front) ty = last_correction front (Some (correction_of c)).
Proof. unfold last_correction. cbn [List.map]. apply List_last_cons. Qed.

Lemma last_correction_Some front ty : ty <> None -> last_correction front ty <> None.
Proof.
  revert ty; induction front as [|c front IH]; intros ty Hty; [exact Hty|].
  rewrite last_correction_cons. now apply IH.
Qed.

Lemma last_correction_None front : last_correction front None = None <-> front = [].
Proof.
  destruct front as [|c front]; [split; reflexivity|].
  rewrite last_correction_cons. split; [|discriminate].
  intros H. now apply last_correction_Some in H.
Qed.

Section Run.
Context {W : Type}.
Variable api : list N -> list N -> W -> result (list N) * W.
Variable run_pdflatex : list N -> list N -> W -> pdflatex_outcome * W.
Variable tailor_system_prompt : list N.
Variable tailor_prompt : list N -> list N -> list N -> list N.

Implicit Types (st : state W).



Lemma fill_ratio_in_unit doc : 0 <= calculate_fill_ratio doc <= 1.
Proof.
  destruct doc as [[|[h [[|b bs]|e]] rest]|e]; try (split; discriminate).
  rewrite measured. apply clamp_bounds.
Qed.

(** The shapes of a run of the [try] block of [tailor_resume]: it ends
    with the first request, or goes through the search and, when the search
    returns, through the final render. *)
Lemma tailor_try_events jd rag st :
  let out := tailor_try api run_pdflatex tailor_system_prompt tailor_prompt jd rag st in
  let cur := current_resume st in
  let stem := filename_stem_of (filename cur) in
  let q := Query (tailor_prompt (content cur) rag jd) tailor_system_prompt in
  (extends st (snd out) [q] /\ exists e, fst out = Raise e)
  \/ exists raw tailored st1 dl dfin,
       extract_latex_from_response raw (content cur) = Ok tailored
       /\ extends st st1 [q]
       /\ extends st1
            (snd (optimization_loop api run_pdflatex stem jd (MkLocals tailored 0 None) st1)) dl
       /\ trace (snd out) = trace st ++ [q] ++ dl ++ dfin
       /\ match fst (optimization_loop api run_pdflatex stem jd
                       (MkLocals tailored 0 None) st1) with
          | Raise e => dfin = [] /\ fst out = Raise e
          | Ok l =>
              (dfin = [Pdflatex stem (tailored_content l)] /\ exists e, fst out = Raise e)
              \/ (dfin = [Pdflatex stem (tailored_content l); SavePdf (stem ++ lit ".pdf")]
                  /\ exists pc fr,
                       0 <= fr <= 1
                       /\ fst out = Ok (MkPayload (filename cur) (file_type cur)
                                          (tailored_content l) pc (round2 fr)
                                          (0 <? adjustment_count l)%nat (adjustment_count l)
                                          (adjustment_type l)
                                          (lit "/compiled/" ++ stem ++ lit ".pdf")))
          end.
Proof.
  intros out cur stem q. subst out.
  unfold tailor_try, mbind, M_bind, bind, get_current_resume, lift.
  fold cur. fold stem.
  destruct (query_perplexity api _ _ st) as [[raw|e] st1] eqn:Hq;
    apply query_extends in Hq; fold q in Hq.
  2:{ left. cbn [fst snd]. split; [exact Hq | eauto]. }
  destruct (extract_latex_from_response raw (content cur)) as [tailored|e] eqn:Hex.
  2:{ left. cbn [fst snd]. split; [exact Hq | eauto]. }
  right. exists raw, tailored, st1.
  destruct (for_attempts_extends api run_pdflatex jd stem
              (seq 0 (max_optimization_attempts + 1))
              (MkLocals tailored 0 None) st1) as (dl & Hl).
  fold (optimization_loop api run_pdflatex stem jd (MkLocals tailored 0 None) st1) in Hl.
  destruct (optimization_loop api run_pdflatex stem jd
              (MkLocals tailored 0 None) st1) as [[l|e] st2] eqn:Hloop; cbn [fst snd] in *.
  2:{ exists dl, []. split; [exact Hex|]. split; [exact Hq|]. split; [exact Hl|].
      destruct Hq as (_ & _ & Hq), Hl as (_ & _ & Hl).
      split; [rewrite Hl, Hq, app_nil_r, <- app_assoc; reflexivity|].
      split; reflexivity. }
  destruct (compile_latex_to_pdf run_pdflatex (tailored_content l) stem true st2)
    as [[[[pc fr] path]|e] st3] eqn:Hc.
  - apply compile_final_ok in Hc as (pdf & w' & Hrunp & Hpages & -> & -> & Hs & Hf & Ht).
    exists dl, [Pdflatex stem (tailored_content l); SavePdf (stem ++ lit ".pdf")].
    split; [exact Hex|]. split; [exact Hq|]. split; [exact Hl|].
    assert (Hcur : current_resume st3 = cur).
    { destruct Hs as (-> & _), Hl as ((-> & _) & _), Hq as ((-> & _) & _). reflexivity. }
    destruct Hq as (_ & _ & Hq), Hl as (_ & _ & Hl).
    split; [cbn [snd ret]; rewrite Ht, Hl, Hq, <- !app_assoc; reflexivity|].
    right. split; [reflexivity|].
    exists pc, (calculate_fill_ratio (fitz_view pdf)).
    split; [apply fill_ratio_in_unit|]. cbn [fst ret]. now rewrite Hcur.
  - apply compile_final_raise in Hc.
    exists dl, [Pdflatex stem (tailored_content l)].
    split; [exact Hex|]. split; [exact Hq|]. split; [exact Hl|].
    destruct Hq as (_ & _ & Hq), Hl as (_ & _ & Hl), Hc as (_ & _ & Hc).
    split; [cbn [snd]; rewrite Hc, Hl, Hq, <- !app_assoc; reflexivity|].
    left. split; [reflexivity | eauto].
Qed.

(** The ways [tailor_resume] can answer, with the request's field. *)
Lemma tailor_resume_inv data st resp st' :
  tailor_resume api run_pdflatex tailor_system_prompt tailor_prompt data st = (resp, st') ->
  (st' = st /\ exists why, resp = BadRequest why)
  \/ exists jd r,
       data ≫= (fun d => d !! lit "job_description") = Some jd
       /\ content (current_resume st) <> []
       /\ tailor_try api run_pdflatex tailor_system_prompt tailor_prompt
                     jd (default [] (rag_file st)) st = (r, st')
       /\ resp = match r with Ok p => Success p | Raise e => ServerError e end.
Proof.
  unfold tailor_resume.
  destruct (data ≫= _) as [jd|]; [|intros [= <- <-]; left; eauto].
  destruct (content (current_resume st)) eqn:Ec; [intros [= <- <-]; left; eauto|].
  destruct (tailor_try _ _ _ _ jd _ st) as [[p|e] st1] eqn:E;
    intros [= <- <-]; right; exists jd; eexists;
    (split; [reflexivity|]); (split; [discriminate|]); (split; [exact E | reflexivity]).
Qed.

Lemma since_app st st' d : trace st' = trace st ++ d -> since st st' = d.
Proof. intros H. unfold since. rewrite H. apply drop_app_length. Qed.

Lemma extends_same st st' d1 d2 : extends st st' d1 -> extends st st' d2 -> d1 = d2.
Proof.
  intros (_ & _ & H1) (_ & _ & H2). rewrite H1 in H2. now apply app_inv_head in H2.
Qed.

Lemma since_self st : since st st = [].
Proof. unfold since. apply drop_all. Qed.

End Run.

End RunFacts.

Module LoopExtras.
Import Str Num Layout Extractor Prompts Backend Runs Policy.
Import BackendFacts LayoutProps ExtractorMore RunFacts.
Local Open Scope Q_scope.

(** X9. Whatever the generative service and the compiler do, and whatever
    the request is, a call of [tailor_resume] only adds to the trace, sends
    at most six requests to the generative service (the tailoring request
    and five corrections) and runs the compiler at most seven times. *)
Theorem X9_run_cost_is_bounded {W : Type}
    (api : list N -> list N -> W -> result (list N) * W)
    (run_pdflatex : list N -> list N -> W -> pdflatex_outcome * W)
    (tailor_system_prompt : list N)
    (tailor_prompt : list N -> list N -> list N -> list N)
    (data : option (gmap (list N) (list N))) (st : state W) :
  let st' := snd (tailor_resume api run_pdflatex tailor_system_prompt tailor_prompt data st) in
  (exists d, trace st' = trace st ++ d)
  /\ (length (queries (since st st')) <= 6)%nat
  /\ (length (renders (since st st')) <= 7)%nat.
Proof.
  cbn zeta.
  destruct (tailor_resume api run_pdflatex tailor_system_prompt tailor_prompt data st)
    as [resp st'] eqn:E. cbn [snd].
  apply tailor_resume_cases in E as [(-> & _) | (jd & r & Htry & _)].
  { rewrite since_self. split; [exists []; now rewrite app_nil_r | cbn; lia]. }
  pose proof (tailor_try_events api run_pdflatex tailor_system_prompt tailor_prompt
                jd (default [] (rag_file st)) st) as H.
  cbn zeta in H. rewrite Htry in H. cbn [fst snd] in H.
  destruct H as [(Hx & _) | (raw & tailored & st1 & dl & dfin & _ & _ & Hl & Ht & Hfin)].
  - destruct Hx as (_ & _ & Ht). rewrite (since_app _ _ _ Ht).
    split; [eauto | cbn; lia].
  - rewrite (since_app _ _ _ Ht). split; [eauto|].
    destruct (search_cost api run_pdflatex jd
                (filename_stem_of (filename (current_resume st))) 5 0
                (MkLocals tailored 0 None) st1 eq_refl) as (d' & Hx' & Hq' & Hr').
    pose proof (extends_same _ _ _ _ Hx' Hl) as ->.
    assert (Hd : queries dfin = [] /\ (length (renders dfin) <= 1)%nat).
    { destruct (fst (optimization_loop _ _ _ _ _ _)) as [l|e].
      - destruct Hfin as [(-> & _) | (-> & _)]; split; cbn; (reflexivity || lia).
      - destruct Hfin as (-> & _). split; cbn; (reflexivity || lia). }
    destruct Hd as (Hqf & Hrf).
    rewrite !queries_app, !renders_app, !length_app, Hqf. cbn [length]. cbn. lia.
Qed.

(** X10. The stop rule of the search. When the optimization loop returns,
    the renders it evaluated carry the attempt numbers 0, 1, ... in order;
    every one but the last is outside the constraints and is followed by
    one correction request; the last one is compliant, or it is the render
    of attempt 5. The adjustment count has grown by the number of
    corrections, and the source the loop returns is the one it rendered
    and evaluated last. *)
Theorem X10_search_stops_at_first_compliant_render {W : Type}
    (api : list N -> list N -> W -> result (list N) * W)
    (run_pdflatex : list N -> list N -> W -> pdflatex_outcome * W)
    (stem jd : list N) (l : locals) (st : state W) (l' : locals) (st' : state W) :
  optimization_loop api run_pdflatex stem jd l st = (Ok l', st') ->
  exists front final,
    checks (since st st') = front ++ [final]
    /\ Forall not_compliant front
    /\ (compliant (snd (fst final)) (snd final) = true
        \/ length front = max_optimization_attempts)
    /\ (length front <= max_optimization_attempts)%nat
    /\ List.map (fun c => fst (fst c)) (checks (since st st')) = seq 0 (S (length front))
    /\ length (renders (since st st')) = S (length front)
    /\ length (queries (since st st')) = length front
    /\ adjustment_count l' = (adjustment_count l + length front)%nat
    /\ last (renders (since st st')) = Some (stem, tailored_content l').
Proof.
  intros Hrun. unfold optimization_loop in Hrun.
  destruct (search_stops api run_pdflatex jd stem 5 0 l st l' st' eq_refl Hrun)
    as (d & front & final & Hx & Hc & Hall & Hstop & Hlen & Hnum & Hcount & Hq & _ & Hr
        & _ & Hlast).
  rewrite (extends_since _ _ _ Hx).
  exists front, final.
  split; [exact Hc|]. split; [exact Hall|]. split; [exact Hstop|]. split; [exact Hlen|].
  split; [exact Hnum|]. split; [exact Hr|].
  split; [rewrite <- (length_map snd), Hq; apply length_map|].
  split; [exact Hcount | exact Hlast].
Qed.

(** X11. The requests of a successful run, and what the response says
    about them. The run sends the tailoring request and then one
    correction request per render outside the constraints, in order; each
    correction request has the prompt of the correction that render calls
    for, quoting the source just compiled and the fill ratio just
    measured. [adjustment_count] is the number of corrections,
    [was_adjusted] tells whether there was one, and [adjustment_type] is
    the kind of the last one, absent exactly when the count is 0. *)
Theorem X11_response_reports_the_corrections {W : Type}
    (api : list N -> list N -> W -> result (list N) * W)
    (run_pdflatex : list N -> list N -> W -> pdflatex_outcome * W)
    (tailor_system_prompt : list N)
    (tailor_prompt : list N -> list N -> list N -> list N)
    (data : option (gmap (list N) (list N))) (st : state W)
    (p : payload) (st' : state W) :
  tailor_resume api run_pdflatex tailor_system_prompt tailor_prompt data st
    = (Success p, st') ->
  exists jd front final,
    data ≫= (fun d => d !! lit "job_description") = Some jd
    /\ checks (since st st') = front ++ [final]
    /\ queries (since st st')
       = (tailor_prompt (content (current_resume st)) (default [] (rag_file st)) jd,
          tailor_system_prompt)
         :: corrections_for jd (renders (since st st')) front
    /\ p_adjustment_count p = length front
    /\ was_adjusted p = (0 <? length front)%nat
    /\ p_adjustment_type p = last_correction front None
    /\ (p_adjustment_type p = None <-> p_adjustment_count p = 0%nat).
Proof.
  intros Hrun.
  apply tailor_resume_inv in Hrun as [(_ & why & [=]) | (jd & r & Hjd & _ & Htry & Hresp)].
  destruct r as [p0|e]; [|discriminate]. injection Hresp as <-.
  pose proof (tailor_try_events api run_pdflatex tailor_system_prompt tailor_prompt
                jd (default [] (rag_file st)) st) as H.
  cbn zeta in H. rewrite Htry in H. cbn [fst snd] in H.
  destruct H as [(_ & e & [=]) | (raw & tailored & st1 & dl & dfin & _ & _ & Hl & Ht & Hfin)].
  destruct (optimization_loop _ _ _ _ _ st1) as [[l|e] st2] eqn:Hloop; cbn [fst snd] in *.
  2:{ destruct Hfin as (_ & [=]). }
  destruct Hfin as [(_ & e & [=]) | (-> & pc & fr & _ & [= ->])].
  unfold optimization_loop in Hloop.
  destruct (search_stops _ _ _ _ 5 0 _ _ _ _ eq_refl Hloop)
    as (d & front & final & Hx & Hc & _ & _ & _ & _ & Hcount & _ & Hty & Hr & Hq & _).
  pose proof (extends_same _ _ _ _ Hx Hl) as ->.
  cbn [adjustment_count adjustment_type] in Hcount, Hty.
  rewrite (since_app _ _ _ Ht).
  exists jd, front, final.
  rewrite !checks_app, !queries_app, !renders_app, Hc, Hq.
  change (checks [Query _ _]) with (@nil (nat * nat * Q)).
  change (checks [Pdflatex _ _; SavePdf _]) with (@nil (nat * nat * Q)).
  change (queries [Pdflatex _ _; SavePdf _]) with (@nil (list N * list N)).
  change (renders [Query _ _]) with (@nil (list N * list N)).
  cbn [p_adjustment_count was_adjusted p_adjustment_type].
  rewrite Hcount, Hty, !app_nil_r. cbn [Nat.add app].
  split; [exact Hjd|]. split; [reflexivity|].
  split.
  { unfold corrections_for. rewrite zip_with_longer by lia. reflexivity. }
  split; [reflexivity|]. split; [reflexivity|]. split; [reflexivity|].
  rewrite last_correction_None. split; [now intros -> | apply length_zero_iff_nil].
Qed.

(** X12. Every source handed to the compiler in a call of [tailor_resume],
    successful or not, is a text the extractor returned: it holds
    [\documentclass] or [\begin{document}] and nothing follows its first
    end-of-document marker. Each compiler run uses the file stem of the
    stored resume's name, and the source a successful run returns has the
    same shape. *)
Theorem X12_compiled_sources_are_documents {W : Type}
    (api : list N -> list N -> W -> result (list N) * W)
    (run_pdflatex : list N -> list N -> W -> pdflatex_outcome * W)
    (tailor_system_prompt : list N)
    (tailor_prompt : list N -> list N -> list N -> list N)
    (data : option (gmap (list N) (list N))) (st : state W) :
  let out := tailor_resume api run_pdflatex tailor_system_prompt tailor_prompt data st in
  let stem := filename_stem_of (filename (current_resume st)) in
  Forall (fun r => fst r = stem /\ closed_document (snd r)) (renders (since st (snd out)))
  /\ forall p, fst out = Success p -> closed_document (tailored_resume p).
Proof.
  cbn zeta.
  destruct (tailor_resume api run_pdflatex tailor_system_prompt tailor_prompt data st)
    as [resp st'] eqn:E. cbn [fst snd].
  apply tailor_resume_cases in E as [(-> & why & ->) | (jd & r & Htry & ->)].
  { rewrite since_self. split; [constructor | discriminate]. }
  pose proof (tailor_try_events api run_pdflatex tailor_system_prompt tailor_prompt
                jd (default [] (rag_file st)) st) as H.
  cbn zeta in H. rewrite Htry in H. cbn [fst snd] in H.
  destruct H as [(Hx & e & ->) | (raw & tailored & st1 & dl & dfin & Hex & _ & Hl & Ht & Hfin)].
  { destruct Hx as (_ & _ & Ht). rewrite (since_app _ _ _ Ht).
    split; [constructor | discriminate]. }
  rewrite (since_app _ _ _ Ht).
  apply extract_closed in Hex.
  destruct (search_sources api run_pdflatex jd
              (filename_stem_of (filename (current_resume st)))
              (seq 0 (max_optimization_attempts + 1))
              (MkLocals tailored 0 None) st1 Hex) as (d' & Hx' & Hall & Hret).
  fold (optimization_loop api run_pdflatex
          (filename_stem_of (filename (current_resume st))) jd
          (MkLocals tailored 0 None) st1) in Hx', Hret.
  pose proof (extends_same _ _ _ _ Hx' Hl) as ->.
  rewrite !renders_app.
  destruct (fst (optimization_loop _ _ _ _ _ st1)) as [l|e].
  - specialize (Hret l eq_refl).
    destruct Hfin as [(-> & e & ->) | (-> & pc & fr & _ & ->)].
    + split; [|discriminate].
      apply Forall_app. split; [constructor|]. apply Forall_app. split; [exact Hall|].
      constructor; [split; [reflexivity | exact Hret] | constructor].
    + split.
      * apply Forall_app. split; [constructor|]. apply Forall_app. split; [exact Hall|].
        constructor; [split; [reflexivity | exact Hret] | constructor].
      * intros p [= <-]. exact Hret.
  - destruct Hfin as (-> & ->). split; [|discriminate].
    apply Forall_app. split; [constructor|]. apply Forall_app. split; [exact Hall|].
    constructor.
Qed.

(** X13. How two special measurements are judged. A render of at most one
    page whose PDF cannot be measured (the document cannot be opened, has
    no page, or its blocks cannot be read) is reported with fill ratio 0.9
    and accepted at once, without any request. A render of at most one
    page whose first page has no text block is reported with 0.5 and,
    while attempts remain, answered with an expand request. *)
Theorem X13_special_measurements_are_judged :
  (forall (W : Type) (api : list N -> list N -> W -> result (list N) * W)
          (run_pdflatex : list N -> list N -> W -> pdflatex_outcome * W)
          (stem jd : list N) (a : nat) (l : locals) (st : state W)
          (pdf : pdf_file) (w' : W) (pc : nat) (e : exn),
     run_pdflatex stem (tailored_content l) (world st) = (Exited 0 (Some pdf), w') ->
     reader_pages pdf = Ok pc -> (pc <= 1)%nat ->
     measure (fitz_view pdf) = Raise e ->
     let out := loop_body api run_pdflatex stem jd a l st in
     fst out = Ok (Break, l)
     /\ checks (since st (snd out)) = [(a, pc, 0.9)]
     /\ directions (since st (snd out)) = [ACCEPT]
     /\ queries (since st (snd out)) = [])
  /\ (forall (W : Type) (api : list N -> list N -> W -> result (list N) * W)
             (run_pdflatex : list N -> list N -> W -> pdflatex_outcome * W)
             (stem jd : list N) (a : nat) (l : locals) (st : state W)
             (pdf : pdf_file) (w' : W) (pc : nat) (h : Q) (rest : list page),
        run_pdflatex stem (tailored_content l) (world st) = (Exited 0 (Some pdf), w') ->
        reader_pages pdf = Ok pc -> (pc <= 1)%nat ->
        fitz_view pdf = Ok (MkPage h (Ok []) :: rest) ->
        (a < max_optimization_attempts)%nat ->
        let out := loop_body api run_pdflatex stem jd a l st in
        checks (since st (snd out)) = [(a, pc, 0.5)]
        /\ directions (since st (snd out)) = [EXPAND]
        /\ queries (since st (snd out))
           = [(expand_prompt (tailored_content l) jd 0.5, expand_system_prompt)]).
Proof.
  split.
  - intros W api run_pdflatex stem jd a l st pdf w' pc e Hrun Hpages Hpc Hm out.
    subst out. unfold loop_body, mbind, M_bind, bind.
    destruct (compile_latex_to_pdf run_pdflatex (tailored_content l) stem false st)
      as [r st1] eqn:Hc.
    pose proof (compile_search_extends _ _ _ _ _ _ Hc) as Hx.
    unfold compile_latex_to_pdf in Hc. rewrite Hrun in Hc. cbn [Z.eqb negb] in Hc.
    rewrite Hpages in Hc. unfold calculate_fill_ratio in Hc. rewrite Hm in Hc.
    injection Hc as <- Hst1.
    rewrite evaluate_in_band by (assumption || reflexivity). cbn [fst snd].
    assert (Hs : since st (emit (Print (Optimized 0.9)) (checked a pc 0.9 st1))
                 = [Pdflatex stem (tailored_content l)]
                   ++ [Print (CheckLine a pc 0.9); Print (Optimized 0.9)]).
    { apply extends_since. eapply extends_trans; [exact Hx|].
      eapply (extends_trans _ _ _ [_] [_]); apply extends_emit. }
    rewrite Hs. repeat split.
  - intros W api run_pdflatex stem jd a l st pdf w' pc h rest Hrun Hpages Hpc Hv Ha out.
    subst out. unfold loop_body, mbind, M_bind, bind.
    destruct (compile_latex_to_pdf run_pdflatex (tailored_content l) stem false st)
      as [r st1] eqn:Hc.
    pose proof (compile_search_extends _ _ _ _ _ _ Hc) as Hx.
    unfold compile_latex_to_pdf in Hc. rewrite Hrun in Hc. cbn [Z.eqb negb] in Hc.
    rewrite Hpages, Hv in Hc.
    change (calculate_fill_ratio (Ok (MkPage h (Ok []) :: rest))) with 0.5 in Hc.
    injection Hc as <- Hst1.
    rewrite evaluate_too_sparse_retry by (assumption || reflexivity).
    destruct (expand_resume api (tailored_content l) (content (current_resume st1)) jd 0.5
                (emit (Print (TooSparse 0.5)) (checked a pc 0.5 st1))) as [r2 st2] eqn:He.
    apply expand_extends in He.
    assert (Hs : since st (snd (corrected_by expanded l (r2, st2)))
                 = [Pdflatex stem (tailored_content l)]
                   ++ [Print (CheckLine a pc 0.5); Print (TooSparse 0.5)]
                   ++ [Query (expand_prompt (tailored_content l) jd 0.5) expand_system_prompt]).
    { apply extends_since.
      replace (snd (corrected_by expanded l (r2, st2))) with st2 by (now destruct r2).
      eapply extends_trans; [exact Hx|]. eapply extends_trans; [|exact He].
      eapply (extends_trans _ _ _ [_] [_]); apply extends_emit. }
    rewrite Hs. repeat split.
Qed.


End LoopExtras.

(* ===================================================================== *)
(** ** The other handlers *)
(* ===================================================================== *)

Module RoutesFacts.
Import Str Re Backend Runs Routes Perplexity BackendFacts RunFacts.

Lemma rfind_dot_nodot s i last :
  Forall (fun c => c <> 46%N) s -> rfind_dot s i last = last.
Proof.
  intros H. revert i last; induction H as [|c s Hc Hs IH]; intros i last; cbn [rfind_dot].
  - reflexivity.
  - rewrite IH. now rewrite (proj2 (N.eqb_neq c 46) Hc).
Qed.

Lemma rfind_dot_last p q i last :
  Forall (fun c => c <> 46%N) q ->
  rfind_dot (p ++ 46%N :: q) i last = Some (i + length p)%nat.
Proof.
  intros Hq. revert i last; induction p as [|c p IH]; intros i last.
  - cbn [app rfind_dot]. rewrite rfind_dot_nodot by exact Hq.
    cbn. f_equal. lia.
  - cbn [app rfind_dot]. rewrite IH. f_equal. cbn. lia.
Qed.

Lemma rfind_dot_Some s i last j :
  rfind_dot s i last = Some j ->
  (last = Some j /\ Forall (fun c => c <> 46%N) s)
  \/ exists p q, s = p ++ 46%N :: q /\ Forall (fun c => c <> 46%N) q
                 /\ j = (i + length p)%nat.
Proof.
  revert i last; induction s as [|c s IH]; intros i last; cbn [rfind_dot].
  - intros ->. left. split; [reflexivity | constructor].
  - intros H. apply IH in H as [[H Hs] | (p & q & -> & Hq & ->)].
    + destruct (N.eqb_spec c 46) as [->|Hc].
      * injection H as <-. right. exists [], s.
        split; [reflexivity|]. split; [exact Hs | cbn; lia].
      * left. split; [exact H | now constructor].
    + right. exists (c :: p), q. split; [reflexivity|]. split; [exact Hq | cbn; lia].
Qed.

Lemma lower_t e : lower e = 116%N <-> e = 116%N \/ e = 84%N.
Proof.
  unfold lower. destruct (N.leb_spec 65 e), (N.leb_spec e 90); cbn [andb]; lia.
Qed.

Lemma lower_e e : lower e = 101%N <-> e = 101%N \/ e = 69%N.
Proof.
  unfold lower. destruct (N.leb_spec 65 e), (N.leb_spec e 90); cbn [andb]; lia.
Qed.

Lemma lower_x e : lower e = 120%N <-> e = 120%N \/ e = 88%N.
Proof.
  unfold lower. destruct (N.leb_spec 65 e), (N.leb_spec e 90); cbn [andb]; lia.
Qed.

Lemma allowed_file_spec name :
  allowed_file name = true <->
  exists base e1 e2 e3,
    name = base ++ [46; e1; e2; e3]%N
    /\ lower e1 = 116%N /\ lower e2 = 101%N /\ lower e3 = 120%N.
Proof.
  unfold allowed_file. split.
  - destruct (rfind_dot name 0 None) as [i|] eqn:E; [|discriminate].
    apply rfind_dot_Some in E as [[[=] _] | (p & q & -> & Hq & ->)].
    cbn [Nat.add]. rewrite bool_decide_eq_true.
    replace (S (length p)) with (length (p ++ [46%N])) by (rewrite length_app; cbn; lia).
    replace (p ++ 46%N :: q) with ((p ++ [46%N]) ++ q) by (now rewrite <- app_assoc).
    rewrite drop_app_length.
    destruct q as [|e1 [|e2 [|e3 [|e4 q]]]]; try discriminate.
    intros [= H1 H2 H3]. exists p, e1, e2, e3.
    rewrite <- app_assoc. auto.
  - intros (base & e1 & e2 & e3 & -> & H1 & H2 & H3).
    assert (Hq : Forall (fun c => c <> 46%N) [e1; e2; e3]).
    { apply lower_t in H1. apply lower_e in H2. apply lower_x in H3.
      repeat constructor; lia. }
    rewrite (rfind_dot_last base [e1; e2; e3] 0 None Hq). cbn [Nat.add].
    replace (S (length base)) with (length (base ++ [46%N]))
      by (rewrite length_app; cbn; lia).
    replace (base ++ [46; e1; e2; e3]%N) with ((base ++ [46%N]) ++ [e1; e2; e3])
      by (now rewrite <- app_assoc).
    rewrite drop_app_length. apply bool_decide_eq_true.
    cbn [List.map]. now rewrite H1, H2, H3.
Qed.

Lemma preview_length content : (length (preview content) <= 503)%nat.
Proof.
  unfold preview, slice_to.
  destruct (Nat.ltb_spec 500 (length content)) as [H|H].
  - rewrite length_app, length_take. change (length (lit "...")) with 3%nat. lia.
  - lia.
Qed.

Lemma preview_short content : (length content <= 500)%nat -> preview content = content.
Proof.
  intros H. unfold preview. now rewrite (proj2 (Nat.ltb_ge 500 (length content)) H).
Qed.



End RoutesFacts.

Module RoutesExtras.
Import Str Re Extractor Backend Runs Policy Routes Perplexity.
Import BackendFacts RunFacts RoutesFacts.

(** X15. The names [allowed_file] accepts are exactly those that end with
    a dot followed by [tex] in any mix of upper and lower case. *)
Theorem X15_allowed_file_accepts_tex_names (name : list N) :
  allowed_file name = true <->
  exists base e1 e2 e3,
    name = base ++ [46; e1; e2; e3]%N
    /\ (e1 = 116 \/ e1 = 84)%N /\ (e2 = 101 \/ e2 = 69)%N /\ (e3 = 120 \/ e3 = 88)%N.
Proof.
  rewrite allowed_file_spec. split.
  - intros (base & e1 & e2 & e3 & -> & H1%lower_t & H2%lower_e & H3%lower_x). eauto 10.
  - intros (base & e1 & e2 & e3 & -> & H1%lower_t & H2%lower_e & H3%lower_x). eauto 10.
Qed.

(** X16. Upload and restart. An upload with a name [allowed_file] rejects
    leaves the server as it was. An upload of a readable file with an
    accepted name stores its text under the sanitized name and writes it to
    [main.tex], touching nothing else; [/current-resume] then shows it, cut
    to 500 characters. After a restart the text is loaded again, but under
    the name [main.tex], so that compiled PDFs are then named [main]. *)
Theorem X16_upload_survives_restart {W : Type}
    (secure_filename : list N -> list N) (name text : list N) (st : state W) :
  (allowed_file name = false ->
   forall body, upload_file secure_filename (Some (name, body)) st = (UploadRejected, st))
  /\ (allowed_file name = true ->
      let out := upload_file secure_filename (Some (name, Ok text)) st in
      fst out = Uploaded (secure_filename name)
      /\ current_resume (snd out) = MkResume text (secure_filename name) (lit "tex")
      /\ saved_resume_file (snd out) = Some text
      /\ rag_file (snd out) = rag_file st
      /\ compiled_folder (snd out) = compiled_folder st
      /\ trace (snd out) = trace st
      /\ (text <> [] ->
          get_current_resume (snd out)
          = Loaded (secure_filename name) (lit "tex") (preview text) true)
      /\ (length (preview text) <= 503)%nat
      /\ current_resume (startup (snd out)) = MkResume text (lit "main.tex") (lit "tex")
      /\ filename_stem_of (filename (current_resume (startup (snd out)))) = lit "main").
Proof.
  split.
  - intros H body. unfold upload_file. rewrite H. now destruct name.
  - intros H out. subst out. unfold upload_file. rewrite H.
    destruct name as [|c name]; [discriminate|]. cbn [negb fst snd].
    unfold save_resume_to_disk. cbn [current_resume saved_resume_file rag_file
                                      compiled_folder world trace].
    repeat (split; [reflexivity|]).
    split.
    { intros Hne. unfold get_current_resume.
      cbn [current_resume saved_resume_file content filename file_type].
      destruct text; [congruence | reflexivity]. }
    split; [apply preview_length|].
    split; reflexivity.
Qed.



(** X19. Failures of the generative service. Without a value of
    [PERPLEXITY_API_KEY], or with an empty one, [query_perplexity] raises
    before any HTTP request; with a key, an answer whose status is not 200
    makes it raise, whatever the body holds. In both cases a valid
    tailoring request is answered with status 500 after the first request,
    and the compiler is never run. *)
Theorem X19_service_failure_answers_500 {W : Type}
    (post : list N -> list N -> list N -> W -> result http_response * W)
    (api_key : option (list N))
    (run_pdflatex : list N -> list N -> W -> pdflatex_outcome * W)
    (tailor_system_prompt : list N)
    (tailor_prompt : list N -> list N -> list N -> list N)
    (data : option (gmap (list N) (list N))) (jd : list N) (st : state W) :
  data ≫= (fun d => d !! lit "job_description") = Some jd ->
  content (current_resume st) <> [] ->
  let out := tailor_resume (query_perplexity post api_key) run_pdflatex
               tailor_system_prompt tailor_prompt data st in
  ((api_key = None \/ api_key = Some []) ->
   fst out = ServerError ServiceError
   /\ world (snd out) = world st
   /\ renders (since st (snd out)) = []
   /\ compiled_folder (snd out) = compiled_folder st)
  /\ (forall key response w',
        api_key = Some key -> key <> [] ->
        post key tailor_system_prompt
             (tailor_prompt (content (current_resume st)) (load_rag_context st) jd)
             (world st) = (Ok response, w') ->
        status_code response <> 200%Z ->
        fst out = ServerError ServiceError
        /\ world (snd out) = w'
        /\ renders (since st (snd out)) = []
        /\ compiled_folder (snd out) = compiled_folder st).
Proof.
  intros Hjd Hc out. subst out. unfold tailor_resume. rewrite Hjd.
  destruct (content (current_resume st)) as [|c0 rest0] eqn:E; [congruence|].
  unfold tailor_try, mbind, M_bind, bind, Backend.get_current_resume,
    Backend.query_perplexity.
  rewrite E. split.
  - intros Hkey.
    assert (Hq : forall p s w, query_perplexity post api_key p s w = (Raise ServiceError, w)).
    { intros p s w. unfold query_perplexity. destruct Hkey as [-> | ->]; reflexivity. }
    rewrite Hq. cbn [fst snd]. repeat split.
    unfold since. cbn [trace emit set_world]. now rewrite drop_app_length.
  - intros key response w' -> Hkey Hpost Hstatus.
    unfold query_perplexity. destruct key as [|k key]; [congruence|].
    unfold load_rag_context in Hpost.
    change (default [] (rag_file st)) with
      (match rag_file st with Some text => text | None => [] end).
    rewrite Hpost. rewrite (proj2 (Z.eqb_neq _ _) Hstatus). cbn [negb fst snd].
    repeat split.
    unfold since. cbn [trace emit set_world]. now rewrite drop_app_length.
Qed.



End RoutesExtras.

(* ===================================================================== *)
(** ** Rounding and the size of the prompts *)
(* ===================================================================== *)

Module NumFacts.
Import Str Num Prompts LayoutProps.
Local Open Scope Q_scope.

Lemma Qabs_nonneg x : 0 <= x -> Qabs x = x.
Proof.
  destruct x as [a b]. unfold Qle, Qabs. cbn. intros H. f_equal. lia.
Qed.

(** The rounding moves a number by at most one half. *)
Lemma round_half_even_near y :
  inject_Z (round_half_even y) - (1 # 2) <= y
  /\ y <= inject_Z (round_half_even y) + (1 # 2).
Proof.
  unfold round_half_even.
  pose proof (Qfloor_le y) as H1. pose proof (Qlt_floor y) as H2.
  rewrite inject_Z_plus in H2. change (inject_Z 1) with 1 in H2.
  destruct (y - inject_Z (Qfloor y) ?= 1 # 2) eqn:C.
  - apply Qeq_alt in C.
    destruct (Z.even (Qfloor y)); rewrite ?inject_Z_plus; change (inject_Z 1) with 1; lra.
  - apply Qlt_alt in C. lra.
  - apply Qgt_alt in C. rewrite inject_Z_plus. change (inject_Z 1) with 1. lra.
Qed.


(** The hundredths of a ratio of the unit interval. *)
Lemma hundredths_range x :
  0 <= x <= 1 -> (0 <= round_half_even (x * 100) <= 100)%Z.
Proof.
  intros [H0 H1]. destruct (round_half_even_near (x * 100)) as [Ha Hb].
  split.
  - assert (H : (-1 < round_half_even (x * 100))%Z); [|lia].
    rewrite Zlt_Qlt. change (inject_Z (-1)) with (-1). lra.
  - assert (H : (round_half_even (x * 100) < 101)%Z); [|lia].
    rewrite Zlt_Qlt. change (inject_Z 101) with 101. lra.
Qed.




(** A ratio of the unit interval prints as four characters. *)
Lemma format_2f_length x : 0 <= x <= 1 -> length (format_2f x) = 4%nat.
Proof.
  intros H. unfold format_2f.
  rewrite (Qabs_nonneg x (proj1 H)), (proj2 (Qltb_false x 0) (proj1 H)).
  pose proof (hundredths_range x H) as Hn.
  set (n := round_half_even (x * 100)) in *. clearbody n.
  pose (g := fun n : Z =>
               length ([] ++ decimal (n / 100) ++ lit "."
                       ++ (if (n mod 100 <? 10)%Z then lit "0" else [])
                       ++ decimal (n mod 100))).
  change (g n = 4%nat).
  assert (Hall : forallb (fun k => Nat.eqb (g (Z.of_nat k)) 4) (seq 0 101) = true)
    by (vm_compute; reflexivity).
  rewrite forallb_forall in Hall.
  specialize (Hall (Z.to_nat n)). rewrite Z2Nat.id in Hall by lia.
  apply Nat.eqb_eq, Hall, in_seq. lia.
Qed.

Lemma unlines_cons l ls : ls <> [] -> unlines (l :: ls) = l ++ nl ++ unlines ls.
Proof. destruct ls; [congruence | reflexivity]. Qed.

End NumFacts.

Module NumExtras.
Import Str Num Layout Prompts Backend Runs BackendFacts LayoutProps NumFacts RunFacts.
Local Open Scope Q_scope.


(** X23. The size of a correction request, for a fill ratio between 0 and
    1 as the layout analyzer reports it: the prompt is a fixed text, the
    ratio in four characters, at most the first 1500 characters of the job
    description and the source to correct. A longer job description does
    not make the request longer. *)
Theorem X23_correction_prompt_size (latex_content job_description : list N) (fr : Q) :
  0 <= fr <= 1 ->
  length (shorten_prompt latex_content job_description fr)
  = (279 + Nat.min 1500 (length job_description) + length latex_content)%nat
  /\ length (expand_prompt latex_content job_description fr)
     = (327 + Nat.min 1500 (length job_description) + length latex_content)%nat.
Proof.
  intros H. pose proof (format_2f_length fr H) as Hf.
  unfold shorten_prompt, expand_prompt, slice_to.
  rewrite !unlines_cons by discriminate. cbn [unlines].
  rewrite !length_app, !length_take, Hf.
  repeat match goal with
         | |- context [length (lit ?s)] =>
             let n := eval vm_compute in (length (lit s)) in
             change (length (lit s)) with n
         end.
  change (length nl) with 1%nat. cbn [length]. split; lia.
Qed.

End NumExtras.

(* ===================================================================== *)
(** ** The further properties on sample inputs *)
(* ===================================================================== *)

Module ExtrasExamples.
Import Str Re Spec Num Layout Extractor Prompts Backend Runs Policy Routes Perplexity.
Import Samples Sim MoreSamples.
Import ExtractorExtras LoopExtras RoutesExtras NumExtras.
Local Open Scope Q_scope.

Lemma X1_witness :
  contains BEGIN_DOCUMENT reference_document = true
  /\ exists rest,
       reference_document
       = extract_preamble_from_original reference_document ++ BEGIN_DOCUMENT ++ rest.
Proof.
  assert (H : contains BEGIN_DOCUMENT reference_document = true)
    by (vm_compute; reflexivity).
  split; [exact H|].
  destruct (X1_preamble_splits_reference reference_document) as (_ & _ & Hsplit).
  exact (Hsplit H).
Defined.

Lemma X10_witness :
  exists l' st',
    optimization_loop api_scripted pdflatex_scripted (lit "cv") job start
                      (uploaded_with script) = (Ok l', st')
    /\ exists front final,
         checks (since (uploaded_with script) st') = front ++ [final]
         /\ Forall not_compliant front
         /\ length (renders (since (uploaded_with script) st')) = S (length front)
         /\ adjustment_count l' = (adjustment_count start + length front)%nat
         /\ adjustment_count l' = 2%nat.
Proof.
  assert (H : optimization_loop api_scripted pdflatex_scripted (lit "cv") job start
                (uploaded_with script)
              = (Ok (MkLocals plain_document 2 (Some expanded)),
                 snd (optimization_loop api_scripted pdflatex_scripted (lit "cv") job start
                        (uploaded_with script))))
    by (vm_compute; reflexivity).
  exists (MkLocals plain_document 2 (Some expanded)),
         (snd (optimization_loop api_scripted pdflatex_scripted (lit "cv") job start
                 (uploaded_with script))).
  split; [exact H|].
  destruct (X10_search_stops_at_first_compliant_render api_scripted pdflatex_scripted
              (lit "cv") job start (uploaded_with script) _ _ H)
    as (front & final & Hc & Hall & _ & _ & _ & Hr & _ & Hcount & _).
  exists front, final.
  split; [exact Hc|]. split; [exact Hall|]. split; [exact Hr|].
  split; [exact Hcount | reflexivity].
Defined.

Lemma X11_witness :
  exists p st',
    tailor_resume api_scripted pdflatex_scripted sim_system_prompt sim_prompt request
                  (uploaded_with script) = (Success p, st')
    /\ exists front final,
         checks (since (uploaded_with script) st') = front ++ [final]
         /\ p_adjustment_count p = length front
         /\ p_adjustment_type p = last_correction front None
         /\ (p_adjustment_type p = None <-> p_adjustment_count p = 0%nat).
Proof.
  assert (H : exists p,
             tailor_resume api_scripted pdflatex_scripted sim_system_prompt sim_prompt
                           request (uploaded_with script)
             = (Success p,
                snd (tailor_resume api_scripted pdflatex_scripted sim_system_prompt
                       sim_prompt request (uploaded_with script)))).
  { eexists. vm_compute. reflexivity. }
  destruct H as [p H]. exists p. eexists. split; [exact H|].
  destruct (X11_response_reports_the_corrections api_scripted pdflatex_scripted
              sim_system_prompt sim_prompt request (uploaded_with script) p _ H)
    as (jd & front & final & _ & Hc & _ & Hn & _ & Hty & Hiff).
  exists front, final.
  split; [exact Hc|]. split; [exact Hn|]. split; [exact Hty | exact Hiff].
Defined.

Lemma X12_witness :
  exists p,
    fst (tailor_resume api_scripted pdflatex_scripted sim_system_prompt sim_prompt request
           (uploaded_with script)) = Success p
    /\ closed_document (tailored_resume p).
Proof.
  assert (H : exists p,
             fst (tailor_resume api_scripted pdflatex_scripted sim_system_prompt sim_prompt
                    request (uploaded_with script)) = Success p).
  { eexists. vm_compute. reflexivity. }
  destruct H as [p H]. exists p. split; [exact H|].
  exact (proj2 (X12_compiled_sources_are_documents api_scripted pdflatex_scripted
                  sim_system_prompt sim_prompt request (uploaded_with script)) p H).
Defined.

Lemma X13_witness :
  pdflatex_const empty_pdf (lit "cv") (tailored_content start) (world uploaded)
  = (Exited 0 (Some empty_pdf), tt)
  /\ reader_pages empty_pdf = Ok 0%nat /\ (0 <= 1)%nat
  /\ measure (fitz_view empty_pdf) = Raise LibraryError
  /\ fst (loop_body (api_const plain_document) (pdflatex_const empty_pdf)
            (lit "cv") job 0 start uploaded) = Ok (Break, start)
  /\ pdflatex_const blank_pdf (lit "cv") (tailored_content start) (world uploaded)
     = (Exited 0 (Some blank_pdf), tt)
  /\ reader_pages blank_pdf = Ok 1%nat /\ (1 <= 1)%nat
  /\ fitz_view blank_pdf = Ok [MkPage 792 (Ok [])]
  /\ (0 < max_optimization_attempts)%nat
  /\ directions (since uploaded
       (snd (loop_body (api_const plain_document) (pdflatex_const blank_pdf)
               (lit "cv") job 0 start uploaded))) = [EXPAND].
Proof.
  destruct X13_special_measurements_are_judged as [Hfail Hblank].
  assert (A1 : pdflatex_const empty_pdf (lit "cv") (tailored_content start) (world uploaded)
               = (Exited 0 (Some empty_pdf), tt)) by reflexivity.
  assert (A2 : reader_pages empty_pdf = Ok 0%nat) by reflexivity.
  assert (A3 : (0 <= 1)%nat) by lia.
  assert (A4 : measure (fitz_view empty_pdf) = Raise LibraryError) by reflexivity.
  assert (B1 : pdflatex_const blank_pdf (lit "cv") (tailored_content start) (world uploaded)
               = (Exited 0 (Some blank_pdf), tt)) by reflexivity.
  assert (B2 : reader_pages blank_pdf = Ok 1%nat) by reflexivity.
  assert (B3 : (1 <= 1)%nat) by lia.
  assert (B4 : fitz_view blank_pdf = Ok [MkPage 792 (Ok [])]) by reflexivity.
  assert (B5 : (0 < max_optimization_attempts)%nat) by (unfold max_optimization_attempts; lia).
  split; [exact A1|]. split; [exact A2|]. split; [exact A3|]. split; [exact A4|].
  split.
  { exact (proj1 (Hfail unit (api_const plain_document) (pdflatex_const empty_pdf)
                    (lit "cv") job 0%nat start uploaded empty_pdf tt 0%nat LibraryError
                    A1 A2 A3 A4)). }
  split; [exact B1|]. split; [exact B2|]. split; [exact B3|]. split; [exact B4|].
  split; [exact B5|].
  exact (proj1 (proj2 (Hblank unit (api_const plain_document) (pdflatex_const blank_pdf)
                         (lit "cv") job 0%nat start uploaded blank_pdf tt 1%nat 792 []
                         B1 B2 B3 B4 B5))).
Defined.

Lemma X15_witness :
  (exists base e1 e2 e3,
     lit "My.Resume.TeX" = base ++ [46; e1; e2; e3]%N
     /\ (e1 = 116 \/ e1 = 84)%N /\ (e2 = 101 \/ e2 = 69)%N /\ (e3 = 120 \/ e3 = 88)%N)
  /\ allowed_file (lit "My.Resume.TeX") = true.
Proof.
  assert (H : exists base e1 e2 e3,
             lit "My.Resume.TeX" = base ++ [46; e1; e2; e3]%N
             /\ (e1 = 116 \/ e1 = 84)%N /\ (e2 = 101 \/ e2 = 69)%N
             /\ (e3 = 120 \/ e3 = 88)%N).
  { exists (lit "My.Resume"), 84%N, 101%N, 88%N.
    split; [reflexivity|]. split; [now right|]. split; [now left | now right]. }
  split; [exact H|].
  exact (proj2 (X15_allowed_file_accepts_tex_names (lit "My.Resume.TeX")) H).
Defined.

Lemma X16_witness :
  allowed_file (lit "cv.tex") = true
  /\ reference_document <> []
  /\ get_current_resume uploaded
     = Loaded (lit "cv.tex") (lit "tex") (preview reference_document) true
  /\ current_resume (startup uploaded)
     = MkResume reference_document (lit "main.tex") (lit "tex")
  /\ filename_stem_of (filename (current_resume (startup uploaded))) = lit "main"
  /\ allowed_file (lit "cv.pdf") = false
  /\ upload_file (fun name => name) (Some (lit "cv.pdf", Ok reference_document)) fresh
     = (UploadRejected, fresh).
Proof.
  assert (H : allowed_file (lit "cv.tex") = true) by (vm_compute; reflexivity).
  assert (Hne : reference_document <> []) by discriminate.
  assert (Hno : allowed_file (lit "cv.pdf") = false) by (vm_compute; reflexivity).
  destruct (X16_upload_survives_restart (fun name => name) (lit "cv.tex")
              reference_document fresh) as [_ Hyes].
  destruct (Hyes H) as (_ & _ & _ & _ & _ & _ & Hshow & _ & Hload & Hstem).
  destruct (X16_upload_survives_restart (fun name => name) (lit "cv.pdf")
              reference_document fresh) as [Hrej _].
  split; [exact H|]. split; [exact Hne|]. split; [exact (Hshow Hne)|].
  split; [exact Hload|]. split; [exact Hstem|]. split; [exact Hno|].
  exact (Hrej Hno (Ok reference_document)).
Defined.





Lemma X19_witness :
  request ≫= (fun d => d !! lit "job_description") = Some job
  /\ content (current_resume online) <> []
  /\ fst (tailor_resume (query_perplexity (post_const 200 (chat_completion plain_document)) None)
            pdflatex_online sim_system_prompt sim_prompt request online)
     = ServerError ServiceError
  /\ world (snd (tailor_resume
                   (query_perplexity (post_const 200 (chat_completion plain_document)) None)
                   pdflatex_online sim_system_prompt sim_prompt request online)) = 0%nat
  /\ api_key <> []
  /\ post_const 503 (chat_completion plain_document) api_key sim_system_prompt
       (sim_prompt (content (current_resume online)) (load_rag_context online) job)
       (world online)
     = (Ok (MkHttpResponse 503 [] (Ok (chat_completion plain_document))), 1%nat)
  /\ fst (tailor_resume
            (query_perplexity (post_const 503 (chat_completion plain_document)) (Some api_key))
            pdflatex_online sim_system_prompt sim_prompt request online)
     = ServerError ServiceError.
Proof.
  assert (H1 : request ≫= (fun d => d !! lit "job_description") = Some job)
    by (vm_compute; reflexivity).
  assert (H2 : content (current_resume online) <> []) by discriminate.
  assert (H3 : api_key <> []) by discriminate.
  assert (H4 : post_const 503 (chat_completion plain_document) api_key sim_system_prompt
                 (sim_prompt (content (current_resume online)) (load_rag_context online) job)
                 (world online)
               = (Ok (MkHttpResponse 503 [] (Ok (chat_completion plain_document))), 1%nat))
    by reflexivity.
  destruct (X19_service_failure_answers_500
              (post_const 200 (chat_completion plain_document)) None
              pdflatex_online sim_system_prompt sim_prompt request job online H1 H2)
    as [Hnokey _].
  destruct (Hnokey (or_introl eq_refl)) as (Hresp & Hworld & _).
  destruct (X19_service_failure_answers_500
              (post_const 503 (chat_completion plain_document)) (Some api_key)
              pdflatex_online sim_system_prompt sim_prompt request job online H1 H2)
    as [_ Hstatus].
  destruct (Hstatus api_key _ _ eq_refl H3 H4 ltac:(discriminate)) as (Hresp' & _).
  split; [exact H1|]. split; [exact H2|]. split; [exact Hresp|]. split; [exact Hworld|].
  split; [exact H3|]. split; [exact H4 | exact Hresp'].
Defined.



Lemma X23_witness :
  0 <= 0.99 <= 1
  /\ length (shorten_prompt plain_document job 0.99) = (279 + 8 + 55)%nat.
Proof.
  assert (H : 0 <= 0.99 <= 1) by (split; discriminate).
  split; [exact H|].
  exact (proj1 (X23_correction_prompt_size plain_document job 0.99 H)).
Defined.

End ExtrasExamples.
